(** * adlauncher-core: the launcher and the downloader

    A shallow embedding of [components/launcher.js] (class [Launcher]) and of
    the downloader component (class [Downloader]), with the properties their
    specification states about them and further ones read off the code.

    Layout: JavaScript strings and values, the Node [path] module, a tree
    model of the file system, a state-and-exception monad for the effects
    ([fs], [https], [adm-zip], [uuid], [child_process]), then the two classes
    method by method, and finally the theorems: first those of the
    specification, then, from [Further properties] on, how each method
    ends, what it leaves on the disk and what it never does. *)

From Stdlib Require Import String Ascii List ZArith Bool Arith Lia.
Import ListNotations.
Set Warnings "-register-all".
Open Scope string_scope.
Open Scope list_scope.

(** String concatenation, JavaScript's [+] on strings. *)
Infix "+++" := String.append (right associativity, at level 60).

(* ===================================================================== *)
(** ** JavaScript strings *)
(* ===================================================================== *)

Module Str.

(** [s.includes(sub)] *)
Fixpoint includes (s sub : string) : bool :=
  prefix sub s ||
  match s with
  | EmptyString => false
  | String _ s' => includes s' sub
  end.

(** [s.split(sep)] for a one-character separator. *)
Fixpoint split (sep : ascii) (s : string) : list string :=
  match s with
  | EmptyString => [EmptyString]
  | String c s' =>
      if Ascii.eqb c sep then EmptyString :: split sep s'
      else match split sep s' with
           | [] => [String c EmptyString]
           | h :: t => String c h :: t
           end
  end.

(** [l.slice(-n)]: the last [n] elements. *)
Definition slice_last {A} (n : nat) (l : list A) : list A :=
  skipn (length l - n) l.

(** [l.join(sep)] on an array of strings. *)
Definition join (sep : string) (l : list string) : string :=
  String.concat sep l.

(** [s.substring(0, n)] *)
Definition substring0 (n : nat) (s : string) : string :=
  substring 0 n s.

(** [l.includes(x)] on an array of strings. *)
Definition mem (x : string) (l : list string) : bool :=
  existsb (String.eqb x) l.

Definition is_digit (c : ascii) : bool :=
  let n := nat_of_ascii c in ((48 <=? n) && (n <=? 57))%nat.

(** The class [\w] of a JavaScript regular expression. *)
Definition is_word (c : ascii) : bool :=
  let n := nat_of_ascii c in
  is_digit c || ((65 <=? n) && (n <=? 90))%nat
  || ((97 <=? n) && (n <=? 122))%nat || (n =? 95)%nat.

Fixpoint span_digits (l : list ascii) : list ascii * list ascii :=
  match l with
  | c :: t =>
      if is_digit c then let (d, r) := span_digits t in (c :: d, r)
      else ([], l)
  | [] => ([], [])
  end.

(** [\b] after a word character: the next character is not one. *)
Definition boundary (rest : list ascii) : bool :=
  match rest with
  | [] => true
  | c :: _ => negb (is_word c)
  end.

(** One attempt of [/\b1\.\d+(\.\d+)?\b/] at the head of [l] (the leading
    [\b] is checked by the caller).  Both [\d+] are followed either by a
    [\b] or by a literal dot, so giving back a digit never helps and
    backtracking only ever drops the optional group as a whole. *)
Definition version_here (l : list ascii) : option (list ascii) :=
  match l with
  | "1"%char :: "."%char :: r =>
      let (d1, r1) := span_digits r in
      match d1 with
      | [] => None
      | _ =>
          let short :=
            if boundary r1 then Some ("1"%char :: "."%char :: d1) else None in
          match r1 with
          | "."%char :: r2 =>
              let (d2, r3) := span_digits r2 in
              match d2 with
              | [] => short
              | _ =>
                  if boundary r3
                  then Some ("1"%char :: "."%char :: d1 ++ "."%char :: d2)
                  else short
              end
          | _ => short
          end
      end
  | _ => None
  end.

Fixpoint version_scan (prev_word : bool) (l : list ascii)
  : option (list ascii) :=
  match l with
  | [] => None
  | c :: t =>
      match (if prev_word then None else version_here l) with
      | Some m => Some m
      | None => version_scan (is_word c) t
      end
  end.

(** [s.match(/\b1\.\d+(\.\d+)?\b/g)[0]]; [None] when [match] gives
    [null]. *)
Definition match_version (s : string) : option string :=
  option_map string_of_list_ascii
    (version_scan false (list_ascii_of_string s)).

End Str.

(* ===================================================================== *)
(** ** JavaScript values and exceptions *)
(* ===================================================================== *)

Inductive value : Type :=
| VUndefined
| VNull
| VBool (b : bool)
| VNum (n : Z)
| VStr (s : string)
| VArr (l : list value)
| VObj (fields : list (string * value)).

Inductive error : Type :=
| TypeError
| SyntaxError
| ENOENT
| EEXIST
| EISDIR
| ENOTDIR
| NetworkError
| BadZip
| Thrown (msg : string)      (* [throw "..."] of a plain string *)
| JsError (msg : string)     (* [new Error("...")] *)
| Unsettled.                 (* no exception: an [await] that never returns *)

Inductive result (A : Type) : Type :=
| Ok (a : A)
| Throw (e : error).
Arguments Ok {A} a.
Arguments Throw {A} e.

Module Js.

Fixpoint assoc {A} (k : string) (l : list (string * A)) : option A :=
  match l with
  | [] => None
  | (k', v) :: t => if String.eqb k k' then Some v else assoc k t
  end.

(** [v.k] / [v[k]]: reading a property of [undefined] or [null] throws;
    an absent property is [undefined]. *)
Definition get (v : value) (k : string) : result value :=
  match v with
  | VUndefined | VNull => Throw TypeError
  | VObj fs => Ok (match assoc k fs with Some x => x | None => VUndefined end)
  | _ => Ok VUndefined
  end.

(** The receiver of an array method ([find], [forEach], [push], [flat]):
    on anything but an array the call throws. *)
Definition as_array (v : value) : result (list value) :=
  match v with
  | VArr l => Ok l
  | _ => Throw TypeError
  end.

(** The receiver of a string method ([split], [substring], [includes]). *)
Definition as_string (v : value) : result string :=
  match v with
  | VStr s => Ok s
  | _ => Throw TypeError
  end.

Definition truthy (v : value) : bool :=
  match v with
  | VUndefined | VNull => false
  | VBool b => b
  | VNum n => negb (n =? 0)%Z
  | VStr s => negb (String.eqb s "")
  | VArr _ | VObj _ => true
  end.

(** [v === s] for a string [s]. *)
Definition is_str (s : string) (v : value) : bool :=
  match v with
  | VStr s' => String.eqb s' s
  | _ => false
  end.

(** [typeof v === 'object'] *)
Definition typeof_object (v : value) : bool :=
  match v with
  | VNull | VArr _ | VObj _ => true
  | _ => false
  end.

(** [l.find(pred)], where the callback may throw. *)
Fixpoint find (pred : value -> result bool) (l : list value)
  : result value :=
  match l with
  | [] => Ok VUndefined
  | x :: t =>
      match pred x with
      | Throw e => Throw e
      | Ok true => Ok x
      | Ok false => find pred t
      end
  end.

(** [l.flat()]: one level. *)
Definition flat (l : list value) : list value :=
  flat_map (fun v => match v with VArr l' => l' | _ => [v] end) l.

(** [l.reduce((acc, curr) => acc.concat(curr), [])]: [concat] spreads an
    array argument and appends any other value. *)
Definition concat_all (l : list value) : list value :=
  fold_left
    (fun acc curr => acc ++ match curr with VArr l' => l' | _ => [curr] end)
    l [].

End Js.

(* ===================================================================== *)
(** ** The Node [path] module *)
(* ===================================================================== *)

(** The launcher is written for Windows: its classpath separator is [;]
    and the classifiers it looks for are the Windows ones.  So [path] here
    is [path.win32]: both [/] and [\] separate, [\] is what [join] puts.

    A path of the model is absolute and normalised: the list of its
    segments, the drive first. *)
Definition path := list string.

Module Path.

Definition sep : string := "\".

Definition is_sep (c : ascii) : bool :=
  Ascii.eqb c "/"%char || Ascii.eqb c "\"%char.

(** The segments of one argument of [path.join]. *)
Fixpoint segments_aux (cur : string) (l : list ascii) : list string :=
  match l with
  | [] => [cur]
  | c :: t =>
      if is_sep c then cur :: segments_aux "" t
      else segments_aux (cur +++ String c "") t
  end.

Definition segments (s : string) : list string :=
  segments_aux "" (list_ascii_of_string s).

(** Normalisation, one segment at a time: empty and [.] segments vanish,
    [..] drops the segment before it, but never the drive. *)
Definition step (p : path) (s : string) : path :=
  if String.eqb s "" || String.eqb s "." then p
  else if String.eqb s ".." then
    match p with
    | [] | [_] => p
    | _ => removelast p
    end
  else p ++ [s].

(** [path.join(p, a1, ..., an)] *)
Definition join (p : path) (parts : list string) : path :=
  fold_left step (flat_map segments parts) p.

(** [path.resolve(p)]: the identity on an absolute normalised path. *)
Definition resolve (p : path) : path := p.

(** The string of a path. *)
Definition render (p : path) : string := String.concat sep p.

Fixpoint drop_seps (l : list ascii) : list ascii :=
  match l with
  | c :: t => if is_sep c then drop_seps t else l
  | [] => []
  end.

Fixpoint take_name (l : list ascii) : list ascii :=
  match l with
  | c :: t => if is_sep c then [] else c :: take_name t
  | [] => []
  end.

(** A drive letter. *)
Definition is_letter (c : ascii) : bool :=
  let n := nat_of_ascii c in
  ((65 <=? n) && (n <=? 90))%nat || ((97 <=? n) && (n <=? 122))%nat.

(** What follows a drive prefix [X:]; the whole when there is none. *)
Definition drop_drive (l : list ascii) : list ascii :=
  match l with
  | c :: ":"%char :: t => if is_letter c then t else l
  | _ => l
  end.

(** [path.basename(s)]: a drive prefix set aside, what follows the last
    separator, trailing separators ignored. *)
Definition basename (s : string) : string :=
  string_of_list_ascii
    (rev (take_name
            (drop_seps (rev (drop_drive (list_ascii_of_string s)))))).

Fixpoint last_dot (l : list ascii) (i : nat) (found : option nat)
  : option nat :=
  match l with
  | [] => found
  | c :: t =>
      last_dot t (S i) (if Ascii.eqb c "."%char then Some i else found)
  end.

(** [path.extname(name)] of a file name without separator or drive
    prefix: from the last dot on; empty when there is no dot, when the
    last dot is the first character, and for the name [..]. *)
Definition extname (name : string) : string :=
  if String.eqb name ".." then ""
  else
    match last_dot (list_ascii_of_string name) 0 None with
    | None | Some 0 => ""
    | Some i => substring i (String.length name - i) name
    end.

End Path.

(* ===================================================================== *)
(** ** The file system *)
(* ===================================================================== *)

(** What a file holds, up to parsing: a JSON document is kept as the value
    [JSON.parse] gives for it, a zip archive as its entries.  [Truncated]
    is the beginning of a body whose transfer broke off: no document and
    no archive. *)
Inductive content : Type :=
| Text (s : string)
| Json (v : value)
| Archive (entries : list (string * string))
| Truncated.

(** The disk, as a tree.  The entries of a directory are kept in the
    order [readdirSync] lists them; their names are plain file names. *)
Inductive node : Type :=
| File (c : content)
| Dir (entries : list (string * node)).

Module FS.

Fixpoint lookup (n : node) (p : path) {struct p} : option node :=
  match p with
  | [] => Some n
  | s :: p' =>
      match n with
      | Dir es =>
          match Js.assoc s es with
          | Some c => lookup c p'
          | None => None
          end
      | File _ => None
      end
  end.

(** Replace the first binding of [k], or add one at the end. *)
Fixpoint set {A} (k : string) (x : A) (l : list (string * A))
  : list (string * A) :=
  match l with
  | [] => [(k, x)]
  | (k', v) :: t =>
      if String.eqb k k' then (k, x) :: t else (k', v) :: set k x t
  end.

(** Drop every binding of [k]. *)
Fixpoint remove {A} (k : string) (l : list (string * A))
  : list (string * A) :=
  match l with
  | [] => []
  | (k', v) :: t =>
      if String.eqb k k' then remove k t else (k', v) :: remove k t
  end.

(** Rewrite the entry list of the directory at [p]. *)
Fixpoint alter (n : node) (p : path)
  (f : list (string * node) -> result (list (string * node)))
  {struct p} : result node :=
  match n with
  | File _ => Throw ENOTDIR
  | Dir es =>
      match p with
      | [] => match f es with Ok es' => Ok (Dir es') | Throw e => Throw e end
      | s :: p' =>
          match Js.assoc s es with
          | None => Throw ENOENT
          | Some c =>
              match alter c p' f with
              | Ok c' => Ok (Dir (set s c' es))
              | Throw e => Throw e
              end
          end
      end
  end.

(** Create or overwrite the file at [p] ([writeFileSync], a finished
    write stream): the parent must be a directory and [p] must not be
    one. *)
Definition write (n : node) (p : path) (c : content) : result node :=
  match rev p with
  | [] => Throw EISDIR
  | name :: rparent =>
      alter n (rev rparent)
        (fun es =>
           match Js.assoc name es with
           | Some (Dir _) => Throw EISDIR
           | _ => Ok (set name (File c) es)
           end)
  end.

(** [unlinkSync(p)] *)
Definition unlink (n : node) (p : path) : result node :=
  match rev p with
  | [] => Throw EISDIR
  | name :: rparent =>
      alter n (rev rparent)
        (fun es =>
           match Js.assoc name es with
           | Some (File _) => Ok (remove name es)
           | Some (Dir _) => Throw EISDIR
           | None => Throw ENOENT
           end)
  end.

(** [mkdirSync(p)] *)
Definition mkdir (n : node) (p : path) : result node :=
  match rev p with
  | [] => Throw EEXIST
  | name :: rparent =>
      alter n (rev rparent)
        (fun es =>
           match Js.assoc name es with
           | Some _ => Throw EEXIST
           | None => Ok (set name (Dir []) es)
           end)
  end.

(** [mkdirSync(p, { recursive: true })]: every missing directory on the
    way is created; a file on the way, or in the place itself, is an
    error. *)
Fixpoint mkdir_p (n : node) (p : path) {struct p} : result node :=
  match n with
  | File _ => Throw (match p with [] => EEXIST | _ => ENOTDIR end)
  | Dir es =>
      match p with
      | [] => Ok n
      | s :: p' =>
          match mkdir_p (match Js.assoc s es with
                         | Some c => c
                         | None => Dir []
                         end) p' with
          | Ok c' => Ok (Dir (set s c' es))
          | Throw e => Throw e
          end
      end
  end.

(** [existsSync(p)] *)
Definition exists_ (n : node) (p : path) : bool :=
  match lookup n p with Some _ => true | None => false end.

(** [readFileSync(p)] *)
Definition read (n : node) (p : path) : result content :=
  match lookup n p with
  | Some (File c) => Ok c
  | Some (Dir _) => Throw EISDIR
  | None => Throw ENOENT
  end.


(** What is bound to a name that holds no directory. *)
Definition not_dir (o : option node) : Prop :=
  match o with
  | Some (Dir _) => False
  | _ => True
  end.

(** [readdirSync(p)], with the nodes the names stand for. *)
Definition readdir (n : node) (p : path) : result (list (string * node)) :=
  match lookup n p with
  | Some (Dir es) => Ok es
  | Some (File _) => Throw ENOTDIR
  | None => Throw ENOENT
  end.

End FS.

(** [JSON.parse] of what [readFileSync] gives. *)
Definition JSON_parse (c : content) : result value :=
  match c with
  | Json v => Ok v
  | _ => Throw SyntaxError
  end.

(* ===================================================================== *)
(** ** Effects *)
(* ===================================================================== *)

(** What a run does to the outside: the changes of the disk, the requests
    sent over the network, the processes started.  Reads are not recorded,
    they change nothing; console output is left out. *)
Inductive event : Type :=
| EvWrite (p : path) (c : content)       (* a file created or overwritten *)
| EvUnlink (p : path)
| EvMkdir (p : path)
| EvGet (url : string) (dest : path)     (* a request, to be piped to [dest] *)
| EvExtract (archive target : path)
| EvSpawn (cmd : string) (args : list value) (cwd : path).

(** The fields a [Downloader] instance accumulates: [this.version],
    [this.root], [this.file]. *)
Record instance : Type := {
  this_version : string;
  this_root : path;
  this_file : value
}.

(** A transfer in flight that nobody awaits where it was started: the URL
    asked for, the file the answer is piped into and, for a bundle of
    natives, the name of the archive that is unpacked once it is there. *)
Record task : Type := {
  task_url : string;
  task_dest : path;
  task_unpack : option string
}.

(** What a GET of a URL answers: [None] is a request that ends in an error
    before any answer, [Some Truncated] an answer that breaks off in the
    middle of its body, anything else a body received in full.  [accepts]
    is the URL parser of [https.get]: whether a string is taken for the
    URL of a request. *)
Record world : Type := {
  fs : node;                          (* the disk *)
  remote : string -> option content;
  accepts : string -> bool;
  uuids : nat -> string;              (* the draws of [uuidv4()] *)
  tick : nat;                         (* how many were drawn *)
  this : instance;
  tasks : list task;                  (* in flight, oldest first *)
  log : list event                    (* oldest first *)
}.

Definition M (A : Type) : Type := world -> result A * world.

Definition ret {A} (a : A) : M A := fun w => (Ok a, w).

Definition throw {A} (e : error) : M A := fun w => (Throw e, w).

Definition bind {A B} (m : M A) (k : A -> M B) : M B :=
  fun w =>
    match m w with
    | (Ok a, w') => k a w'
    | (Throw e, w') => (Throw e, w')
    end.

(** [try { m } catch (error) { h error }]: what [m] did before it threw
    stays done. *)
Definition try_catch {A} (m : M A) (h : error -> M A) : M A :=
  fun w =>
    match m w with
    | (Ok a, w') => (Ok a, w')
    | (Throw e, w') => h e w'
    end.

(** [try { ... await p ... } catch (error) { h error }]: when the promise
    awaited never settles, nothing after the [await] runs, the handler
    included. *)
Definition try_await {A} (m : M A) (h : error -> M A) : M A :=
  fun w =>
    match m w with
    | (Ok a, w') => (Ok a, w')
    | (Throw Unsettled, w') => (Throw Unsettled, w')
    | (Throw e, w') => h e w'
    end.

Definition lift {A} (r : result A) : M A := fun w => (r, w).

Declare Scope monad_scope.
Delimit Scope monad_scope with monad.
Notation "x <- m ;; k" := (bind m (fun x => k))
  (at level 61, m at next level, right associativity) : monad_scope.
Notation "m ;; k" := (bind m (fun _ => k))
  (at level 61, right associativity) : monad_scope.
Open Scope monad_scope.

Definition with_fs (w : world) (n : node) : world :=
  {| fs := n; remote := remote w; accepts := accepts w; uuids := uuids w;
     tick := tick w; this := this w; tasks := tasks w; log := log w |}.

Definition with_log (w : world) (l : list event) : world :=
  {| fs := fs w; remote := remote w; accepts := accepts w; uuids := uuids w;
     tick := tick w; this := this w; tasks := tasks w; log := l |}.

Definition with_this (w : world) (i : instance) : world :=
  {| fs := fs w; remote := remote w; accepts := accepts w; uuids := uuids w;
     tick := tick w; this := i; tasks := tasks w; log := log w |}.

Definition with_tasks (w : world) (l : list task) : world :=
  {| fs := fs w; remote := remote w; accepts := accepts w; uuids := uuids w;
     tick := tick w; this := this w; tasks := l; log := log w |}.

Definition emit (e : event) : M unit :=
  fun w => (Ok tt, with_log w (log w ++ [e])).

(** A change of the disk: recorded when it succeeds. *)
Definition mutate (e : event) (f : node -> result node) : M unit :=
  fun w =>
    match f (fs w) with
    | Ok n => (Ok tt, with_log (with_fs w n) (log w ++ [e]))
    | Throw err => (Throw err, w)
    end.

Definition existsSync (p : path) : M bool :=
  fun w => (Ok (FS.exists_ (fs w) p), w).

Definition readFileSync (p : path) : M content :=
  fun w => (FS.read (fs w) p, w).

Definition readdirSync (p : path) : M (list (string * node)) :=
  fun w => (FS.readdir (fs w) p, w).

Definition writeFileSync (p : path) (c : content) : M unit :=
  mutate (EvWrite p c) (fun n => FS.write n p c).

Definition unlinkSync (p : path) : M unit :=
  mutate (EvUnlink p) (fun n => FS.unlink n p).

Definition mkdirSync (p : path) : M unit :=
  mutate (EvMkdir p) (fun n => FS.mkdir n p).

Definition mkdirSync_recursive (p : path) : M unit :=
  mutate (EvMkdir p) (fun n => FS.mkdir_p n p).

(** [uuidv4()] *)
Definition uuidv4 : M value :=
  fun w =>
    (Ok (VStr (uuids w (tick w))),
     {| fs := fs w; remote := remote w; accepts := accepts w;
        uuids := uuids w; tick := S (tick w); this := this w;
        tasks := tasks w; log := log w |}).

(** [spawn(cmd, args, { cwd })] *)
Definition spawn (cmd : string) (args : list value) (cwd : path) : M unit :=
  emit (EvSpawn cmd args cwd).

(** How a promise ends.  [Pending e]: the [async] executor threw [e]; the
    promise is never settled and [e] is an unhandled rejection. *)
Inductive settled : Type :=
| Resolved (msg : string)
| Rejected (e : error)
| Pending (e : error).

(** The transfers of a log. *)
Definition is_get (e : event) : bool :=
  match e with EvGet _ _ => true | _ => false end.

Definition transfers (l : list event) : list event := filter is_get l.

(* ===================================================================== *)
(** ** class Downloader *)
(* ===================================================================== *)

Module Downloader.

(** The constructor's fields. *)
Definition url_meta : string :=
  "https://launchermeta.mojang.com/mc/game/version_manifest.json".
Definition url_resource : string :=
  "https://resources.download.minecraft.net".
Definition cache : string := "cache".
Definition versions : string := "versions".
Definition assets : string := "assets".
Definition libraries : string := "libraries".
Definition natives : string := "natives".

(** Messages. *)
Definition metadataError : string :=
  "Error al descargar el archivo de metadatos de la versión.".
Definition clientError : string :=
  "Error al descargar el archivo .jar de la versión.".
Definition librariesError : string :=
  "Error al descargar las librerías de la versión.".
Definition nativesError : string :=
  "Error al descargar los archivos nativos de la versión.".
Definition downloaded : string :=
  "Se han descargado correctamente todos los archivos".

Definition set_version_root (version : string) (root : path) : M unit :=
  fun w =>
    (Ok tt,
     with_this w {| this_version := version; this_root := root;
                    this_file := this_file (this w) |}).

Definition set_file (v : value) : M unit :=
  fun w =>
    (Ok tt,
     with_this w {| this_version := this_version (this w);
                    this_root := this_root (this w);
                    this_file := v |}).

Definition get_this : M instance := fun w => (Ok (this w), w).

(** The request of [https.get(url, { timeout: 10000 }, callback)]. *)

(** Strings [https.get] takes whatever the parser makes of the rest: a
    URL parses once its scheme and host do, and these are the two hosts of
    the constructor. *)
Definition known (u : string) : bool :=
  prefix "https://launchermeta.mojang.com/" u
  || prefix (url_resource +++ "/") u.

Definition sendable (w : world) (u : string) : bool :=
  known u || accepts w u.

(** Where a request goes when [url] is no string and falsy: without a URL
    the options are the defaults, and the callback is lost, so the answer
    is heard by nobody. *)
Definition localhost : string := "https://localhost:443/".

Inductive asked : Type :=
| Piped (u : string)     (* the answer of [u] will be piped into a file *)
| Unheard.               (* asked of [localhost], nothing listens *)

(** The call of [https.get] in the executor of line 63.  A string that
    is no URL, and a truthy value that is no string (taken for the options,
    which leaves an object where the callback should be), throw before
    anything is sent. *)
Definition request (url : value) (dest : path) : M asked :=
  fun w =>
    match url with
    | VStr u =>
        if sendable w u
        then (Ok (Piped u), with_log w (log w ++ [EvGet u dest]))
        else (Throw TypeError, w)
    | _ =>
        if Js.truthy url then (Throw TypeError, w)
        else (Ok Unheard, with_log w (log w ++ [EvGet localhost []]))
    end.

(** How the transfer of [u] into [dest] ends: a failed request and a
    write stream that cannot be opened reject; a body that breaks off
    leaves its beginning in the file, and the promise is never settled. *)
Definition pipe (u : string) (dest : path) : M unit :=
  fun w =>
    match remote w u with
    | None => (Throw NetworkError, w)
    | Some body =>
        match writeFileSync dest body w with
        | (Ok _, w') =>
            (match body with Truncated => Throw Unsettled | _ => Ok tt end,
             w')
        | (Throw e, w') => (Throw e, w')
        end
    end.

(** How a request nobody listens to ends: its failure rejects, its answer
    settles nothing. *)
Definition unheard : M unit :=
  fun w =>
    match remote w localhost with
    | None => (Throw NetworkError, w)
    | Some _ => (Throw Unsettled, w)
    end.

(** [await this.down(url, dir, name)] in an executor: the request is sent
    and the executor goes on when the answer is in
    [path.join(dir, name)]. *)
Definition down (url : value) (dir : path) (name : string) : M unit :=
  a <- request url (Path.join dir [name]) ;;
  match a with
  | Piped u => pipe u (Path.join dir [name])
  | Unheard => unheard
  end.

(** [this.down(url, dir, name)] where nothing waits for it, in a loop or
    in an [async] callback: the request is sent at once, the transfer ends
    later ([finish]).  A request that cannot be sent is a rejected promise,
    which is heard of only after the caller has gone on.  [unpack] is the
    archive name of a bundle of natives, whose callback goes on after the
    transfer. *)
Definition start (url : value) (dir : path) (name : string)
  (unpack : option string) : M unit :=
  fun w =>
    match request url (Path.join dir [name]) w with
    | (Ok (Piped u), w') =>
        (Ok tt,
         with_tasks w'
           (tasks w' ++ [{| task_url := u;
                            task_dest := Path.join dir [name];
                            task_unpack := unpack |}]))
    | (_, w') => (Ok tt, w')
    end.

(** [new Promise(async (resolve, reject) => { body })]: an exception
    that escapes the [async] executor settles nothing. *)
Definition promise_async (body : M settled) : M settled :=
  fun w =>
    match body w with
    | (Ok s, w') => (Ok s, w')
    | (Throw e, w') => (Ok (Pending e), w')
    end.

(** [new Promise((resolve, reject) => { body })]: an exception thrown by
    a plain executor rejects the promise. *)
Definition promise_sync (body : M settled) : M settled :=
  fun w =>
    match body w with
    | (Ok s, w') => (Ok s, w')
    | (Throw e, w') => (Ok (Rejected e), w')
    end.

(** The synchronous part of an [async] callback of [forEach], which says
    whether it called [reject]: an exception that escapes it rejects a
    promise nobody holds. *)
Definition callback (m : M bool) : M bool :=
  try_catch m (fun _ => ret false).

(** [await p] inside an executor without [try]. *)
Definition await (p : M settled) : M string :=
  s <- p ;;
  match s with
  | Resolved msg => ret msg
  | Rejected e => throw e
  | Pending e => throw e
  end.

Fixpoint forEach {A} (f : A -> M unit) (l : list A) : M unit :=
  match l with
  | [] => ret tt
  | x :: t => f x ;; forEach f t
  end.

(** [l.forEach(async x => ...)] in a plain executor: every callback runs
    up to its first [await]; the result says whether one of them called
    [reject] on its way. *)
Fixpoint forEachAsync {A} (f : A -> M bool) (l : list A) : M bool :=
  match l with
  | [] => ret false
  | x :: t =>
      b <- callback (f x) ;;
      b' <- forEachAsync f t ;;
      ret (b || b')
  end.

(** [ver.versions.find(x => x.type === 'release' && x.id === version)] *)
Definition is_release_of (version : string) (x : value) : result bool :=
  match Js.get x "type" with
  | Throw e => Throw e
  | Ok t =>
      if Js.is_str "release" t then
        match Js.get x "id" with
        | Throw e => Throw e
        | Ok i => Ok (Js.is_str version i)
        end
      else Ok false
  end.

(** Lines 96-98 of [downloadVersion]: the metadata URL of the version. *)
Definition resolveVersionUrl (ver : value) (version : string)
  : result value :=
  match Js.get ver "versions" with
  | Throw e => Throw e
  | Ok vs =>
      match Js.as_array vs with
      | Throw e => Throw e
      | Ok l =>
          match Js.find (is_release_of version) l with
          | Throw e => Throw e
          | Ok entry =>
              match Js.get entry "url" with
              | Throw e => Throw e
              | Ok verJson =>
                  if negb (Js.truthy verJson)
                  then Throw (Thrown "La version no existe.")
                  else Ok verJson
              end
          end
      end
  end.

Definition downloadVersion : M settled :=
  promise_async (
    t <- get_this ;;
    let root := this_root t in
    let version := this_version t in
    ex <- existsSync (Path.join root [cache; "json"]) ;;
    (if negb ex then mkdirSync_recursive (Path.join root [cache; "json"])
     else ret tt) ;;
    down (VStr url_meta) (Path.join root [cache; "json"])
      "version_manifest.json" ;;
    ex <- existsSync (Path.join root [cache]) ;;
    if ex then
      c <- readFileSync
             (Path.join root [cache; "json"; "version_manifest.json"]) ;;
      ver <- lift (JSON_parse c) ;;
      verJson <- lift (resolveVersionUrl ver version) ;;
      ex <- existsSync (Path.join root [versions; version]) ;;
      (if negb ex
       then mkdirSync_recursive (Path.join root [versions; version])
       else ret tt) ;;
      try_await
        (down verJson (Path.join root [versions; version])
           (version +++ ".json") ;;
         ret (Resolved ("VERSION: " +++ version)))
        (fun _ => ret (Rejected (JsError metadataError)))
    else ret (Resolved ("VERSION: " +++ version))).

Definition downloadClient : M settled :=
  promise_async (
    t <- get_this ;;
    let root := this_root t in
    let version := this_version t in
    set_file
      (VStr (Path.render
               (Path.join root [versions; version; version +++ ".json"]))) ;;
    c <- readFileSync
           (Path.join root [versions; version; version +++ ".json"]) ;;
    file <- lift (JSON_parse c) ;;
    set_file file ;;
    downloads <- lift (Js.get file "downloads") ;;
    cl <- lift (Js.get downloads "client") ;;
    client <- lift (Js.get cl "url") ;;
    ex <- existsSync (Path.join root [versions; version]) ;;
    (if negb ex then mkdirSync (Path.join root [versions; version])
     else ret tt) ;;
    try_await
      (down client (Path.join root [versions; version])
         (version +++ ".jar") ;;
       ret (Resolved ("CLIENTE DESCARGADO - " +++ version +++ ".jar")))
      (fun _ => ret (Rejected (JsError clientError)))).

(** The keys [for (const key in v)] visits: the fields of an object, the
    indices of an array or of a string, nothing for any other value.  Only
    the number of visits and what [v[key]] gives matter to the loop, so
    each key comes with that value. *)
Definition own_entries (v : value) : list value :=
  match v with
  | VObj fields =>
      map (fun kv => match Js.assoc (fst kv) fields with
                     | Some x => x
                     | None => VUndefined
                     end) fields
  | VArr l => l
  | VStr s => map (fun c => VStr (String c "")) (list_ascii_of_string s)
  | _ => []
  end.

(** [v.hasOwnProperty.call(v, key)] for a key the loop visits (line 145):
    [hasOwnProperty] is looked up on [v] itself, so on an object with a
    field of that name the call is not one of a function. *)
Definition hasOwn (v : value) : result unit :=
  match v with
  | VObj fields =>
      match Js.assoc "hasOwnProperty" fields with
      | Some _ => Throw TypeError
      | None => Ok tt
      end
  | _ => Ok tt
  end.

(** Where the object of hash [fileHash] is fetched from. *)
Definition assetUrl (fileHash : string) : string :=
  url_resource +++ "/" +++ Str.substring0 2 fileHash +++ "/" +++ fileHash.

(** The directory the object of hash [fileHash] is stored in. *)
Definition assetDir (root : path) (fileHash : string) : path :=
  Path.join root [assets; "objects"; Str.substring0 2 fileHash].

(** Lines 146-156, the body of the loop of [downloadAssets]: the transfer
    is started and left to itself. *)
Definition downloadAsset (root : path) (fileName : value) : M unit :=
  h <- lift (Js.get fileName "hash") ;;
  fileHash <- lift (Js.as_string h) ;;
  let fileSubHash := Str.substring0 2 fileHash in
  ex <- existsSync (Path.join root [assets; "objects"; fileSubHash]) ;;
  (if negb ex
   then mkdirSync (Path.join root [assets; "objects"; fileSubHash])
   else ret tt) ;;
  start (VStr (url_resource +++ "/" +++ fileSubHash +++ "/" +++ fileHash))
    (Path.join root [assets; "objects"; fileSubHash]) fileHash None.

Definition assetIndexUrl : M value :=
  t <- get_this ;;
  ai <- lift (Js.get (this_file t) "assetIndex") ;;
  lift (Js.get ai "url").

Definition downloadAssets : M settled :=
  promise_async (
    t <- get_this ;;
    let root := this_root t in
    let version := this_version t in
    ex <- existsSync (Path.join root [assets; "indexes"]) ;;
    (if negb ex then mkdirSync_recursive (Path.join root [assets; "indexes"])
     else ret tt) ;;
    u <- assetIndexUrl ;;
    down u (Path.join root [assets; "indexes"]) (version +++ ".json") ;;
    u <- assetIndexUrl ;;
    down u (Path.join root [cache; "json"]) (version +++ ".json") ;;
    c <- readFileSync
           (Path.join root [assets; "indexes"; version +++ ".json"]) ;;
    assetFile <- lift (JSON_parse c) ;;
    ex <- existsSync (Path.join root [assets; "objects"]) ;;
    (if negb ex then mkdirSync (Path.join root [assets; "objects"])
     else ret tt) ;;
    objects <- lift (Js.get assetFile "objects") ;;
    forEach
      (fun fileName => lift (hasOwn objects) ;; downloadAsset root fileName)
      (own_entries objects) ;;
    ret (Resolved ("RECURSOS DESCARGADOS - "
                   +++ Path.render (Path.join root [assets])))).

(** [el['natives-windows'] ? el['natives-windows'] : el['natives-windows-64']]
    behind [typeof el === 'object']. *)
Definition selectNatives (el : value) : result value :=
  if Js.typeof_object el then
    match Js.get el "natives-windows" with
    | Throw e => Throw e
    | Ok w =>
        if Js.truthy w then Js.get el "natives-windows"
        else Js.get el "natives-windows-64"
    end
  else Ok (VBool false).

(** The name of an archive entry as adm-zip takes it: both separators
    split it, empty and [.] segments vanish, [..] drops the segment before
    it and never leaves the target. *)
Definition canonical (name : string) : list string :=
  fold_left
    (fun p s =>
       if String.eqb s "" || String.eqb s "." then p
       else if String.eqb s ".." then removelast p
       else p ++ [s])
    (Path.segments name) [].

(** An entry that stands for a directory: its name ends in a separator. *)
Definition is_folder (name : string) : bool :=
  match rev (list_ascii_of_string name) with
  | c :: _ => Path.is_sep c
  | [] => false
  end.

(** One entry of [extractAllTo(target, true)]: a directory entry is made,
    with what is missing on the way; a file entry is written, after the
    directories it needs, and skipped when a directory has its place. *)
Definition extract_entry (n : node) (target : path) (name bytes : string)
  : result node :=
  let dest := target ++ canonical name in
  if is_folder name then FS.mkdir_p n dest
  else
    match FS.lookup n dest with
    | Some (Dir _) => Ok n
    | _ =>
        match FS.mkdir_p n (removelast dest) with
        | Throw e => Throw e
        | Ok n1 => FS.write n1 dest (Text bytes)
        end
    end.

(** The entries in turn: the disk they leave and, when one of them
    fails, the error that ends the extraction there. *)
Fixpoint extract_entries (n : node) (target : path)
  (entries : list (string * string)) : node * option error :=
  match entries with
  | [] => (n, None)
  | (name, bytes) :: t =>
      match extract_entry n target name bytes with
      | Throw e => (n, Some e)
      | Ok n1 => extract_entries n1 target t
      end
  end.

(** [new Zip(archive).extractAllTo(target, true)]: what was unpacked
    before an entry fails stays on the disk. *)
Definition extractAllTo (archive target : path) : M unit :=
  fun w =>
    match FS.read (fs w) archive with
    | Ok (Archive entries) =>
        let (n, stop) := extract_entries (fs w) target entries in
        (match stop with None => Ok tt | Some e => Throw e end,
         with_log (with_fs w n) (log w ++ [EvExtract archive target]))
    | Ok _ => (Throw BadZip, w)
    | Throw e => (Throw e, w)
    end.

(** Lines 174-177: what the callback of [downloadNatives] does once the
    bundle asked of [u] is in the file [name] of the natives directory. *)
Definition unpack (u name : string) : M unit :=
  t <- get_this ;;
  let root := this_root t in
  let version := this_version t in
  if String.eqb version "1.8" && Str.includes u "nightly"
  then unlinkSync (Path.join root [natives; name])
  else
    extractAllTo (Path.join (Path.join root [natives]) [name])
      (Path.join root [natives; version]) ;;
    unlinkSync (Path.join root [natives; name]).

(** The end of a transfer nobody awaits, with what its callback does
    after it.  Whatever fails there reaches nobody: the promise of an
    asset is only printed, and the [reject] of a callback comes after the
    [resolve] of its executor. *)
Definition finish (t : task) : M unit :=
  fun w =>
    (Ok tt,
     snd ((pipe (task_url t) (task_dest t) ;;
           match task_unpack t with
           | None => ret tt
           | Some name => unpack (task_url t) name
           end) w)).

(** The transfers in flight end in the order they were started. *)
Fixpoint run (ts : list task) : M unit :=
  match ts with
  | [] => ret tt
  | t :: r => finish t ;; run r
  end.

(** The world once every transfer in flight has ended. *)
Definition settle (w : world) : world :=
  snd (run (tasks w) (with_tasks w [])).

(** The [async] callback of [downloadNatives], up to its [await]: the
    arguments of [down] are made inside the [try], so a bundle whose
    [path] is no string calls [reject] there and then. *)
Definition downloadNative (root : path) (element : value) : M bool :=
  d <- lift (Js.get element "downloads") ;;
  el <- lift (Js.get d "classifiers") ;;
  nat_ <- lift (selectNatives el) ;;
  if Js.truthy nat_ then
    match Js.get nat_ "url", Js.get nat_ "path" with
    | Ok u, Ok p =>
        match Js.as_string p with
        | Ok ps =>
            start u (Path.join root [natives]) (Path.basename ps)
              (Some (Path.basename ps)) ;;
            ret false
        | Throw _ => ret true
        end
    | _, _ => ret true
    end
  else ret false.

Definition downloadNatives : M settled :=
  promise_sync (
    t <- get_this ;;
    let root := this_root t in
    ex <- existsSync (Path.join root [natives]) ;;
    (if negb ex then mkdirSync (Path.join root [natives]) else ret tt) ;;
    libs <- lift (Js.get (this_file t) "libraries") ;;
    l <- lift (Js.as_array libs) ;;
    rejected <- forEachAsync (downloadNative root) l ;;
    ret (if rejected then Rejected (JsError nativesError)
         else Resolved ("NATIVES DESCARGADOS - "
                        +++ Path.render (Path.join root [natives])))).

(** The [async] callback of [downloadLibraries], up to its [await]. *)
Definition downloadLibrary (root : path) (element : value) : M bool :=
  d <- lift (Js.get element "downloads") ;;
  a <- lift (Js.get d "artifact") ;;
  match a with
  | VUndefined => ret false
  | _ =>
      jf <- lift (Js.get a "path") ;;
      jarFile <- lift (Js.as_string jf) ;;
      let parts := removelast (Str.split "/"%char jarFile) in
      let libRoot := Str.join "/" parts in
      let libName := Path.basename jarFile in
      ex <- existsSync (Path.join root [libraries; libRoot]) ;;
      (if negb ex
       then mkdirSync_recursive (Path.join root [libraries; libRoot])
       else ret tt) ;;
      match Js.get a "url" with
      | Ok u =>
          start u (Path.join root [libraries; libRoot]) libName None ;;
          ret false
      | Throw _ => ret true
      end
  end.

Definition downloadLibraries : M settled :=
  promise_sync (
    t <- get_this ;;
    let root := this_root t in
    ex <- existsSync (Path.join root [libraries]) ;;
    (if negb ex then mkdirSync (Path.join root [libraries]) else ret tt) ;;
    libs <- lift (Js.get (this_file t) "libraries") ;;
    l <- lift (Js.as_array libs) ;;
    rejected <- forEachAsync (downloadLibrary root) l ;;
    ret (if rejected then Rejected (JsError librariesError)
         else Resolved ("LIBRERÍAS DESCARGADAS - "
                        +++ Path.render (Path.join root [libraries])))).

(** [download(version, root)].  The executor goes on after [reject] when
    no version is given; whatever happens next, the promise stays
    rejected. *)
Definition download (version : string) (root : path) : M settled :=
  set_version_root version root ;;
  s <- promise_async (
         await downloadVersion ;;
         await downloadClient ;;
         await downloadAssets ;;
         await downloadLibraries ;;
         await downloadNatives ;;
         ret (Resolved downloaded)) ;;
  if String.eqb version ""
  then ret (Rejected (JsError "No se ha proporcionado una versión"))
  else ret s.

End Downloader.

(* ===================================================================== *)
(** ** class Launcher *)
(* ===================================================================== *)

Record options : Type := {
  memory_min : string;
  memory_max : string;
  gameDirectory : path;
  version : string;
  username : string
}.

Module Launcher.

Definition createProfile (root : path) : M unit :=
  ex <- existsSync (Path.join root ["launcher_profiles.json"]) ;;
  if negb ex then
    writeFileSync (Path.resolve (Path.join root ["launcher_profiles.json"]))
      (Json (VObj [("profiles", VObj [])]))
  else ret tt.

Definition legacy : list string := ["1.14"; "1.14.1"; "1.14.2"; "1.14.3"].

(** The [else] branch of the callback of [encontrarArchivosJAR]: what a
    plain file [archivo] at [rutaCompleta] adds to the string. *)
Definition visitFile (rutaCompleta : path) (archivo : string)
  (files : list string) (ver : string) : string :=
  if Str.mem ver legacy then
    if String.eqb (Path.extname archivo) ".jar" && Str.mem archivo files
    then Path.render rutaCompleta +++ ";"
    else ""
  else
    if String.eqb (Path.extname archivo) ".jar" && Str.mem archivo files
       && negb (Str.includes archivo "3.2.1")
    then Path.render rutaCompleta +++ ";"
    else "".

(** The callback of [encontrarArchivosJAR] on the entry [archivo] of a
    directory, [n] being what [rutaCompleta] names on the disk; on a
    directory it is the recursive call, which reads that directory and
    visits its entries in turn. *)
Fixpoint visit (rutaCompleta : path) (archivo : string) (n : node)
  (files : list string) (ver : string) : string :=
  match n with
  | Dir archivos =>
      (fix each (l : list (string * node)) : string :=
         match l with
         | [] => ""
         | (a, c) :: t =>
             visit (Path.join rutaCompleta [a]) a c files ver +++ each t
         end) archivos
  | File _ => visitFile rutaCompleta archivo files ver
  end.

(** [archivos.forEach(...)] over the entries of [directorio]. *)
Fixpoint scan (directorio : path) (archivos : list (string * node))
  (files : list string) (ver : string) : string :=
  match archivos with
  | [] => ""
  | (archivo, n) :: t =>
      visit (Path.join directorio [archivo]) archivo n files ver
      +++ scan directorio t files ver
  end.

Definition encontrarArchivosJAR (directorio : path) (files : list string)
  (ver : string) : M string :=
  archivos <- readdirSync directorio ;;
  ret (scan directorio archivos files ver).

(** [x => x.name === us] *)
Definition named (us : string) (x : value) : result bool :=
  match Js.get x "name" with
  | Throw e => Throw e
  | Ok n => Ok (Js.is_str us n)
  end.

Definition auth (root : path) (us : string) : M value :=
  try_catch
    (c <- readFileSync (Path.join root ["usercache.json"]) ;;
     fil <- lift (JSON_parse c) ;;
     l <- lift (Js.as_array fil) ;;
     x <- lift (Js.find (named us) l) ;;
     lift (Js.get x "uuid"))
    (fun _ => uuidv4).

(** Lines 93-96: the basenames of the base version's artifacts. *)
Fixpoint baseLibs (libraries : list value) : result (list string) :=
  match libraries with
  | [] => Ok []
  | element :: t =>
      match Js.get element "downloads" with
      | Throw e => Throw e
      | Ok d =>
          match Js.get d "artifact" with
          | Throw e => Throw e
          | Ok VUndefined => baseLibs t
          | Ok a =>
              match Js.get a "path" with
              | Throw e => Throw e
              | Ok p =>
                  match Js.as_string p with
                  | Throw e => Throw e
                  | Ok s =>
                      match baseLibs t with
                      | Throw e => Throw e
                      | Ok r => Ok (Path.basename s :: r)
                      end
                  end
              end
          end
      end
  end.

(** [name.split(':').slice(-2).join("-").concat('.jar')] *)
Definition customLibName (name : string) : string :=
  Str.join "-" (Str.slice_last 2 (Str.split ":"%char name)) +++ ".jar".

(** Lines 101-103: the names pushed for the overlay's libraries. *)
Fixpoint customLibs (libraries : list value) : result (list string) :=
  match libraries with
  | [] => Ok []
  | element :: t =>
      match Js.get element "name" with
      | Throw e => Throw e
      | Ok n =>
          match Js.as_string n with
          | Throw e => Throw e
          | Ok name =>
              match customLibs t with
              | Throw e => Throw e
              | Ok r => Ok (customLibName name :: r)
              end
          end
      end
  end.

(** Line 98. *)
Definition baseGameArgs (file : value) : result value :=
  match Js.get file "minecraftArguments" with
  | Throw e => Throw e
  | Ok ma =>
      if Js.truthy ma then
        match Js.as_string ma with
        | Throw e => Throw e
        | Ok s => Ok (VArr (map VStr (Str.split " "%char s)))
        end
      else
        match Js.get file "arguments" with
        | Throw e => Throw e
        | Ok a => Js.get a "game"
        end
  end.

(** Lines 105-109. *)
Definition customGameArgs (customFile gameArgs : value) : result value :=
  match Js.get customFile "arguments" with
  | Throw e => Throw e
  | Ok a =>
      if negb (Js.truthy a) then
        match Js.get customFile "minecraftArguments" with
        | Throw e => Throw e
        | Ok ma =>
            match Js.as_string ma with
            | Throw e => Throw e
            | Ok s => Ok (VArr (map VStr (Str.split " "%char s)))
            end
        end
      else
        match Js.get a "game" with
        | Throw e => Throw e
        | Ok g =>
            match Js.as_array gameArgs with
            | Throw e => Throw e
            | Ok l => Ok (VArr (l ++ [g]))
            end
        end
  end.

(** What the launch has gathered when it reaches line 112. *)
Record plan : Type := {
  reqLibs : list string;
  mainClass : value;
  gameArgs : value
}.

(** Lines 93-98, on the base version's document. *)
Definition basePlan (file : value) : result plan :=
  match Js.get file "libraries" with
  | Throw e => Throw e
  | Ok ls =>
      match Js.as_array ls with
      | Throw e => Throw e
      | Ok l =>
          match baseLibs l with
          | Throw e => Throw e
          | Ok libs =>
              match Js.get file "mainClass" with
              | Throw e => Throw e
              | Ok mc =>
                  match baseGameArgs file with
                  | Throw e => Throw e
                  | Ok ga =>
                      Ok {| reqLibs := libs;
                            mainClass := mc;
                            gameArgs := ga |}
                  end
              end
          end
      end
  end.

(** Lines 101-109, on the overlay's document. *)
Definition customPlan (customFile : value) (base : plan) : result plan :=
  match Js.get customFile "libraries" with
  | Throw e => Throw e
  | Ok ls =>
      match Js.as_array ls with
      | Throw e => Throw e
      | Ok l =>
          match customLibs l with
          | Throw e => Throw e
          | Ok libs =>
              match Js.get customFile "mainClass" with
              | Throw e => Throw e
              | Ok mc =>
                  match customGameArgs customFile (gameArgs base) with
                  | Throw e => Throw e
                  | Ok ga =>
                      Ok {| reqLibs := reqLibs base ++ libs;
                            mainClass := mc;
                            gameArgs := ga |}
                  end
              end
          end
      end
  end.

(** Line 87. *)
Definition customOf (optionsVersion version : string) : option string :=
  if String.eqb optionsVersion version then None else Some optionsVersion.

(** Line 113: the jar added after the libraries. *)
Definition gameJar (rootPath : path) (version : string)
  (custom : option string) : path :=
  match custom with
  | None =>
      Path.resolve
        (Path.join rootPath
           [Downloader.versions; version; version +++ ".jar"])
  | Some c =>
      if Str.includes c "fabric" then
        Path.resolve
          (Path.join rootPath
             [Downloader.versions; version; version +++ ".jar"])
      else
        Path.resolve
          (Path.join rootPath [Downloader.versions; c; c +++ ".jar"])
  end.

(** Lines 114-131. *)
Definition fields (uuid : value) (username version : string)
  (rootPath : path) : list (string * value) :=
  [ ("${auth_access_token}", uuid);
    ("${auth_session}", uuid);
    ("${auth_player_name}", VStr username);
    ("${auth_uuid}", uuid);
    ("${auth_xuid}", uuid);
    ("${user_properties}", VStr "{}");
    ("${user_type}", VStr "mojang");
    ("${version_name}", VStr version);
    ("${assets_index_name}", VStr version);
    ("${game_directory}", VStr (Path.render (Path.resolve rootPath)));
    ("${assets_root}",
      VStr (Path.render
              (Path.resolve (Path.join rootPath [Downloader.assets]))));
    ("${game_assets}",
      VStr (Path.render
              (Path.resolve (Path.join rootPath [Downloader.assets]))));
    ("${version_type}", VStr "release");
    ("${clientid}", uuid);
    ("${resolution_width}", VNum 856);
    ("${resolution_height}", VNum 482) ].

(** [Object.keys(fields).includes(v)] *)
Definition isKey (fields : list (string * value)) (v : value) : bool :=
  match v with
  | VStr s => Str.mem s (map fst fields)
  | _ => false
  end.

(** [fields[v]] for a [v] that is one of the keys. *)
Definition field (fields : list (string * value)) (v : value) : value :=
  match v with
  | VStr s =>
      match Js.assoc s fields with
      | Some x => x
      | None => VUndefined
      end
  | _ => VUndefined
  end.

(** [args[i] = x] for an index within the array. *)
Fixpoint assign {A} (i : nat) (x : A) (l : list A) : list A :=
  match l, i with
  | [], _ => []
  | _ :: t, 0 => x :: t
  | y :: t, S i' => y :: assign i' x t
  end.

(** Lines 146-150: the loop from index [i], [n] rounds left. *)
Fixpoint substituteFrom (fields : list (string * value)) (n i : nat)
  (args : list value) : list value :=
  match n with
  | 0 => args
  | S n' =>
      substituteFrom fields n' (S i)
        (match nth_error args i with
         | Some a => if isKey fields a then assign i (field fields a) args
                     else args
         | None => args
         end)
  end.

Definition substitute (fields : list (string * value)) (args : list value)
  : list value :=
  substituteFrom fields (length args) 0 args.

(** The fourth element of [args], line 137. *)
Definition heapDumpFlag : string :=
  "-XX:HeapDumpPath="
  +++ "MojangTricksIntelDriversForPerformance_javaw.exe_minecraft.exe.heapdump".

(** The first element of [args], line 134. *)
Definition libraryPathFlag (rootPath : path) (version : string) : string :=
  "-Djava.library.path=" +++
  (if negb (String.eqb
              (Path.render
                 (Path.resolve
                    (Path.join rootPath [Downloader.natives; version]))) "")
   then Path.render
          (Path.resolve (Path.join rootPath [Downloader.natives; version]))
   else Path.render (Path.resolve (Path.join rootPath []))).

(** Lines 133-144: the template, before the placeholders are filled. *)
Definition template (o : options) (version libs : string) (p : plan)
  : result (list value) :=
  match Js.as_array (gameArgs p) with
  | Throw e => Throw e
  | Ok ga =>
      Ok (Js.concat_all
            [ VStr (libraryPathFlag (gameDirectory o) version);
              VStr ("-Xmx" +++ memory_max o);
              VStr ("-Xms" +++ memory_min o);
              VStr heapDumpFlag;
              VStr "-cp";
              VStr libs;
              mainClass p;
              VArr (Js.flat ga) ])
  end.

(** Lines 99-111. *)
Definition mergeCustom (rootPath : path) (custom : option string)
  (base : plan) : M plan :=
  match custom with
  | None => ret base
  | Some c =>
      raw <- readFileSync
               (Path.join rootPath [Downloader.versions; c; c +++ ".json"]) ;;
      customFile <- lift (JSON_parse raw) ;;
      p <- lift (customPlan customFile base) ;;
      ex <- existsSync (Path.resolve (Path.join rootPath ["options.txt"])) ;;
      (if ex
       then unlinkSync (Path.resolve (Path.join rootPath ["options.txt"]))
       else ret tt) ;;
      ret p
  end.

(** [launch(options)], up to the call of [spawn]; the listeners set on the
    child's output only print. *)
Definition launch (o : options) : M unit :=
  let rootPath := gameDirectory o in
  let optionsVersion := version o in
  version <- match Str.match_version optionsVersion with
             | Some v => ret v
             | None => throw TypeError
             end ;;
  let custom := customOf optionsVersion version in
  raw <- readFileSync
           (Path.join rootPath
              [Downloader.versions; version; version +++ ".json"]) ;;
  file <- lift (JSON_parse raw) ;;
  createProfile rootPath ;;
  uuid <- auth rootPath (username o) ;;
  base <- lift (basePlan file) ;;
  p <- mergeCustom rootPath custom base ;;
  found <- encontrarArchivosJAR
             (Path.resolve (Path.join rootPath [Downloader.libraries]))
             (reqLibs p) version ;;
  let libs := found +++ Path.render (gameJar rootPath version custom) in
  args <- lift (template o version libs p) ;;
  spawn "java"
    (substitute (fields uuid (username o) version rootPath) args)
    (Path.resolve rootPath).

End Launcher.

(* ===================================================================== *)
(** ** The vocabulary of the specification *)
(* ===================================================================== *)

Module Spec.

(** The plain files below an entry of a directory, in the order the
    search meets them: full path and name. *)
Fixpoint filesAt (rutaCompleta : path) (archivo : string) (n : node)
  : list (path * string) :=
  match n with
  | Dir archivos =>
      (fix each (l : list (string * node)) : list (path * string) :=
         match l with
         | [] => []
         | (a, c) :: t => filesAt (Path.join rutaCompleta [a]) a c ++ each t
         end) archivos
  | File _ => [(rutaCompleta, archivo)]
  end.

Fixpoint filesUnder (directorio : path) (archivos : list (string * node))
  : list (path * string) :=
  match archivos with
  | [] => []
  | (archivo, n) :: t =>
      filesAt (Path.join directorio [archivo]) archivo n
      ++ filesUnder directorio t
  end.

(** A file is let into the classpath when the search adds something for
    it. *)
Definition admitted (files : list string) (ver : string)
  (f : path * string) : bool :=
  negb (String.eqb (Launcher.visitFile (fst f) (snd f) files ver) "").

(** The classpath string of a list of files: each path followed by [;]. *)
Fixpoint classpath (l : list (path * string)) : string :=
  match l with
  | [] => ""
  | f :: t => (Path.render (fst f) +++ ";") +++ classpath t
  end.

(** The files of a directory tree the search lets in. *)
Definition selected (directorio : path) (archivos : list (string * node))
  (files : list string) (ver : string) : list (path * string) :=
  filter (admitted files ver) (filesUnder directorio archivos).

Definition baseJar (rootPath : path) (version : string) : path :=
  Path.join rootPath [Downloader.versions; version; version +++ ".jar"].

Definition overlayJar (rootPath : path) (custom : string) : path :=
  Path.join rootPath [Downloader.versions; custom; custom +++ ".jar"].

(** The game jar as the specification words it: the base client jar,
    unless the overlay id contains [fabric], in which case the overlay's
    jar. *)
Definition specGameJar (rootPath : path) (version : string)
  (custom : option string) : path :=
  match custom with
  | None => baseJar rootPath version
  | Some c =>
      if Str.includes c "fabric" then overlayJar rootPath c
      else baseJar rootPath version
  end.

(** The classifier as the specification words it: the platform and
    architecture one first, the platform-only one as the fallback. *)
Definition specSelectNatives (el : value) : result value :=
  match Js.get el "natives-windows-64" with
  | Throw e => Throw e
  | Ok w64 =>
      if Js.truthy w64 then Ok w64 else Js.get el "natives-windows"
  end.

(** Where the object of hash [fileHash] is stored. *)
Definition assetPath (root : path) (fileHash : string) : path :=
  Path.join root
    [Downloader.assets; "objects"; Str.substring0 2 fileHash; fileHash].

(** The transfer of the object of hash [fileHash]: asked of the resource
    host under the hash, piped to where the object is stored, and nothing
    after it. *)
Definition assetTask (root : path) (fileHash : string) : task :=
  {| task_url := Downloader.assetUrl fileHash;
     task_dest := assetPath root fileHash;
     task_unpack := None |}.

(** The transfer of a bundle of natives: asked of [u], piped into the
    natives directory under the basename of the bundle's path [p], and
    unpacked from there. *)
Definition nativeTask (root : path) (u p : string) : task :=
  {| task_url := u;
     task_dest := Path.join root [Downloader.natives; Path.basename p];
     task_unpack := Some (Path.basename p) |}.

(** The transfer of a library: asked of [u], piped into the libraries
    directory under the artifact's path [p], and nothing after it. *)
Definition libraryTask (root : path) (u p : string) : task :=
  {| task_url := u;
     task_dest :=
       Path.join
         (Path.join root
            [Downloader.libraries;
             Str.join "/" (removelast (Str.split "/"%char p))])
         [Path.basename p];
     task_unpack := None |}.

Definition is_hex (c : ascii) : bool :=
  let n := nat_of_ascii c in
  Str.is_digit c || ((97 <=? n) && (n <=? 102))%nat.

(** A hash: hexadecimal digits, at least one. *)
Definition hex (s : string) : bool :=
  negb (String.eqb s "") && forallb is_hex (list_ascii_of_string s).

(** The character [c] does not occur in [s]. *)
Definition lacks (c : ascii) (s : string) : bool :=
  forallb (fun x => negb (Ascii.eqb x c)) (list_ascii_of_string s).

(** A plain file name: no separator and no colon, which a name on this
    disk cannot hold, and not one of the names that normalisation
    treats. *)
Definition plain (s : string) : bool :=
  forallb (fun x => negb (Path.is_sep x)) (list_ascii_of_string s)
  && negb (String.eqb s "") && negb (String.eqb s ".")
  && negb (String.eqb s "..") && lacks ":"%char s.

(** In the entries [es] of the objects directory nothing stands in the
    way of the object of hash [h]: its shard is missing, or is a
    directory that holds no directory named [h]. *)
Definition shardFree (es : list (string * node)) (h : string) : Prop :=
  match Js.assoc (Str.substring0 2 h) es with
  | None => True
  | Some (Dir shard) => FS.not_dir (Js.assoc h shard)
  | Some (File _) => False
  end.

Definition profilesPath (rootPath : path) : path :=
  Path.join rootPath ["launcher_profiles.json"].

Definition optionsPath (rootPath : path) : path :=
  Path.join rootPath ["options.txt"].

(** An overlay is selected: the version string is not the base version
    found in it. *)
Definition overlaySelected (o : options) : Prop :=
  exists v, Str.match_version (version o) = Some v /\ version o <> v.

(** The plan a launch of [o] makes of the documents on the disk of [w],
    [v] being the base version: that of the base document when no overlay
    is selected, and what the overlay's document makes of it when one
    is. *)
Definition plans (o : options) (w : world) (v : string)
  (p : Launcher.plan) : Prop :=
  exists file base,
    FS.read (fs w)
      (Path.join (gameDirectory o) [Downloader.versions; v; v +++ ".json"])
    = Ok (Json file)
    /\ Launcher.basePlan file = Ok base
    /\ match Launcher.customOf (version o) v with
       | None => p = base
       | Some c =>
           exists customFile,
             FS.read (fs w)
               (Path.join (gameDirectory o)
                  [Downloader.versions; c; c +++ ".json"])
             = Ok (Json customFile)
             /\ Launcher.customPlan customFile base = Ok p
       end.

(** The one token of the template [a] stands for in the final vector. *)
Definition fill (fields : list (string * value)) (a : value) : value :=
  if Launcher.isKey fields a then Launcher.field fields a else a.

(** The events a run added to the log. *)
Definition added (w w' : world) (evs : list event) : Prop :=
  log w' = log w ++ evs.

(** From [w] to [w'] only events among [allowed] were added, and every
    path among [untouched] reads as before. *)
Definition frame (allowed : event -> Prop) (untouched : path -> Prop)
  (w w' : world) : Prop :=
  exists evs,
    added w w' evs /\ Forall allowed evs /\
    forall q, untouched q -> FS.read (fs w') q = FS.read (fs w) q.

(** What a launch started in [w] may do: create the profiles file when
    there is none, delete the options file when an overlay is selected,
    start java. *)
Definition launchMay (o : options) (w : world) (e : event) : Prop :=
  (e = EvWrite (profilesPath (gameDirectory o))
         (Json (VObj [("profiles", VObj [])]))
   /\ FS.exists_ (fs w) (profilesPath (gameDirectory o)) = false)
  \/ (e = EvUnlink (optionsPath (gameDirectory o)) /\ overlaySelected o)
  \/ (exists args, e = EvSpawn "java" args (gameDirectory o)).

(** The paths a launch leaves as they read. *)
Definition launchKeeps (o : options) (q : path) : Prop :=
  q <> profilesPath (gameDirectory o) /\ q <> optionsPath (gameDirectory o).

(** The user cache [l] gives [v] for the user [us]: [v] is the [uuid] of
    the first entry whose [name] is the string [us], and every element
    before that entry has a [name] to read, so is neither [null] nor
    [undefined], which is another one. *)
Definition cached (l : list value) (us : string) (v : value) : Prop :=
  exists pre x post,
    l = pre ++ x :: post
    /\ Forall (fun y => exists n, Js.get y "name" = Ok n /\ n <> VStr us) pre
    /\ Js.get x "name" = Ok (VStr us)
    /\ Js.get x "uuid" = Ok v.

(** The world after one draw of [uuidv4()]. *)
Definition drawn (w : world) : world :=
  {| fs := fs w; remote := remote w; accepts := accepts w; uuids := uuids w;
     tick := S (tick w); this := this w; tasks := tasks w; log := log w |}.

(** Whatever is on the disk [n] is on the disk [n']. *)
Definition covers (n n' : node) : Prop :=
  forall q, FS.exists_ n q = true -> FS.exists_ n' q = true.

(** From [w] to [w'] the run has only gone forward: the server and the
    URL parser are the same, the log and the transfers in flight have only
    grown, and nothing has left the disk. *)
Definition forward (w w' : world) : Prop :=
  remote w' = remote w /\ accepts w' = accepts w
  /\ (exists evs, added w w' evs)
  /\ (exists ts, tasks w' = tasks w ++ ts)
  /\ covers (fs w) (fs w').

(** The same, the fields of the instance being as they were. *)
Definition extends (w w' : world) : Prop :=
  forward w w' /\ this w' = this w.

(** A computation that only goes forward, however it ends, and one that
    leaves the instance alone as well. *)
Definition advances {A} (m : M A) : Prop :=
  forall w r w', m w = (r, w') -> forward w w'.

Definition grows {A} (m : M A) : Prop :=
  forall w r w', m w = (r, w') -> extends w w'.

(** The event [e] was added between [w] and [w']. *)
Definition since (w w' : world) (e : event) : Prop :=
  exists evs, added w w' evs /\ In e evs.

(** A computation that keeps within a frame, however it ends. *)
Definition respects {A} (allowed : event -> Prop)
  (untouched : path -> Prop) (m : M A) : Prop :=
  forall w r w', m w = (r, w') -> frame allowed untouched w w'.

(** A run of decimal digits, at least one. *)
Definition digits (s : string) : bool :=
  negb (String.eqb s "") && forallb Str.is_digit (list_ascii_of_string s).

(** The shape of a base version: [1.N] or [1.N.M]. *)
Definition release (v : string) : Prop :=
  exists n,
    digits n = true
    /\ (v = "1." +++ n
        \/ exists m, digits m = true /\ v = "1." +++ n +++ "." +++ m).

(** The start of a process. *)
Definition is_spawn (e : event) : bool :=
  match e with EvSpawn _ _ _ => true | _ => false end.

(** A computation that takes nothing off the log, however it ends. *)
Definition logs {A} (m : M A) : Prop :=
  forall w r w', m w = (r, w') -> exists evs, added w w' evs.

(** An event that starts no process. *)
Definition silent (e : event) : Prop := is_spawn e = false.

(** How a run from [w] to [w'] with outcome [r] stands to java: started
    once, in [cwd] and as the last thing done, when the run succeeds; not
    started when it throws. *)
Definition spawnsLast (cwd : path) (w : world) (r : result unit)
  (w' : world) : Prop :=
  exists evs,
    added w w' evs
    /\ match r with
       | Ok _ =>
           exists before args,
             evs = before ++ [EvSpawn "java" args cwd]
             /\ filter is_spawn before = []
       | Throw _ => filter is_spawn evs = []
       end.

End Spec.

(* ===================================================================== *)
(** ** A sample installation *)
(* ===================================================================== *)

Module Sample.

Definition root : path := ["C:"; "mc"].

(** The bundle [selectNatives] takes from [classifiers]. *)
Definition bundle : value :=
  VObj [("path", VStr "org/lwjgl/natives-windows.jar");
        ("url", VStr "https://l/natives")].

Definition bundle64 : value :=
  VObj [("path", VStr "org/lwjgl/natives-windows-64.jar");
        ("url", VStr "https://l/natives64")].

(** The classifiers of a library that offers both bundles. *)
Definition classifiers : value :=
  VObj [("natives-windows", bundle); ("natives-windows-64", bundle64)].

Definition artifact (p u : string) : value :=
  VObj [("artifact", VObj [("path", VStr p); ("url", VStr u)])].

(** Two libraries with an artifact and one that only offers natives. *)
Definition patchyLib : value :=
  VObj [("name", VStr "com.mojang:patchy:1.1");
        ("downloads",
          artifact "com/mojang/patchy/1.1/patchy-1.1.jar"
            "https://l/patchy")].

Definition lwjglLib : value :=
  VObj [("name", VStr "org.lwjgl:lwjgl:3.2.1");
        ("downloads",
          artifact "org/lwjgl/lwjgl/3.2.1/lwjgl-3.2.1.jar"
            "https://l/lwjgl")].

Definition platformLib : value :=
  VObj [("name", VStr "org.lwjgl:lwjgl-platform:2.9");
        ("downloads", VObj [("classifiers", classifiers)])].

Definition libraryList : list value := [patchyLib; lwjglLib; platformLib].

Definition libraries : value := VArr libraryList.

(** versions/1.19/1.19.json *)
Definition baseDoc : value :=
  VObj
    [("mainClass", VStr "A");
     ("minecraftArguments",
       VStr ("--username ${auth_player_name} --version ${version_name}"
             +++ " --flag ${unknown}"));
     ("downloads",
       VObj [("client", VObj [("url", VStr "https://m/client.jar")])]);
     ("assetIndex", VObj [("url", VStr "https://m/assets.json")]);
     ("libraries", libraries)].

(** versions/1.19-fabric-0.1/1.19-fabric-0.1.json *)
Definition overlayDoc : value :=
  VObj
    [("mainClass", VStr "B");
     ("arguments",
       VObj [("game", VArr [VStr "--fabric"; VStr "${auth_uuid}"])]);
     ("libraries",
       VArr [VObj [("name", VStr "net.fabricmc:fabric-loader:0.1")]])].

Definition usercache : value :=
  VArr [VObj [("name", VStr "Alex"); ("uuid", VStr "uuid-of-alex")]].

(** A user cache whose first element is [null]. *)
Definition holedCache : value :=
  VArr [VNull; VObj [("name", VStr "Alex"); ("uuid", VStr "uuid-of-alex")]].

Definition librariesDir : list (string * node) :=
  [("com", Dir [("patchy-1.1.jar", File (Text "jar"))]);
   ("org", Dir [("lwjgl", Dir [("lwjgl-3.2.1.jar", File (Text "jar"))])]);
   ("net", Dir [("fabric-loader-0.1.jar", File (Text "jar"));
                ("unused.jar", File (Text "jar"))])].

(** A game directory with the version [ver] and two overlays in place. *)
Definition disk (ver : string) (cache : value) : node :=
  Dir
    [("C:",
       Dir
         [("mc",
            Dir
              [("versions",
                 Dir
                   [(ver, Dir [(ver +++ ".json", File (Json baseDoc))]);
                    ("1.19-fabric-0.1",
                      Dir [("1.19-fabric-0.1.json",
                             File (Json overlayDoc))]);
                    ("1.19-forge",
                      Dir [("1.19-forge.json", File (Json overlayDoc))])]);
               ("libraries", Dir librariesDir);
               ("usercache.json", File (Json cache));
               ("options.txt", File (Text "fov:70"))])])].

Definition manifest : value :=
  VObj
    [("versions",
       VArr
         [VObj [("id", VStr "1.20"); ("type", VStr "snapshot");
                ("url", VStr "https://m/1.20.json")];
          VObj [("id", VStr "1.19"); ("type", VStr "release");
                ("url", VStr "https://m/1.19.json")]])].

(** One object of the asset index. *)
Definition icon : value :=
  VObj [("hash", VStr "abcd1234"); ("size", VNum 3)].

Definition assetIndex : value :=
  VObj
    [("objects",
       VObj
         [("icons/icon.png", icon);
          ("sounds/a.ogg",
            VObj [("hash", VStr "ab99"); ("size", VNum 5)])])].

Definition server (u : string) : option content :=
  if String.eqb u Downloader.url_meta then Some (Json manifest)
  else if String.eqb u "https://m/1.19.json" then Some (Json baseDoc)
  else if String.eqb u "https://m/client.jar" then Some (Text "client")
  else if String.eqb u "https://m/assets.json" then Some (Json assetIndex)
  else if String.eqb u "https://l/patchy" then Some (Text "patchy")
  else if String.eqb u "https://l/lwjgl" then Some (Text "lwjgl")
  else if String.eqb u "https://l/natives"
       then Some (Archive [("lwjgl.dll", "dll")])
  else if String.eqb u "https://l/natives64"
       then Some (Archive [("lwjgl64.dll", "dll")])
  else if String.eqb u
            "https://resources.download.minecraft.net/ab/abcd1234"
       then Some (Text "png")
  else if String.eqb u "https://resources.download.minecraft.net/ab/ab99"
       then Some (Text "ogg")
  else None.

Definition on (n : node) : world :=
  {| fs := n; remote := server; accepts := prefix "https://";
     uuids := fun _ => "fresh-uuid"; tick := 0;
     this := {| this_version := ""; this_root := [];
                this_file := VUndefined |};
     tasks := []; log := [] |}.

(** The game directory with version 1.19 and its overlays installed. *)
Definition installed : world := on (disk "1.19" usercache).

(** The same, with the holed user cache. *)
Definition holed : world := on (disk "1.19" holedCache).

(** An empty game directory. *)
Definition empty : world := on (Dir [("C:", Dir [("mc", Dir [])])]).

(** The game directory after a first run of the pipeline for 1.19, once
    its transfers have ended. *)
Definition downloaded : world :=
  Downloader.settle (snd (Downloader.download "1.19" root empty)).

(** The world a second run of the pipeline leaves. *)
Definition again : world :=
  snd (Downloader.download "1.19" root downloaded).

Definition launchOf (v u : string) : options :=
  {| memory_min := "1G"; memory_max := "2G"; gameDirectory := root;
     version := v; username := u |}.

Definition vanilla : options := launchOf "1.19" "Alex".
Definition fabric : options := launchOf "1.19-fabric-0.1" "Steve".
Definition forge : options := launchOf "1.19-forge" "Steve".

(** The world a launch leaves, started on the installed game directory. *)
Definition launched (o : options) : world :=
  snd (Launcher.launch o installed).

(** An empty game directory in which a [Downloader] has been given the
    version [v] to fetch. *)
Definition aimed (v : string) : world :=
  snd (Downloader.set_version_root v root empty).

(** The same once the version document of 1.19 is fetched, and once the
    client jar is. *)
Definition fetched : world :=
  snd (Downloader.downloadVersion (aimed "1.19")).

Definition clientFetched : world := snd (Downloader.downloadClient fetched).

(** A version document whose one library offers no natives, and a
    [Downloader] that holds it. *)
Definition portableDoc : value :=
  VObj
    [("libraries",
       VArr
         [VObj [("name", VStr "com.mojang:patchy:1.1");
                ("downloads",
                  artifact "com/mojang/patchy/1.1/patchy-1.1.jar"
                    "https://l/patchy")]])].

Definition portable : world :=
  snd (Downloader.set_file portableDoc (aimed "1.19")).

(** The plan read off the base document, the plan the overlay makes of
    it, and the template of the latter. *)
Definition planOf (r : result Launcher.plan) : Launcher.plan :=
  match r with
  | Ok p => p
  | Throw _ =>
      {| Launcher.reqLibs := []; Launcher.mainClass := VUndefined;
         Launcher.gameArgs := VUndefined |}
  end.

Definition basePlan : Launcher.plan := planOf (Launcher.basePlan baseDoc).

Definition overlayPlan : Launcher.plan :=
  planOf (Launcher.customPlan overlayDoc basePlan).

Definition overlayArgs : list value :=
  match Launcher.template fabric "1.19" "libs" overlayPlan with
  | Ok args => args
  | Throw _ => []
  end.

(** An overlay of the old kind, with [minecraftArguments] and no
    [arguments], and a game directory that has it. *)
Definition classicDoc : value :=
  VObj
    [("mainClass", VStr "C");
     ("minecraftArguments", VStr "--demo ${auth_player_name}");
     ("libraries", VArr [])].

Definition classicDisk : world :=
  on (Dir
        [("C:",
           Dir
             [("mc",
                Dir
                  [("versions",
                     Dir
                       [("1.19",
                          Dir [("1.19.json", File (Json baseDoc))]);
                        ("1.19-classic",
                          Dir [("1.19-classic.json",
                                 File (Json classicDoc))])]);
                   ("libraries", Dir librariesDir)])])]).

Definition classic : options := launchOf "1.19-classic" "Steve".

(** The Downloader aimed at 1.19 when the server does not answer for the
    document of the version. *)
Definition unserved : world :=
  {| fs := fs (aimed "1.19");
     remote := fun u => if String.eqb u "https://m/1.19.json"
                        then None else server u;
     accepts := accepts (aimed "1.19"); uuids := uuids (aimed "1.19");
     tick := tick (aimed "1.19"); this := this (aimed "1.19");
     tasks := tasks (aimed "1.19"); log := log (aimed "1.19") |}.


End Sample.

(* ===================================================================== *)
(** * Properties *)
(* ===================================================================== *)

(** ** Strings and lists *)

Lemma append_assoc (a b c : string) : (a +++ b) +++ c = a +++ (b +++ c).
Proof.
  induction a as [|x a IH]; simpl; [reflexivity|].
  now rewrite IH.
Qed.

Lemma append_empty_r (a : string) : a +++ "" = a.
Proof.
  induction a as [|x a IH]; simpl; [reflexivity|].
  now rewrite IH.
Qed.

Lemma append_nonempty_r (a b : string) : b <> "" -> a +++ b <> "".
Proof.
  intros Hb; destruct a; simpl; [assumption|discriminate].
Qed.

Lemma mem_In (x : string) (l : list string) : Str.mem x l = true <-> In x l.
Proof.
  unfold Str.mem. rewrite existsb_exists. split.
  - intros [y [Hy E]]. apply String.eqb_eq in E. now subst.
  - intros H. exists x. split; [assumption|apply String.eqb_refl].
Qed.

Lemma list_ascii_app (a b : string) :
  list_ascii_of_string (a +++ b)
  = list_ascii_of_string a ++ list_ascii_of_string b.
Proof.
  induction a as [|c a IH]; simpl; [reflexivity|]. now rewrite IH.
Qed.

Lemma string_of_list_app (a b : list ascii) :
  string_of_list_ascii (a ++ b)
  = string_of_list_ascii a +++ string_of_list_ascii b.
Proof.
  induction a as [|c a IH]; simpl; [reflexivity|]. now rewrite IH.
Qed.

Lemma concat_cons2 (sep x y : string) (l : list string) :
  String.concat sep (x :: y :: l) = x +++ sep +++ String.concat sep (y :: l).
Proof. reflexivity. Qed.

Lemma concat_snoc (sep : string) (init : list string) (last : string) :
  init <> [] ->
  String.concat sep (init ++ [last])
  = String.concat sep init +++ sep +++ last.
Proof.
  induction init as [|x init IH]; intros Hne; [contradiction|].
  destruct init as [|y init].
  - reflexivity.
  - cbn [app]. rewrite !concat_cons2.
    change (String.concat sep (y :: init ++ [last]))
      with (String.concat sep ((y :: init) ++ [last])).
    rewrite IH by discriminate. now rewrite !append_assoc.
Qed.

(** Induction on a directory tree, with the hypothesis for every entry. *)
Lemma node_induction (P : node -> Prop) :
  (forall c, P (File c)) ->
  (forall es, Forall (fun kv => P (snd kv)) es -> P (Dir es)) ->
  forall n, P n.
Proof.
  intros HF HD.
  fix IH 1.
  intros [c|es]; [apply HF|].
  apply HD.
  induction es as [|[k n] es IHes]; constructor; [apply IH|assumption].
Qed.

(** ** The search for jars *)

Lemma classpath_app (l1 l2 : list (path * string)) :
  Spec.classpath (l1 ++ l2) = Spec.classpath l1 +++ Spec.classpath l2.
Proof.
  induction l1 as [|f l1 IH]; simpl; [reflexivity|].
  now rewrite IH, !append_assoc.
Qed.

Lemma visitFile_cases (ruta : path) (archivo : string) (files : list string)
  (ver : string) :
  Launcher.visitFile ruta archivo files ver = "" \/
  Launcher.visitFile ruta archivo files ver = Path.render ruta +++ ";".
Proof.
  unfold Launcher.visitFile.
  destruct (Str.mem ver Launcher.legacy);
    match goal with |- context [if ?c then _ else _] => destruct c end;
    auto.
Qed.

Lemma visitFile_classpath ruta archivo files ver :
  Launcher.visitFile ruta archivo files ver =
  Spec.classpath (filter (Spec.admitted files ver) [(ruta, archivo)]).
Proof.
  simpl. unfold Spec.admitted. simpl.
  destruct (visitFile_cases ruta archivo files ver) as [E|E]; rewrite E.
  - reflexivity.
  - destruct (String.eqb_spec (Path.render ruta +++ ";") "") as [H|H].
    + exfalso. revert H. apply append_nonempty_r. discriminate.
    + simpl. now rewrite append_empty_r.
Qed.

Lemma visit_classpath n : forall ruta archivo files ver,
  Launcher.visit ruta archivo n files ver =
  Spec.classpath
    (filter (Spec.admitted files ver) (Spec.filesAt ruta archivo n)).
Proof.
  induction n as [c|es IH] using node_induction; intros ruta archivo files ver.
  - apply visitFile_classpath.
  - simpl. induction IH as [|[a c] es Hc _ IHes]; [reflexivity|].
    simpl in Hc. rewrite Hc, IHes, filter_app, classpath_app. reflexivity.
Qed.

Lemma scan_classpath directorio archivos files ver :
  Launcher.scan directorio archivos files ver =
  Spec.classpath (Spec.selected directorio archivos files ver).
Proof.
  unfold Spec.selected.
  induction archivos as [|[archivo n] t IH]; [reflexivity|].
  simpl. now rewrite visit_classpath, IH, filter_app, classpath_app.
Qed.

Lemma admitted_legacy files ver ruta archivo :
  In ver Launcher.legacy ->
  Path.extname archivo = ".jar" ->
  In archivo files ->
  Spec.admitted files ver (ruta, archivo) = true.
Proof.
  intros Hv He Hf. unfold Spec.admitted, Launcher.visitFile. cbn [fst snd].
  apply (proj2 (mem_In _ _)) in Hv. apply (proj2 (mem_In _ _)) in Hf.
  rewrite Hv, He, Hf. cbn [String.eqb Ascii.eqb Bool.eqb andb].
  destruct (String.eqb_spec (Path.render ruta +++ ";") "") as [H|H];
    [|reflexivity].
  exfalso. revert H. apply append_nonempty_r. discriminate.
Qed.

Lemma admitted_modern files ver ruta archivo :
  ~ In ver Launcher.legacy ->
  Str.includes archivo "3.2.1" = true ->
  Spec.admitted files ver (ruta, archivo) = false.
Proof.
  intros Hv Hi. unfold Spec.admitted, Launcher.visitFile. cbn [fst snd].
  destruct (Str.mem ver Launcher.legacy) eqn:E.
  - apply (proj1 (mem_In _ _)) in E. contradiction.
  - rewrite Hi. cbn [negb]. rewrite andb_false_r. reflexivity.
Qed.

(** C6.  In the recursive search below the libraries root, a file whose
    name contains [3.2.1] is let into the classpath string for each of the
    versions 1.14, 1.14.1, 1.14.2 and 1.14.3 when it is a required jar, and
    left out of it for every other version, whatever it is. *)
Theorem legacy_jar_quirk (w : world) (directorio : path)
  (archivos : list (string * node)) (files : list string) (ver : string)
  (ruta : path) (archivo : string) :
  FS.readdir (fs w) directorio = Ok archivos ->
  In (ruta, archivo) (Spec.filesUnder directorio archivos) ->
  Str.includes archivo "3.2.1" = true ->
  Launcher.encontrarArchivosJAR directorio files ver w
  = (Ok (Spec.classpath (Spec.selected directorio archivos files ver)), w)
  /\ (In ver ["1.14"; "1.14.1"; "1.14.2"; "1.14.3"] ->
      Path.extname archivo = ".jar" ->
      In archivo files ->
      In (ruta, archivo) (Spec.selected directorio archivos files ver))
  /\ (~ In ver ["1.14"; "1.14.1"; "1.14.2"; "1.14.3"] ->
      ~ In (ruta, archivo) (Spec.selected directorio archivos files ver)).
Proof.
  intros Hdir Hin Hinc. split; [|split].
  - unfold Launcher.encontrarArchivosJAR, bind, readdirSync, ret.
    rewrite Hdir. now rewrite scan_classpath.
  - intros Hv Hext Hreq. apply filter_In. split; [assumption|].
    now apply admitted_legacy.
  - intros Hv H. apply filter_In in H. destruct H as [_ H].
    rewrite admitted_modern in H by assumption. discriminate.
Qed.

(** ** The file system *)

Lemma assoc_set_same {A} (k : string) (x : A) (l : list (string * A)) :
  Js.assoc k (FS.set k x l) = Some x.
Proof.
  induction l as [|[k' v] l IH]; simpl.
  - now rewrite String.eqb_refl.
  - destruct (String.eqb_spec k k') as [E|E]; simpl.
    + now rewrite String.eqb_refl.
    + destruct (String.eqb_spec k k'); [contradiction|assumption].
Qed.

Lemma assoc_set_other {A} (k k' : string) (x : A) (l : list (string * A)) :
  k' <> k -> Js.assoc k' (FS.set k x l) = Js.assoc k' l.
Proof.
  intros Hk. induction l as [|[k0 v] l IH]; simpl.
  - destruct (String.eqb_spec k' k); [contradiction|reflexivity].
  - destruct (String.eqb_spec k k0) as [E|E]; simpl.
    + subst k0. destruct (String.eqb_spec k' k); [contradiction|reflexivity].
    + destruct (String.eqb_spec k' k0); [reflexivity|assumption].
Qed.

Lemma assoc_remove_same {A} (k : string) (l : list (string * A)) :
  Js.assoc k (FS.remove k l) = None.
Proof.
  induction l as [|[k' v] l IH]; simpl; [reflexivity|].
  destruct (String.eqb_spec k k') as [E|E]; simpl; [assumption|].
  destruct (String.eqb_spec k k'); [contradiction|assumption].
Qed.

Lemma assoc_remove_other {A} (k k' : string) (l : list (string * A)) :
  k' <> k -> Js.assoc k' (FS.remove k l) = Js.assoc k' l.
Proof.
  intros Hk. induction l as [|[k0 v] l IH]; simpl; [reflexivity|].
  destruct (String.eqb_spec k k0) as [E|E]; simpl.
  - subst k0. destruct (String.eqb_spec k' k); [contradiction|assumption].
  - destruct (String.eqb_spec k' k0); [reflexivity|assumption].
Qed.

Lemma read_cons (es : list (string * node)) (s : string) (q : path) :
  FS.read (Dir es) (s :: q) =
  match Js.assoc s es with
  | Some c => FS.read c q
  | None => Throw ENOENT
  end.
Proof.
  unfold FS.read. simpl. destruct (Js.assoc s es); reflexivity.
Qed.

(** Below a name that holds no directory there is nothing to read. *)
Lemma read_below_not_dir (es : list (string * node)) (name s : string)
  (q : path) :
  FS.not_dir (Js.assoc name es) ->
  FS.read (Dir es) (name :: s :: q) = Throw ENOENT.
Proof.
  intros H. rewrite read_cons.
  destruct (Js.assoc name es) as [[c|es']|]; simpl in H;
    [reflexivity|contradiction|reflexivity].
Qed.

(** A rewriting of one directory that only touches the binding of [name],
    and never to or from a directory, leaves every other path as it
    reads. *)
Lemma alter_frame (f : list (string * node) -> result (list (string * node)))
  (name : string) :
  (forall es es', f es = Ok es' ->
     (forall k, k <> name -> Js.assoc k es' = Js.assoc k es)
     /\ FS.not_dir (Js.assoc name es) /\ FS.not_dir (Js.assoc name es')) ->
  forall (p : path) (n n' : node) (q : path),
    FS.alter n p f = Ok n' ->
    q <> p ++ [name] ->
    FS.read n' q = FS.read n q.
Proof.
  intros Hf p. induction p as [|s0 p IH]; intros n n' q Ha Hq.
  - destruct n as [c|es]; simpl in Ha; [discriminate|].
    destruct (f es) as [es'|e] eqn:E; [|discriminate].
    injection Ha as <-. destruct (Hf _ _ E) as (Hk & Hb & Ha').
    destruct q as [|s q]; [reflexivity|].
    destruct (String.eqb_spec s name) as [->|Hs].
    + destruct q as [|s' q]; [contradiction|].
      now rewrite !read_below_not_dir.
    + rewrite !read_cons. now rewrite Hk.
  - destruct n as [c|es]; simpl in Ha; [discriminate|].
    destruct (Js.assoc s0 es) as [c|] eqn:E; [|discriminate].
    destruct (FS.alter c p f) as [c'|e] eqn:Ec; [|discriminate].
    injection Ha as <-.
    destruct q as [|s q]; [reflexivity|].
    rewrite !read_cons.
    destruct (String.eqb_spec s s0) as [->|Hs].
    + rewrite assoc_set_same, E. apply (IH _ _ _ Ec).
      intros ->. apply Hq. reflexivity.
    + now rewrite assoc_set_other.
Qed.

Lemma path_unsnoc (p : path) (name : string) (rparent : list string) :
  rev p = name :: rparent -> p = rev rparent ++ [name].
Proof.
  intros H. rewrite <- (rev_involutive p), H. reflexivity.
Qed.

Lemma write_frame (n n' : node) (p q : path) (c : content) :
  FS.write n p c = Ok n' -> q <> p -> FS.read n' q = FS.read n q.
Proof.
  unfold FS.write. destruct (rev p) as [|name rparent] eqn:E; [discriminate|].
  apply path_unsnoc in E. subst p. apply alter_frame.
  intros es es' H.
  destruct (Js.assoc name es) as [[c0|es0]|] eqn:Ea; try discriminate;
    injection H as <-; (split; [|split]); simpl; try exact I;
    try (intros k Hk; now apply assoc_set_other);
    now rewrite assoc_set_same.
Qed.

Lemma unlink_frame (n n' : node) (p q : path) :
  FS.unlink n p = Ok n' -> q <> p -> FS.read n' q = FS.read n q.
Proof.
  unfold FS.unlink. destruct (rev p) as [|name rparent] eqn:E; [discriminate|].
  apply path_unsnoc in E. subst p. apply alter_frame.
  intros es es' H.
  destruct (Js.assoc name es) as [[c0|es0]|] eqn:Ea; try discriminate.
  injection H as <-. split; [|split]; simpl; try exact I.
  - intros k Hk. now apply assoc_remove_other.
  - now rewrite assoc_remove_same.
Qed.

(** What one directory rewriting bound [name] to is found at the path. *)
Lemma alter_lookup (f : list (string * node) -> result (list (string * node)))
  (name : string) (p : path) : forall (n n' : node),
  FS.alter n p f = Ok n' ->
  exists es es', f es = Ok es' /\
    FS.lookup n' (p ++ [name]) = Js.assoc name es'.
Proof.
  induction p as [|s0 p IH]; intros n n' Ha.
  - destruct n as [c|es]; simpl in Ha; [discriminate|].
    destruct (f es) as [es'|e] eqn:E; [|discriminate].
    injection Ha as <-. exists es, es'. split; [assumption|].
    simpl. destruct (Js.assoc name es'); reflexivity.
  - destruct n as [c|es]; simpl in Ha; [discriminate|].
    destruct (Js.assoc s0 es) as [c|] eqn:E; [|discriminate].
    destruct (FS.alter c p f) as [c'|e] eqn:Ec; [|discriminate].
    injection Ha as <-.
    destruct (IH _ _ Ec) as (es0 & es' & Hf & Hl).
    exists es0, es'. split; [assumption|].
    simpl. now rewrite assoc_set_same.
Qed.

Lemma write_read (n n' : node) (p : path) (c : content) :
  FS.write n p c = Ok n' -> FS.read n' p = Ok c.
Proof.
  unfold FS.write. destruct (rev p) as [|name rparent] eqn:E; [discriminate|].
  apply path_unsnoc in E. subst p. intros H.
  destruct (alter_lookup _ name _ _ _ H) as (es & es' & Hf & Hl).
  unfold FS.read. rewrite Hl.
  destruct (Js.assoc name es) as [[c0|es0]|]; try discriminate;
    injection Hf as <-; now rewrite assoc_set_same.
Qed.

Lemma unlink_gone (n n' : node) (p : path) :
  FS.unlink n p = Ok n' -> FS.exists_ n' p = false.
Proof.
  unfold FS.unlink. destruct (rev p) as [|name rparent] eqn:E; [discriminate|].
  apply path_unsnoc in E. subst p. intros H.
  destruct (alter_lookup _ name _ _ _ H) as (es & es' & Hf & Hl).
  unfold FS.exists_. rewrite Hl.
  destruct (Js.assoc name es) as [[c0|es0]|]; try discriminate.
  injection Hf as <-. now rewrite assoc_remove_same.
Qed.

(** ** Paths of plain names *)

Lemma join_join (p : path) (a b : list string) :
  Path.join (Path.join p a) b = Path.join p (a ++ b).
Proof.
  unfold Path.join. now rewrite flat_map_app, fold_left_app.
Qed.

Lemma segments_aux_plain (l : list ascii) : forall cur,
  forallb (fun x => negb (Path.is_sep x)) l = true ->
  Path.segments_aux cur l = [cur +++ string_of_list_ascii l].
Proof.
  induction l as [|c l IH]; intros cur H; simpl.
  - now rewrite append_empty_r.
  - simpl in H. apply andb_prop in H. destruct H as [Hc Hl].
    apply negb_true_iff in Hc. rewrite Hc, IH by assumption.
    now rewrite append_assoc.
Qed.

Lemma join_plain (p : path) (s : string) :
  Spec.plain s = true -> Path.join p [s] = p ++ [s].
Proof.
  unfold Spec.plain. intros H.
  apply andb_prop in H. destruct H as [H _].
  apply andb_prop in H. destruct H as [H Hdd].
  apply andb_prop in H. destruct H as [H Hd].
  apply andb_prop in H. destruct H as [Hs He].
  unfold Path.join. simpl. rewrite app_nil_r. unfold Path.segments.
  rewrite segments_aux_plain by assumption.
  simpl. rewrite string_of_list_ascii_of_string.
  unfold Path.step.
  apply negb_true_iff in He, Hd, Hdd. now rewrite He, Hd, Hdd.
Qed.

Lemma is_hex_not_sep (c : ascii) :
  Spec.is_hex c = true -> Path.is_sep c = false.
Proof.
  intros H. unfold Path.is_sep.
  destruct (Ascii.eqb_spec c "/") as [->|_]; [discriminate|].
  destruct (Ascii.eqb_spec c "\") as [->|_]; [discriminate|].
  reflexivity.
Qed.

Lemma is_hex_not_dot (c : ascii) :
  Spec.is_hex c = true -> Ascii.eqb c "." = false.
Proof.
  intros H. destruct (Ascii.eqb_spec c ".") as [->|_];
    [discriminate|reflexivity].
Qed.

Lemma is_hex_not_colon (c : ascii) :
  Spec.is_hex c = true -> Ascii.eqb c ":" = false.
Proof.
  intros H. destruct (Ascii.eqb_spec c ":") as [->|_];
    [discriminate|reflexivity].
Qed.

Lemma hex_plain (h : string) : Spec.hex h = true -> Spec.plain h = true.
Proof.
  unfold Spec.hex, Spec.plain, Spec.lacks. intros H.
  apply andb_prop in H. destruct H as [He Hh]. rewrite He.
  assert (Hsep : forallb (fun x => negb (Path.is_sep x))
                   (list_ascii_of_string h) = true).
  { apply forallb_forall. intros c Hc.
    rewrite forallb_forall in Hh. now rewrite is_hex_not_sep by auto. }
  assert (Hcol : forallb (fun x => negb (Ascii.eqb x ":"))
                   (list_ascii_of_string h) = true).
  { apply forallb_forall. intros c Hc.
    rewrite forallb_forall in Hh. now rewrite is_hex_not_colon by auto. }
  rewrite Hsep, Hcol. simpl.
  destruct h as [|c h]; [discriminate|].
  simpl in Hh. apply andb_prop in Hh. destruct Hh as [Hc _].
  simpl. now rewrite (is_hex_not_dot c Hc).
Qed.

Lemma hex_shard (h : string) :
  Spec.hex h = true -> Spec.hex (Str.substring0 2 h) = true.
Proof.
  unfold Spec.hex, Str.substring0. intros H.
  apply andb_prop in H. destruct H as [He Hh].
  destruct h as [|c [|c' h]]; [discriminate|exact Hh|].
  simpl in Hh.
  apply andb_prop in Hh. destruct Hh as [Hc Hh].
  apply andb_prop in Hh. destruct Hh as [Hc' _].
  assert (E : substring 0 2 (String c (String c' h))
              = String c (String c' "")) by (destruct h; reflexivity).
  rewrite E. simpl. now rewrite Hc, Hc'.
Qed.


(** ** The monad *)

Lemma bind_inv {A B} (m : M A) (k : A -> M B) (w : world) (r : result B)
  (w' : world) :
  bind m k w = (r, w') ->
  (exists a w1, m w = (Ok a, w1) /\ k a w1 = (r, w'))
  \/ (exists e, m w = (Throw e, w') /\ r = Throw e).
Proof.
  unfold bind. destruct (m w) as [[a|e] w1]; intros H.
  - left. now exists a, w1.
  - right. injection H as <- <-. now exists e.
Qed.

Lemma bind_ok_inv {A B} (m : M A) (k : A -> M B) (w : world) (b : B)
  (w' : world) :
  bind m k w = (Ok b, w') ->
  exists a w1, m w = (Ok a, w1) /\ k a w1 = (Ok b, w').
Proof.
  intros H. apply bind_inv in H. destruct H as [H|[e [_ H]]];
    [assumption|discriminate].
Qed.

Lemma bind_ok {A B} (m : M A) (k : A -> M B) (w w1 : world) (a : A) :
  m w = (Ok a, w1) -> bind m k w = k a w1.
Proof. unfold bind. now intros ->. Qed.

Lemma guarded_mkdir_runs (p : path) (w : world) :
  FS.exists_ (fs w) p = true \/ (exists n, FS.mkdir (fs w) p = Ok n) ->
  exists w1,
    (if negb (FS.exists_ (fs w) p) then mkdirSync p else ret tt) w
    = (Ok tt, w1).
Proof.
  intros [H|[n H]].
  - rewrite H. now exists w.
  - destruct (FS.exists_ (fs w) p); [now exists w|].
    cbn [negb]. unfold mkdirSync, mutate. rewrite H. eauto.
Qed.

Lemma lift_inv {A} (r : result A) (w : world) (r' : result A) (w' : world) :
  lift r w = (r', w') -> r' = r /\ w' = w.
Proof. unfold lift. intros H. injection H as <- <-. now split. Qed.

Section Frames.

Variable allowed : event -> Prop.
Variable untouched : path -> Prop.

Lemma frame_refl (w : world) : Spec.frame allowed untouched w w.
Proof.
  exists []. unfold Spec.added. rewrite app_nil_r. repeat split.
  constructor.
Qed.

Lemma frame_trans (w1 w2 w3 : world) :
  Spec.frame allowed untouched w1 w2 ->
  Spec.frame allowed untouched w2 w3 ->
  Spec.frame allowed untouched w1 w3.
Proof.
  intros (e1 & L1 & F1 & R1) (e2 & L2 & F2 & R2).
  exists (e1 ++ e2). unfold Spec.added in *. repeat split.
  - now rewrite L2, L1, app_assoc.
  - apply Forall_app. now split.
  - intros q Hq. now rewrite R2, R1.
Qed.

Lemma respects_ret {A} (a : A) : Spec.respects allowed untouched (ret a).
Proof. intros w r w' H. injection H as _ <-. apply frame_refl. Qed.

Lemma respects_throw {A} (e : error) :
  Spec.respects allowed untouched (@throw A e).
Proof. intros w r w' H. injection H as _ <-. apply frame_refl. Qed.

Lemma respects_lift {A} (x : result A) :
  Spec.respects allowed untouched (lift x).
Proof. intros w r w' H. injection H as _ <-. apply frame_refl. Qed.

Lemma respects_bind {A B} (m : M A) (k : A -> M B) :
  Spec.respects allowed untouched m ->
  (forall a, Spec.respects allowed untouched (k a)) ->
  Spec.respects allowed untouched (bind m k).
Proof.
  intros Hm Hk w r w' H. apply bind_inv in H.
  destruct H as [(a & w1 & H1 & H2)|(e & H1 & _)].
  - eapply frame_trans; [eapply Hm|eapply Hk]; eassumption.
  - eapply Hm; eassumption.
Qed.

Lemma respects_try_catch {A} (m : M A) (h : error -> M A) :
  Spec.respects allowed untouched m ->
  (forall e, Spec.respects allowed untouched (h e)) ->
  Spec.respects allowed untouched (try_catch m h).
Proof.
  intros Hm Hh w r w' H. unfold try_catch in H.
  destruct (m w) as [[a|e] w1] eqn:E.
  - injection H as <- <-. eapply Hm; eassumption.
  - eapply frame_trans; [eapply Hm|eapply Hh]; eassumption.
Qed.

Lemma respects_existsSync (p : path) :
  Spec.respects allowed untouched (existsSync p).
Proof. intros w r w' H. injection H as _ <-. apply frame_refl. Qed.

Lemma respects_readFileSync (p : path) :
  Spec.respects allowed untouched (readFileSync p).
Proof. intros w r w' H. injection H as _ <-. apply frame_refl. Qed.

Lemma respects_readdirSync (p : path) :
  Spec.respects allowed untouched (readdirSync p).
Proof. intros w r w' H. injection H as _ <-. apply frame_refl. Qed.

Lemma respects_uuidv4 : Spec.respects allowed untouched uuidv4.
Proof.
  intros w r w' H. injection H as _ <-.
  exists []. unfold Spec.added. simpl. rewrite app_nil_r. repeat split.
  constructor.
Qed.

Lemma respects_emit (e : event) :
  allowed e -> Spec.respects allowed untouched (emit e).
Proof.
  intros He w r w' H. injection H as _ <-.
  exists [e]. unfold Spec.added. simpl. repeat split.
  now constructor.
Qed.

Lemma respects_mutate (e : event) (f : node -> result node) :
  allowed e ->
  (forall n n' q, f n = Ok n' -> untouched q ->
                  FS.read n' q = FS.read n q) ->
  Spec.respects allowed untouched (mutate e f).
Proof.
  intros He Hf w r w' H. unfold mutate in H.
  destruct (f (fs w)) as [n|err] eqn:E; injection H as _ <-.
  - exists [e]. unfold Spec.added. simpl. repeat split.
    + now constructor.
    + intros q Hq. now apply Hf.
  - apply frame_refl.
Qed.

End Frames.

(** ** What a launch does to the disk *)

Ltac respects_steps :=
  repeat first
    [ apply respects_ret
    | apply respects_throw
    | apply respects_lift
    | apply respects_existsSync
    | apply respects_readFileSync
    | apply respects_readdirSync
    | apply respects_uuidv4
    | apply respects_bind; [|intro]
    | apply respects_try_catch; [|intro] ].

Lemma respects_auth allowed untouched (root : path) (us : string) :
  Spec.respects allowed untouched (Launcher.auth root us).
Proof. unfold Launcher.auth. respects_steps. Qed.

Lemma respects_encontrarArchivosJAR allowed untouched directorio files ver :
  Spec.respects allowed untouched
    (Launcher.encontrarArchivosJAR directorio files ver).
Proof. unfold Launcher.encontrarArchivosJAR. respects_steps. Qed.

Lemma respects_unlinkSync (allowed : event -> Prop)
  (untouched : path -> Prop) (p : path) :
  allowed (EvUnlink p) ->
  (forall q, untouched q -> q <> p) ->
  Spec.respects allowed untouched (unlinkSync p).
Proof.
  intros Ha Hu. apply respects_mutate; [assumption|].
  intros n n' q H Hq. eapply unlink_frame; [eassumption|now apply Hu].
Qed.

Lemma respects_writeFileSync (allowed : event -> Prop)
  (untouched : path -> Prop) (p : path) (c : content) :
  allowed (EvWrite p c) ->
  (forall q, untouched q -> q <> p) ->
  Spec.respects allowed untouched (writeFileSync p c).
Proof.
  intros Ha Hu. apply respects_mutate; [assumption|].
  intros n n' q H Hq. eapply write_frame; [eassumption|now apply Hu].
Qed.

Lemma customOf_selected (o : options) (v c : string) :
  Str.match_version (version o) = Some v ->
  Launcher.customOf (version o) v = Some c ->
  Spec.overlaySelected o /\ c = version o.
Proof.
  unfold Launcher.customOf. intros Hv H.
  destruct (String.eqb_spec (version o) v) as [E|E]; [discriminate|].
  injection H as <-. split; [|reflexivity]. now exists v.
Qed.

Lemma createProfile_frame (o : options) (w : world) (r : result unit)
  (w' : world) :
  Launcher.createProfile (gameDirectory o) w = (r, w') ->
  Spec.frame (Spec.launchMay o w) (Spec.launchKeeps o) w w'.
Proof.
  unfold Launcher.createProfile, bind, existsSync.
  destruct (FS.exists_ (fs w) (Path.join (gameDirectory o)
                                 ["launcher_profiles.json"])) eqn:E; simpl.
  - intros H. injection H as _ <-. apply frame_refl.
  - apply respects_writeFileSync.
    + left. split; [reflexivity|exact E].
    + intros q [Hq _]. exact Hq.
Qed.

Lemma mergeCustom_respects (o : options) (w0 : world) (v : string)
  (base : Launcher.plan) :
  Str.match_version (version o) = Some v ->
  Spec.respects (Spec.launchMay o w0) (Spec.launchKeeps o)
    (Launcher.mergeCustom (gameDirectory o)
       (Launcher.customOf (version o) v) base).
Proof.
  intros Hv. unfold Launcher.mergeCustom.
  destruct (Launcher.customOf (version o) v) as [c|] eqn:Ec;
    [|apply respects_ret].
  destruct (customOf_selected _ _ _ Hv Ec) as [Hsel ->].
  respects_steps.
  destruct a2; respects_steps.
  apply respects_unlinkSync.
  - right. left. split; [reflexivity|assumption].
  - intros q [_ Hq]. exact Hq.
Qed.

Lemma launch_frame (o : options) (w : world) (r : result unit) (w' : world) :
  Launcher.launch o w = (r, w') ->
  Spec.frame (Spec.launchMay o w) (Spec.launchKeeps o) w w'.
Proof.
  unfold Launcher.launch.
  destruct (Str.match_version (version o)) as [v|] eqn:Ev.
  2:{ intros H. injection H as _ <-. apply frame_refl. }
  unfold bind at 1. unfold ret at 1.
  unfold bind at 1. unfold readFileSync at 1.
  destruct (FS.read (fs w) _) as [raw|e].
  2:{ intros H. injection H as _ <-. apply frame_refl. }
  unfold bind at 1. unfold lift at 1.
  destruct (JSON_parse raw) as [file|e].
  2:{ intros H. injection H as _ <-. apply frame_refl. }
  intros H. apply bind_inv in H.
  destruct H as [(a & w1 & H1 & H2)|(e & H1 & _)].
  2:{ eapply createProfile_frame; eassumption. }
  eapply frame_trans; [eapply createProfile_frame; eassumption|].
  revert H2. generalize w1 r w'.
  match goal with
  | |- forall w1 r w', ?t w1 = (r, w') -> _ =>
      change (Spec.respects (Spec.launchMay o w) (Spec.launchKeeps o) t)
  end.
  apply respects_bind; [apply respects_auth|intro uuid].
  apply respects_bind; [apply respects_lift|intro base].
  apply respects_bind; [now apply mergeCustom_respects|intro p].
  apply respects_bind; [apply respects_encontrarArchivosJAR|intro found].
  apply respects_bind; [apply respects_lift|intro args].
  apply respects_emit. right. right. eexists. reflexivity.
Qed.

Lemma launchMay_not_get (o : options) (w : world) (evs : list event) :
  Forall (Spec.launchMay o w) evs -> transfers evs = [].
Proof.
  induction 1 as [|e evs He _ IH]; [reflexivity|].
  unfold transfers in *. simpl. rewrite IH.
  destruct He as [[-> _]|[[-> _]|[args ->]]]; reflexivity.
Qed.

(** C9, as the code has it.  Whatever its outcome, a launch adds to the log
    nothing but the creation of [launcher_profiles.json], and only where
    that file was missing, the deletion of [options.txt], and only when an
    overlay is selected, and the start of java; it sends no request; and
    every path other than those two reads afterwards as it did before. *)
Theorem launch_disk_effects (o : options) (w : world) (r : result unit)
  (w' : world) :
  Launcher.launch o w = (r, w') ->
  exists evs,
    Spec.added w w' evs
    /\ Forall (Spec.launchMay o w) evs
    /\ transfers evs = []
    /\ forall q,
         q <> Spec.profilesPath (gameDirectory o) ->
         q <> Spec.optionsPath (gameDirectory o) ->
         FS.read (fs w') q = FS.read (fs w) q.
Proof.
  intros H. destruct (launch_frame _ _ _ _ H) as (evs & L & F & R).
  exists evs. repeat split; try assumption.
  - eapply launchMay_not_get; eassumption.
  - intros q H1 H2. apply R. now split.
Qed.

Lemma launch_disk_effects_witness :
  exists evs,
    Spec.added Sample.installed
      (Sample.launched Sample.fabric) evs
    /\ Forall (Spec.launchMay Sample.fabric Sample.installed) evs
    /\ transfers evs = []
    /\ forall q,
         q <> Spec.profilesPath Sample.root ->
         q <> Spec.optionsPath Sample.root ->
         FS.read (fs (Sample.launched Sample.fabric)) q
         = FS.read (fs Sample.installed) q.
Proof.
  apply (launch_disk_effects Sample.fabric Sample.installed
           (fst (Launcher.launch Sample.fabric Sample.installed))).
  vm_compute. reflexivity.
Defined.

(** C9, as the specification words it, fails: a launch without overlay in a
    game directory that has no [launcher_profiles.json] creates that
    file. *)
Lemma launch_creates_profiles :
  Launcher.customOf (version Sample.vanilla) "1.19" = None
  /\ ~ (forall q,
          q <> Spec.optionsPath Sample.root ->
          FS.read (fs (Sample.launched Sample.vanilla)) q
          = FS.read (fs Sample.installed) q).
Proof.
  split; [reflexivity|].
  intros H. specialize (H (Spec.profilesPath Sample.root)).
  vm_compute in H.
  pose proof (H ltac:(discriminate)) as H'. discriminate H'.
Qed.

(** ** The launch, step by step *)

(** A launch that reaches [spawn] went through every step. *)
Lemma launch_ok_inv (o : options) (w w' : world) :
  Launcher.launch o w = (Ok tt, w') ->
  exists v file uuid base p archivos args w1 w2 w3,
    Str.match_version (version o) = Some v
    /\ FS.read (fs w)
         (Path.join (gameDirectory o) [Downloader.versions; v; v +++ ".json"])
       = Ok (Json file)
    /\ Launcher.createProfile (gameDirectory o) w = (Ok tt, w1)
    /\ Launcher.auth (gameDirectory o) (username o) w1 = (Ok uuid, w2)
    /\ Launcher.basePlan file = Ok base
    /\ Launcher.mergeCustom (gameDirectory o)
         (Launcher.customOf (version o) v) base w2 = (Ok p, w3)
    /\ FS.readdir (fs w3)
         (Path.join (gameDirectory o) [Downloader.libraries]) = Ok archivos
    /\ Launcher.template o v
         (Launcher.scan (Path.join (gameDirectory o) [Downloader.libraries])
            archivos (Launcher.reqLibs p) v
          +++ Path.render
                (Launcher.gameJar (gameDirectory o) v
                   (Launcher.customOf (version o) v))) p = Ok args
    /\ log w' =
       log w3 ++
       [EvSpawn "java"
          (Launcher.substitute
             (Launcher.fields uuid (username o) v (gameDirectory o)) args)
          (gameDirectory o)].
Proof.
  unfold Launcher.launch. intros H.
  destruct (Str.match_version (version o)) as [v|] eqn:Ev; [|discriminate].
  apply bind_ok_inv in H. destruct H as (v' & ? & H0 & H).
  injection H0 as <- <-.
  apply bind_ok_inv in H. destruct H as (raw & ? & H0 & H).
  unfold readFileSync in H0. injection H0 as Hraw <-.
  apply bind_ok_inv in H. destruct H as (file & ? & H0 & H).
  apply lift_inv in H0. destruct H0 as [Hfile ->].
  destruct raw as [s|doc|es|]; try discriminate. injection Hfile as <-.
  apply bind_ok_inv in H. destruct H as ([] & w1 & H1 & H).
  apply bind_ok_inv in H. destruct H as (uuid & w2 & H2 & H).
  apply bind_ok_inv in H. destruct H as (base & ? & H0 & H).
  apply lift_inv in H0. destruct H0 as [Hbase ->].
  apply bind_ok_inv in H. destruct H as (p & w3 & H3 & H).
  apply bind_ok_inv in H. destruct H as (found & ? & H0 & H).
  unfold Launcher.encontrarArchivosJAR in H0.
  apply bind_ok_inv in H0. destruct H0 as (archivos & w4 & H4 & H0).
  unfold readdirSync in H4. injection H4 as Hdir <-.
  injection H0 as <- <-.
  apply bind_ok_inv in H. destruct H as (args & ? & H0 & H).
  apply lift_inv in H0. destruct H0 as [Hargs ->].
  injection H as <-.
  exists v, file, uuid, base, p, archivos, args, w1, w2, w3.
  repeat split; auto.
Qed.

(** The loop that fills the placeholders treats every position on its
    own. *)
Lemma assign_middle {A} (l1 l2 : list A) (a x : A) :
  Launcher.assign (length l1) x (l1 ++ a :: l2) = l1 ++ x :: l2.
Proof.
  induction l1 as [|y l1 IH]; simpl; [reflexivity|]. now rewrite IH.
Qed.

Lemma substituteFrom_map (fields : list (string * value)) (n : nat) :
  forall (l1 l2 : list value),
    length l2 = n ->
    Launcher.substituteFrom fields n (length l1) (l1 ++ l2)
    = l1 ++ map (Spec.fill fields) l2.
Proof.
  induction n as [|n IH]; intros l1 l2 Hn.
  - destruct l2; [reflexivity|discriminate].
  - destruct l2 as [|a l2]; [discriminate|]. injection Hn as Hn.
    simpl Launcher.substituteFrom.
    rewrite nth_error_app2, Nat.sub_diag by apply le_n. simpl nth_error.
    specialize (IH (l1 ++ [Spec.fill fields a]) l2 Hn).
    rewrite length_app, Nat.add_1_r, <- !app_assoc in IH. simpl in IH.
    simpl map. rewrite <- IH. unfold Spec.fill.
    destruct (Launcher.isKey fields a); [|reflexivity].
    now rewrite assign_middle.
Qed.

Lemma substitute_map (fields : list (string * value)) (args : list value) :
  Launcher.substitute fields args = map (Spec.fill fields) args.
Proof.
  unfold Launcher.substitute.
  apply (substituteFrom_map fields (length args) [] args). reflexivity.
Qed.

(** ** The game jar *)

Lemma gameJar_cases (rootPath : path) (optionsVersion v : string) :
  Launcher.gameJar rootPath v (Launcher.customOf optionsVersion v) =
  if String.eqb optionsVersion v || Str.includes optionsVersion "fabric"
  then Spec.baseJar rootPath v
  else Spec.overlayJar rootPath optionsVersion.
Proof.
  unfold Launcher.gameJar, Launcher.customOf.
  destruct (String.eqb optionsVersion v); simpl; [reflexivity|].
  destruct (Str.includes optionsVersion "fabric"); reflexivity.
Qed.

Lemma template_classpath (o : options) (v libs : string) (p : Launcher.plan)
  (args : list value) :
  Launcher.template o v libs p = Ok args ->
  nth_error args 4 = Some (VStr "-cp")
  /\ nth_error args 5 = Some (VStr libs).
Proof.
  unfold Launcher.template.
  destruct (Js.as_array (Launcher.gameArgs p)) as [ga|e]; [|discriminate].
  intros H. injection H as <-. unfold Js.concat_all. simpl fold_left.
  split; reflexivity.
Qed.

(** C1, as the specification words it, fails both ways: a fabric overlay is
    launched with the base version's jar, not with its own, and an overlay
    that is not fabric is launched with its own jar, not with the base
    version's. *)
Lemma fabric_overlay_takes_base_jar :
  Str.match_version (version Sample.fabric) = Some "1.19"
  /\ Launcher.gameJar Sample.root "1.19"
       (Launcher.customOf (version Sample.fabric) "1.19")
     = ["C:"; "mc"; "versions"; "1.19"; "1.19.jar"]
  /\ Spec.specGameJar Sample.root "1.19"
       (Launcher.customOf (version Sample.fabric) "1.19")
     = ["C:"; "mc"; "versions"; "1.19-fabric-0.1"; "1.19-fabric-0.1.jar"]
  /\ Str.match_version (version Sample.forge) = Some "1.19"
  /\ Launcher.gameJar Sample.root "1.19"
       (Launcher.customOf (version Sample.forge) "1.19")
     = ["C:"; "mc"; "versions"; "1.19-forge"; "1.19-forge.jar"]
  /\ Spec.specGameJar Sample.root "1.19"
       (Launcher.customOf (version Sample.forge) "1.19")
     = ["C:"; "mc"; "versions"; "1.19"; "1.19.jar"]
  /\ Launcher.gameJar Sample.root "1.19"
       (Launcher.customOf (version Sample.fabric) "1.19")
     <> Spec.specGameJar Sample.root "1.19"
          (Launcher.customOf (version Sample.fabric) "1.19")
  /\ (exists before argv,
        log (Sample.launched Sample.fabric)
        = before ++ [EvSpawn "java" argv Sample.root]
        /\ nth_error argv 5 =
           Some (VStr ("C:\mc\libraries\com\patchy-1.1.jar;"
                       +++ "C:\mc\libraries\net\fabric-loader-0.1.jar;"
                       +++ "C:\mc\versions\1.19\1.19.jar")))
  /\ (exists before argv,
        log (Sample.launched Sample.forge)
        = before ++ [EvSpawn "java" argv Sample.root]
        /\ nth_error argv 5 =
           Some (VStr ("C:\mc\libraries\com\patchy-1.1.jar;"
                       +++ "C:\mc\libraries\net\fabric-loader-0.1.jar;"
                       +++ "C:\mc\versions\1.19-forge\1.19-forge.jar"))).
Proof.
  do 6 (split; [reflexivity|]).
  split; [vm_compute; discriminate|].
  split; vm_compute; eexists [_; _], _; split; reflexivity.
Qed.

(** ** The placeholders *)

Lemma isKey_spec (fields : list (string * value)) (a : value) :
  Launcher.isKey fields a = true <->
  exists k, a = VStr k /\ In k (map fst fields).
Proof.
  destruct a as [| |b|n|s|l|fs]; simpl;
    try (split; [discriminate|intros (k & E & _); discriminate]).
  rewrite mem_In. split.
  - intros H. now exists s.
  - intros (k & E & H). now injection E as ->.
Qed.

Lemma fill_unknown (fields : list (string * value)) (a : value) :
  (forall k, In k (map fst fields) -> a <> VStr k) ->
  Spec.fill fields a = a.
Proof.
  intros H. unfold Spec.fill.
  destruct (Launcher.isKey fields a) eqn:E; [|reflexivity].
  apply isKey_spec in E. destruct E as (k & -> & Hk).
  exfalso. now apply (H k).
Qed.


(** None of the five flags is a placeholder. *)
Lemma fill_flag (fields : list (string * value)) (s : string) :
  Forall (fun k => prefix "$" k = true) (map fst fields) ->
  Spec.fill fields (VStr (String "-" s)) = VStr (String "-" s).
Proof.
  intros H. apply fill_unknown. intros k Hk E. injection E as <-.
  rewrite Forall_forall in H. specialize (H _ Hk). discriminate H.
Qed.

(** ** The overlay *)

Lemma split_nonempty (c : ascii) (s : string) : Str.split c s <> [].
Proof.
  destruct s as [|x s]; simpl; [discriminate|].
  destruct (Ascii.eqb x c); [discriminate|].
  destruct (Str.split c s); discriminate.
Qed.

Lemma split_app (c : ascii) (a b : string) :
  Str.split c (a +++ String c b) = Str.split c a ++ Str.split c b.
Proof.
  induction a as [|x a IH]; simpl.
  - now rewrite Ascii.eqb_refl.
  - destruct (Ascii.eqb x c); [now rewrite IH|].
    rewrite IH. pose proof (split_nonempty c a) as Hne.
    destruct (Str.split c a); [contradiction|reflexivity].
Qed.

Lemma split_lacks (c : ascii) (s : string) :
  Spec.lacks c s = true -> Str.split c s = [s].
Proof.
  unfold Spec.lacks. induction s as [|x s IH]; simpl; [reflexivity|].
  intros H. apply andb_prop in H. destruct H as [Hx Hs].
  apply negb_true_iff in Hx. rewrite Hx, IH by assumption. reflexivity.
Qed.

(** The name pushed for an overlay library is its artifact and version:
    the last two fields of a coordinate [group:artifact:version]. *)
Lemma customLibName_coordinate (group artifact ver : string) :
  Spec.lacks ":"%char artifact = true ->
  Spec.lacks ":"%char ver = true ->
  Launcher.customLibName (group +++ ":" +++ artifact +++ ":" +++ ver)
  = artifact +++ "-" +++ ver +++ ".jar".
Proof.
  intros Ha Hv. unfold Launcher.customLibName. simpl.
  rewrite !split_app, (split_lacks _ _ Ha), (split_lacks _ _ Hv).
  unfold Str.slice_last. rewrite length_app. simpl.
  replace (length (Str.split ":" group) + 2 - 2)
    with (length (Str.split ":" group) + 0) by lia.
  rewrite skipn_app, Nat.add_0_r, skipn_all.
  replace (length (Str.split ":" group) - length (Str.split ":" group))
    with 0 by lia.
  simpl. now rewrite append_assoc.
Qed.

Lemma baseLibs_cons_inv (x : value) (l : list value) (r : list string) :
  Launcher.baseLibs (x :: l) = Ok r ->
  exists d a,
    Js.get x "downloads" = Ok d
    /\ Js.get d "artifact" = Ok a
    /\ ((a = VUndefined /\ Launcher.baseLibs l = Ok r)
        \/ exists s r',
             Js.get a "path" = Ok (VStr s)
             /\ Launcher.baseLibs l = Ok r'
             /\ r = Path.basename s :: r').
Proof.
  simpl. intros H.
  destruct (Js.get x "downloads") as [d|] eqn:Ed; [|discriminate].
  destruct (Js.get d "artifact") as [a|] eqn:Ea; [|discriminate].
  exists d, a. split; [reflexivity|]. split; [exact Ea|]. clear Ed Ea.
  destruct a; try (left; now split); right;
    match type of H with
    | context [Js.get ?y "path"] =>
        destruct (Js.get y "path") as [p'|] eqn:Ep; [|discriminate]
    end;
    (destruct p'; try discriminate); simpl in H;
    (destruct (Launcher.baseLibs l) as [r'|]; [|discriminate]);
    injection H as <-; eauto.
Qed.

Lemma baseLibs_In (l : list value) (r : list string) (element d a : value)
  (s : string) :
  Launcher.baseLibs l = Ok r ->
  In element l ->
  Js.get element "downloads" = Ok d ->
  Js.get d "artifact" = Ok a ->
  Js.get a "path" = Ok (VStr s) ->
  In (Path.basename s) r.
Proof.
  intros H Hin Hd Ha Hp. revert r H.
  induction l as [|x l IH]; intros r H; [destruct Hin|].
  apply baseLibs_cons_inv in H.
  destruct H as (d' & a' & Hd' & Ha' & [[Hu Hl]|(s' & r' & Hp' & Hl & ->)]).
  - destruct Hin as [->|Hin]; [|now apply IH].
    rewrite Hd in Hd'. injection Hd' as <-.
    rewrite Ha in Ha'. injection Ha' as <-.
    subst a. discriminate Hp.
  - destruct Hin as [->|Hin]; [|right; now apply IH].
    rewrite Hd in Hd'. injection Hd' as <-.
    rewrite Ha in Ha'. injection Ha' as <-.
    rewrite Hp in Hp'. injection Hp' as <-. now left.
Qed.

Lemma customLibs_In (l : list value) (r : list string) (element : value)
  (name : string) :
  Launcher.customLibs l = Ok r ->
  In element l ->
  Js.get element "name" = Ok (VStr name) ->
  In (Launcher.customLibName name) r.
Proof.
  intros H Hin Hn. revert r H.
  induction l as [|x l IH]; intros r H; [destruct Hin|].
  simpl in H. destruct Hin as [->|Hin].
  - rewrite Hn in H. simpl in H.
    destruct (Launcher.customLibs l); [|discriminate].
    injection H as <-. now left.
  - destruct (Js.get x "name") as [n|]; [|discriminate].
    destruct (Js.as_string n); [|discriminate].
    destruct (Launcher.customLibs l) as [r'|]; [|discriminate].
    injection H as <-. right. now apply IH.
Qed.

Lemma basePlan_inv (file : value) (base : Launcher.plan) :
  Launcher.basePlan file = Ok base ->
  exists l,
    Js.get file "libraries" = Ok (VArr l)
    /\ Launcher.baseLibs l = Ok (Launcher.reqLibs base)
    /\ Js.get file "mainClass" = Ok (Launcher.mainClass base).
Proof.
  unfold Launcher.basePlan. intros H.
  destruct (Js.get file "libraries") as [ls|] eqn:El; [|discriminate].
  destruct ls; try discriminate. simpl in H.
  destruct (Launcher.baseLibs l) as [libs|] eqn:Eb; [|discriminate].
  destruct (Js.get file "mainClass") as [mc|] eqn:Em; [|discriminate].
  destruct (Launcher.baseGameArgs file); [|discriminate].
  injection H as <-. exists l. auto.
Qed.

Lemma customPlan_inv (customFile : value) (base p : Launcher.plan) :
  Launcher.customPlan customFile base = Ok p ->
  exists l names,
    Js.get customFile "libraries" = Ok (VArr l)
    /\ Launcher.customLibs l = Ok names
    /\ Launcher.reqLibs p = Launcher.reqLibs base ++ names
    /\ Js.get customFile "mainClass" = Ok (Launcher.mainClass p).
Proof.
  unfold Launcher.customPlan. intros H.
  destruct (Js.get customFile "libraries") as [ls|] eqn:El; [|discriminate].
  destruct ls; try discriminate. simpl in H.
  destruct (Launcher.customLibs l) as [libs|] eqn:Ec; [|discriminate].
  destruct (Js.get customFile "mainClass") as [mc|] eqn:Em; [|discriminate].
  destruct (Launcher.customGameArgs customFile _); [|discriminate].
  injection H as <-. exists l, libs. auto.
Qed.

Lemma mergeCustom_inv (rootPath : path) (c : string) (base p : Launcher.plan)
  (w w' : world) :
  Launcher.mergeCustom rootPath (Some c) base w = (Ok p, w') ->
  exists customFile,
    FS.read (fs w)
      (Path.join rootPath [Downloader.versions; c; c +++ ".json"])
    = Ok (Json customFile)
    /\ Launcher.customPlan customFile base = Ok p.
Proof.
  unfold Launcher.mergeCustom. intros H.
  apply bind_ok_inv in H. destruct H as (raw & ? & H0 & H).
  unfold readFileSync in H0. injection H0 as Hraw <-.
  apply bind_ok_inv in H. destruct H as (customFile & ? & H0 & H).
  apply lift_inv in H0. destruct H0 as [Hfile ->].
  destruct raw as [s|doc|es|]; try discriminate. injection Hfile as <-.
  apply bind_ok_inv in H. destruct H as (p' & ? & H0 & H).
  apply lift_inv in H0. destruct H0 as [Hp ->].
  apply bind_ok_inv in H. destruct H as (ex & ? & _ & H).
  apply bind_ok_inv in H. destruct H as ([] & ? & _ & H).
  injection H as <- _. now exists customFile.
Qed.

Lemma template_mainClass (o : options) (v libs : string) (p : Launcher.plan)
  (args : list value) (B : string) :
  Launcher.template o v libs p = Ok args ->
  Launcher.mainClass p = VStr B ->
  nth_error args 6 = Some (VStr B).
Proof.
  unfold Launcher.template.
  destruct (Js.as_array (Launcher.gameArgs p)) as [ga|e]; [|discriminate].
  intros H HB. injection H as <-. unfold Js.concat_all. simpl fold_left.
  rewrite HB. reflexivity.
Qed.

(** ** What reaches java *)

(** A path whose last part ends in [.jar] renders to a string that ends
    in [.jar], whatever the parts before it normalise to. *)
Lemma segments_aux_ext (ext : string) (l : list ascii) : forall cur,
  forallb (fun x => negb (Path.is_sep x)) (list_ascii_of_string ext) = true ->
  exists init t,
    Path.segments_aux cur (l ++ list_ascii_of_string ext)
    = init ++ [t +++ ext].
Proof.
  induction l as [|c l IH]; intros cur H.
  - exists [], cur. simpl. rewrite segments_aux_plain by assumption.
    now rewrite string_of_list_ascii_of_string.
  - simpl. destruct (Path.is_sep c).
    + destruct (IH "" H) as (init & t & E). exists (cur :: init), t.
      now rewrite E.
    + now apply IH.
Qed.

Lemma step_jar (q : path) (t : string) :
  Path.step q (t +++ ".jar") = q ++ [t +++ ".jar"].
Proof.
  unfold Path.step.
  assert (H1 : String.eqb (t +++ ".jar") "" = false)
    by (destruct t; reflexivity).
  assert (H2 : String.eqb (t +++ ".jar") "." = false).
  { destruct t as [|a [|b t]]; simpl; try reflexivity;
      destruct (Ascii.eqb a "."); reflexivity. }
  assert (H3 : String.eqb (t +++ ".jar") ".." = false).
  { destruct t as [|a [|b [|c t]]]; simpl; try reflexivity;
      destruct (Ascii.eqb a "."); try reflexivity;
      destruct (Ascii.eqb b "."); reflexivity. }
  now rewrite H1, H2, H3.
Qed.

Lemma join_jar (p : path) (parts : list string) (s : string) :
  exists q t, Path.join p (parts ++ [s +++ ".jar"]) = q ++ [t +++ ".jar"].
Proof.
  unfold Path.join. rewrite flat_map_app. simpl. rewrite app_nil_r.
  unfold Path.segments at 2. rewrite list_ascii_app.
  destruct (segments_aux_ext ".jar" (list_ascii_of_string s) "" eq_refl)
    as (init & t & E).
  rewrite E, app_assoc, fold_left_app. simpl. rewrite step_jar. eauto.
Qed.

Lemma render_snoc (q : path) (x : string) :
  exists pre, Path.render (q ++ [x]) = pre +++ x.
Proof.
  destruct q as [|a q]; [now exists ""|].
  exists (Path.render (a :: q) +++ Path.sep). unfold Path.render.
  rewrite concat_snoc by discriminate. now rewrite append_assoc.
Qed.

Lemma gameJar_ends (root : path) (v : string) (custom : option string) :
  exists pre, Path.render (Launcher.gameJar root v custom) = pre +++ ".jar".
Proof.
  assert (H : forall x, exists pre,
              Path.render
                (Path.join root [Downloader.versions; x; x +++ ".jar"])
              = pre +++ ".jar").
  { intros x.
    destruct (join_jar root [Downloader.versions; x] x) as (q & t & E).
    simpl app in E. rewrite E.
    destruct (render_snoc q (t +++ ".jar")) as [pre Hp]. rewrite Hp.
    exists (pre +++ t). now rewrite append_assoc. }
  unfold Launcher.gameJar, Path.resolve.
  destruct custom as [c|]; [destruct (Str.includes c "fabric")|]; apply H.
Qed.

(** No placeholder ends in [.jar]: the classpath is handed on as it is. *)
Lemma fill_jar (pre : string) (uuid : value) (username v : string)
  (root : path) :
  Spec.fill (Launcher.fields uuid username v root) (VStr (pre +++ ".jar"))
  = VStr (pre +++ ".jar").
Proof.
  apply fill_unknown. intros k Hk E. injection E as E.
  apply (f_equal (fun s => rev (list_ascii_of_string s))) in E.
  rewrite list_ascii_app, rev_app_distr in E.
  simpl in Hk.
  repeat (destruct Hk as [<-|Hk]; [simpl in E; discriminate E|]).
  destruct Hk.
Qed.

Lemma fields_dollar (uuid : value) (username v : string) (root : path) :
  Forall (fun k => prefix "$" k = true)
    (map fst (Launcher.fields uuid username v root)).
Proof. simpl. repeat constructor. Qed.

(** ** A launch from the disk it starts on *)

Lemma createProfile_cases (root : path) (w w1 : world) :
  Launcher.createProfile root w = (Ok tt, w1) ->
  w1 = w
  \/ exists n,
       FS.write (fs w) (Spec.profilesPath root)
         (Json (VObj [("profiles", VObj [])])) = Ok n
       /\ w1 = with_log (with_fs w n)
                 (log w ++ [EvWrite (Spec.profilesPath root)
                              (Json (VObj [("profiles", VObj [])]))]).
Proof.
  unfold Launcher.createProfile, bind, existsSync, writeFileSync, mutate,
    Path.resolve, Spec.profilesPath.
  destruct (FS.exists_ (fs w) (Path.join root ["launcher_profiles.json"]));
    simpl.
  - intros H. injection H as <-. now left.
  - destruct (FS.write (fs w) _ _) as [n|e] eqn:E; [|discriminate].
    intros H. injection H as <-. right. now exists n.
Qed.

Lemma auth_fs (root : path) (us : string) (w : world) (r : result value)
  (w' : world) :
  Launcher.auth root us w = (r, w') -> fs w' = fs w.
Proof.
  unfold Launcher.auth, try_catch, bind, readFileSync, lift, uuidv4.
  destruct (FS.read (fs w) _) as [c|e]; simpl;
    [|intros H; now injection H as _ <-].
  destruct (JSON_parse c) as [fil|e]; simpl;
    [|intros H; now injection H as _ <-].
  destruct (Js.as_array fil) as [l|e]; simpl;
    [|intros H; now injection H as _ <-].
  destruct (Js.find (Launcher.named us) l) as [x|e]; simpl;
    [|intros H; now injection H as _ <-].
  destruct (Js.get x "uuid") as [u|e]; simpl;
    intros H; now injection H as _ <-.
Qed.

(** What the lookup gives depends on the user cache and on the draws
    only. *)
Lemma auth_value (root : path) (us : string) (w w1 : world) :
  FS.read (fs w1) (Path.join root ["usercache.json"])
  = FS.read (fs w) (Path.join root ["usercache.json"]) ->
  uuids w1 = uuids w -> tick w1 = tick w ->
  fst (Launcher.auth root us w1) = fst (Launcher.auth root us w).
Proof.
  intros Hr Hu Ht.
  unfold Launcher.auth, try_catch, bind, readFileSync, lift, uuidv4.
  rewrite Hr.
  destruct (FS.read (fs w) _) as [c|e]; simpl; [|now rewrite Hu, Ht].
  destruct (JSON_parse c) as [fil|e]; simpl; [|now rewrite Hu, Ht].
  destruct (Js.as_array fil) as [l|e]; simpl; [|now rewrite Hu, Ht].
  destruct (Js.find (Launcher.named us) l) as [x|e]; simpl;
    [|now rewrite Hu, Ht].
  destruct (Js.get x "uuid") as [u|e]; simpl; [reflexivity|].
  now rewrite Hu, Ht.
Qed.

(** A launch that reaches [spawn], told from the world it starts in and
    the world it leaves. *)
Lemma launch_run (o : options) (w w' : world) :
  Launcher.launch o w = (Ok tt, w') ->
  exists v uuid p archivos args before,
    Str.match_version (version o) = Some v
    /\ fst (Launcher.auth (gameDirectory o) (username o) w) = Ok uuid
    /\ Spec.plans o w v p
    /\ FS.readdir (fs w')
         (Path.join (gameDirectory o) [Downloader.libraries]) = Ok archivos
    /\ Launcher.template o v
         (Spec.classpath
            (Spec.selected
               (Path.join (gameDirectory o) [Downloader.libraries])
               archivos (Launcher.reqLibs p) v)
          +++ Path.render
                (Launcher.gameJar (gameDirectory o) v
                   (Launcher.customOf (version o) v))) p = Ok args
    /\ log w' =
       before ++
       [EvSpawn "java"
          (map (Spec.fill
                  (Launcher.fields uuid (username o) v (gameDirectory o)))
             args)
          (gameDirectory o)].
Proof.
  unfold Launcher.launch. intros H.
  destruct (Str.match_version (version o)) as [v|] eqn:Ev; [|discriminate].
  apply bind_ok_inv in H. destruct H as (v' & ? & H0 & H).
  injection H0 as <- <-.
  apply bind_ok_inv in H. destruct H as (raw & ? & H0 & H).
  unfold readFileSync in H0. injection H0 as Hraw <-.
  apply bind_ok_inv in H. destruct H as (file & ? & H0 & H).
  apply lift_inv in H0. destruct H0 as [Hfile ->].
  destruct raw as [s|doc|es|]; try discriminate. injection Hfile as <-.
  apply bind_ok_inv in H. destruct H as ([] & w1 & H1 & H).
  apply bind_ok_inv in H. destruct H as (uuid & w2 & H2 & H).
  apply bind_ok_inv in H. destruct H as (base & ? & H0 & H).
  apply lift_inv in H0. destruct H0 as [Hbase ->].
  apply bind_ok_inv in H. destruct H as (p & w3 & H3 & H).
  apply bind_ok_inv in H. destruct H as (found & ? & H0 & H).
  unfold Launcher.encontrarArchivosJAR in H0.
  apply bind_ok_inv in H0. destruct H0 as (archivos & w4 & H4 & H0).
  unfold readdirSync in H4. injection H4 as Hdir <-.
  injection H0 as <- <-.
  apply bind_ok_inv in H. destruct H as (args & ? & H0 & H).
  apply lift_inv in H0. destruct H0 as [Hargs ->].
  injection H as <-.
  apply createProfile_cases in H1.
  exists v, uuid, p, archivos, args, (log w3).
  split; [reflexivity|].
  split.
  { destruct H1 as [->|(n & Hn & ->)]; [now rewrite H2|].
    match type of H2 with
    | Launcher.auth _ _ ?w1 = _ =>
        rewrite <- (auth_value (gameDirectory o) (username o) w w1);
          [now rewrite H2| |reflexivity..]
    end.
    simpl. apply (write_frame _ _ _ _ _ Hn).
    unfold Spec.profilesPath. rewrite !join_plain by reflexivity.
    intros E. apply app_inv_head in E. discriminate. }
  split.
  { exists file, base. split; [exact Hraw|].
    split; [symmetry; exact Hbase|].
    destruct (Launcher.customOf (version o) v) as [c|] eqn:Ec.
    - apply mergeCustom_inv in H3. destruct H3 as (customFile & Hread & Hp).
      exists customFile. split; [|exact Hp].
      rewrite (auth_fs _ _ _ _ _ H2) in Hread.
      destruct H1 as [->|(n & Hn & ->)]; [exact Hread|].
      simpl in Hread.
      destruct (list_eq_dec string_dec
                  (Path.join (gameDirectory o)
                     [Downloader.versions; c; c +++ ".json"])
                  (Spec.profilesPath (gameDirectory o))) as [E|N].
      + rewrite E, (write_read _ _ _ _ Hn) in Hread.
        injection Hread as <-. discriminate Hp.
      + now rewrite (write_frame _ _ _ _ _ Hn) in Hread.
    - simpl in H3. unfold ret in H3. now injection H3 as <-. }
  split; [exact Hdir|].
  split; [rewrite <- scan_classpath; symmetry; exact Hargs|].
  simpl. now rewrite substitute_map.
Qed.

(** ** The game jar java gets *)

(** C1, as the code has it.  A launch that reaches [spawn] hands java,
    after [-cp], one string: what the search below the libraries directory
    gives for the names of the plan, followed by exactly one game jar, the
    base version's when no overlay is selected or when the overlay id
    contains [fabric], the overlay's own for every other overlay. *)
Theorem game_jar_appended (o : options) (w w' : world) :
  Launcher.launch o w = (Ok tt, w') ->
  exists v p archivos argv before,
    Str.match_version (version o) = Some v
    /\ Spec.plans o w v p
    /\ FS.readdir (fs w')
         (Path.join (gameDirectory o) [Downloader.libraries]) = Ok archivos
    /\ log w' = before ++ [EvSpawn "java" argv (gameDirectory o)]
    /\ nth_error argv 4 = Some (VStr "-cp")
    /\ nth_error argv 5 =
       Some (VStr
               (Spec.classpath
                  (Spec.selected
                     (Path.join (gameDirectory o) [Downloader.libraries])
                     archivos (Launcher.reqLibs p) v)
                +++ Path.render
                      (if String.eqb (version o) v
                          || Str.includes (version o) "fabric"
                       then Spec.baseJar (gameDirectory o) v
                       else Spec.overlayJar (gameDirectory o) (version o)))).
Proof.
  intros H. apply launch_run in H.
  destruct H as (v & uuid & p & archivos & args & before
                 & Hv & _ & Hp & Hdir & Ht & Hl).
  exists v, p, archivos,
    (map (Spec.fill (Launcher.fields uuid (username o) v (gameDirectory o)))
       args), before.
  apply template_classpath in Ht. destruct Ht as [H4 H5].
  repeat (split; [assumption|]).
  rewrite !nth_error_map, H4, H5. cbn [option_map]. split.
  - now rewrite (fill_flag _ "cp") by apply fields_dollar.
  - rewrite <- gameJar_cases.
    destruct (gameJar_ends (gameDirectory o) v
                (Launcher.customOf (version o) v)) as [pre E].
    now rewrite E, <- append_assoc, fill_jar.
Qed.

Lemma game_jar_appended_witness :
  (exists v p archivos argv before,
     Str.match_version (version Sample.forge) = Some v
     /\ Spec.plans Sample.forge Sample.installed v p
     /\ FS.readdir (fs (Sample.launched Sample.forge))
          (Path.join Sample.root [Downloader.libraries]) = Ok archivos
     /\ log (Sample.launched Sample.forge)
        = before ++ [EvSpawn "java" argv Sample.root]
     /\ nth_error argv 4 = Some (VStr "-cp")
     /\ nth_error argv 5 =
        Some (VStr
                (Spec.classpath
                   (Spec.selected
                      (Path.join Sample.root [Downloader.libraries])
                      archivos (Launcher.reqLibs p) v)
                 +++ Path.render
                       (if String.eqb (version Sample.forge) v
                           || Str.includes (version Sample.forge) "fabric"
                        then Spec.baseJar Sample.root v
                        else Spec.overlayJar Sample.root
                               (version Sample.forge)))))
  /\ (exists before argv,
        log (Sample.launched Sample.forge)
        = before ++ [EvSpawn "java" argv Sample.root]
        /\ nth_error argv 5 =
           Some (VStr ("C:\mc\libraries\com\patchy-1.1.jar;"
                       +++ "C:\mc\libraries\net\fabric-loader-0.1.jar;"
                       +++ "C:\mc\versions\1.19-forge\1.19-forge.jar"))).
Proof.
  split.
  - apply (game_jar_appended Sample.forge Sample.installed).
    vm_compute. reflexivity.
  - vm_compute. eexists [_; _], _. split; reflexivity.
Defined.

(** ** The placeholders java gets *)



(** ** The overlay java gets *)

(** C4.  When a launch with an overlay reaches [spawn], the base document
    and the overlay's document were both read from the disk the launch
    started on; the main class handed to java is the overlay's; and the
    names the library search was run with, whose result java gets as its
    classpath, contain the basename of every artifact of the base document
    and, for every library of the overlay, [artifact-version.jar] rebuilt
    from the last two fields of its coordinate. *)
Theorem overlay_merge (o : options) (w w' : world) :
  Launcher.launch o w = (Ok tt, w') ->
  Spec.overlaySelected o ->
  exists v file customFile base p baseLibraries customLibraries archivos
         argv before,
    Str.match_version (version o) = Some v
    /\ FS.read (fs w)
         (Path.join (gameDirectory o) [Downloader.versions; v; v +++ ".json"])
       = Ok (Json file)
    /\ FS.read (fs w)
         (Path.join (gameDirectory o)
            [Downloader.versions; version o; version o +++ ".json"])
       = Ok (Json customFile)
    /\ Launcher.basePlan file = Ok base
    /\ Launcher.customPlan customFile base = Ok p
    /\ Js.get file "libraries" = Ok (VArr baseLibraries)
    /\ Js.get customFile "libraries" = Ok (VArr customLibraries)
    /\ (forall element d a s,
          In element baseLibraries ->
          Js.get element "downloads" = Ok d ->
          Js.get d "artifact" = Ok a ->
          Js.get a "path" = Ok (VStr s) ->
          In (Path.basename s) (Launcher.reqLibs p))
    /\ (forall element name,
          In element customLibraries ->
          Js.get element "name" = Ok (VStr name) ->
          In (Launcher.customLibName name) (Launcher.reqLibs p))
    /\ (forall group artifact ver,
          Spec.lacks ":"%char artifact = true ->
          Spec.lacks ":"%char ver = true ->
          Launcher.customLibName (group +++ ":" +++ artifact +++ ":" +++ ver)
          = artifact +++ "-" +++ ver +++ ".jar")
    /\ FS.readdir (fs w')
         (Path.join (gameDirectory o) [Downloader.libraries]) = Ok archivos
    /\ log w' = before ++ [EvSpawn "java" argv (gameDirectory o)]
    /\ nth_error argv 5 =
       Some (VStr
               (Spec.classpath
                  (Spec.selected
                     (Path.join (gameDirectory o) [Downloader.libraries])
                     archivos (Launcher.reqLibs p) v)
                +++ Path.render
                      (Launcher.gameJar (gameDirectory o) v
                         (Some (version o)))))
    /\ (forall B,
          Js.get customFile "mainClass" = Ok (VStr B) ->
          prefix "$" B = false ->
          nth_error argv 6 = Some (VStr B)).
Proof.
  intros H (v0 & Hv0 & Hneq). apply launch_run in H.
  destruct H as (v & uuid & p & archivos & args & before
                 & Hv & _ & (file & base & Hfile & Hbase & Hp) & Hdir & Ht
                 & Hl).
  rewrite Hv0 in Hv. injection Hv as ->.
  assert (Hc : Launcher.customOf (version o) v = Some (version o)).
  { unfold Launcher.customOf.
    destruct (String.eqb_spec (version o) v); [contradiction|reflexivity]. }
  rewrite Hc in Hp, Ht. destruct Hp as (customFile & Hread & Hp).
  pose proof Hp as Hplan. apply customPlan_inv in Hp.
  destruct Hp as (cl & names & Hcl & Hnames & Hreq & Hmc).
  pose proof Hbase as Hb. apply basePlan_inv in Hb.
  destruct Hb as (bl & Hbl & Hblibs & _).
  exists v, file, customFile, base, p, bl, cl, archivos,
    (map (Spec.fill (Launcher.fields uuid (username o) v (gameDirectory o)))
       args), before.
  repeat (split; [assumption|]).
  split.
  { intros element d a s Hin Hd Ha Hs. rewrite Hreq. apply in_or_app. left.
    eapply baseLibs_In; eassumption. }
  split.
  { intros element name Hin Hn. rewrite Hreq. apply in_or_app. right.
    eapply customLibs_In; eassumption. }
  split; [apply customLibName_coordinate|].
  repeat (split; [assumption|]).
  split.
  - apply template_classpath in Ht. destruct Ht as [_ H5].
    rewrite nth_error_map, H5. cbn [option_map].
    destruct (gameJar_ends (gameDirectory o) v (Some (version o)))
      as [pre E].
    now rewrite E, <- append_assoc, fill_jar.
  - intros B HB Hd. rewrite Hmc in HB. injection HB as HB.
    rewrite nth_error_map, (template_mainClass _ _ _ _ _ B Ht HB).
    cbn [option_map]. f_equal. apply fill_unknown.
    intros k Hk E. injection E as ->.
    pose proof (fields_dollar uuid (username o) v (gameDirectory o)) as F.
    rewrite Forall_forall in F. rewrite (F _ Hk) in Hd. discriminate.
Qed.

Lemma overlay_merge_witness :
  (exists v file customFile base p baseLibraries customLibraries archivos
          argv before,
     Str.match_version (version Sample.fabric) = Some v
     /\ FS.read (fs Sample.installed)
          (Path.join Sample.root [Downloader.versions; v; v +++ ".json"])
        = Ok (Json file)
     /\ FS.read (fs Sample.installed)
          (Path.join Sample.root
             [Downloader.versions; version Sample.fabric;
              version Sample.fabric +++ ".json"])
        = Ok (Json customFile)
     /\ Launcher.basePlan file = Ok base
     /\ Launcher.customPlan customFile base = Ok p
     /\ Js.get file "libraries" = Ok (VArr baseLibraries)
     /\ Js.get customFile "libraries" = Ok (VArr customLibraries)
     /\ (forall element d a s,
           In element baseLibraries ->
           Js.get element "downloads" = Ok d ->
           Js.get d "artifact" = Ok a ->
           Js.get a "path" = Ok (VStr s) ->
           In (Path.basename s) (Launcher.reqLibs p))
     /\ (forall element name,
           In element customLibraries ->
           Js.get element "name" = Ok (VStr name) ->
           In (Launcher.customLibName name) (Launcher.reqLibs p))
     /\ (forall group artifact ver,
           Spec.lacks ":"%char artifact = true ->
           Spec.lacks ":"%char ver = true ->
           Launcher.customLibName
             (group +++ ":" +++ artifact +++ ":" +++ ver)
           = artifact +++ "-" +++ ver +++ ".jar")
     /\ FS.readdir (fs (Sample.launched Sample.fabric))
          (Path.join Sample.root [Downloader.libraries]) = Ok archivos
     /\ log (Sample.launched Sample.fabric)
        = before ++ [EvSpawn "java" argv Sample.root]
     /\ nth_error argv 5 =
        Some (VStr
                (Spec.classpath
                   (Spec.selected
                      (Path.join Sample.root [Downloader.libraries])
                      archivos (Launcher.reqLibs p) v)
                 +++ Path.render
                       (Launcher.gameJar Sample.root v
                          (Some (version Sample.fabric)))))
     /\ (forall B,
           Js.get customFile "mainClass" = Ok (VStr B) ->
           prefix "$" B = false ->
           nth_error argv 6 = Some (VStr B)))
  /\ (exists before argv,
        log (Sample.launched Sample.fabric)
        = before ++ [EvSpawn "java" argv Sample.root]
        /\ nth_error argv 5 =
           Some (VStr ("C:\mc\libraries\com\patchy-1.1.jar;"
                       +++ "C:\mc\libraries\net\fabric-loader-0.1.jar;"
                       +++ "C:\mc\versions\1.19\1.19.jar"))
        /\ nth_error argv 6 = Some (VStr "B")).
Proof.
  split.
  - apply (overlay_merge Sample.fabric Sample.installed).
    + vm_compute. reflexivity.
    + exists "1.19". split; [reflexivity|discriminate].
  - vm_compute. eexists [_; _], _. repeat split; reflexivity.
Defined.

Lemma legacy_jar_quirk_witness :
  In (["C:"; "mc"; "libraries"; "org"; "lwjgl"; "lwjgl-3.2.1.jar"],
      "lwjgl-3.2.1.jar")
    (Spec.selected (Path.join Sample.root [Downloader.libraries])
       Sample.librariesDir ["patchy-1.1.jar"; "lwjgl-3.2.1.jar"] "1.14.2")
  /\ ~ In (["C:"; "mc"; "libraries"; "org"; "lwjgl"; "lwjgl-3.2.1.jar"],
           "lwjgl-3.2.1.jar")
         (Spec.selected (Path.join Sample.root [Downloader.libraries])
            Sample.librariesDir ["patchy-1.1.jar"; "lwjgl-3.2.1.jar"]
            "1.20").
Proof.
  split.
  - apply (legacy_jar_quirk Sample.installed
             (Path.join Sample.root [Downloader.libraries])
             Sample.librariesDir ["patchy-1.1.jar"; "lwjgl-3.2.1.jar"]
             "1.14.2"
             ["C:"; "mc"; "libraries"; "org"; "lwjgl"; "lwjgl-3.2.1.jar"]
             "lwjgl-3.2.1.jar").
    + reflexivity.
    + vm_compute. auto.
    + reflexivity.
    + simpl. auto.
    + reflexivity.
    + simpl. auto.
  - apply (legacy_jar_quirk Sample.installed
             (Path.join Sample.root [Downloader.libraries])
             Sample.librariesDir ["patchy-1.1.jar"; "lwjgl-3.2.1.jar"]
             "1.20"
             ["C:"; "mc"; "libraries"; "org"; "lwjgl"; "lwjgl-3.2.1.jar"]
             "lwjgl-3.2.1.jar").
    + reflexivity.
    + vm_compute. auto.
    + reflexivity.
    + simpl. intros [H|[H|[H|[H|[]]]]]; discriminate H.
Defined.

(** ** The identity lookup *)

(** What [find] does on the user cache: it stops at the first entry named
    [us], unless it meets [null] before, and gives [undefined] when it
    reaches the end. *)
Lemma named_false (us : string) (y : value) :
  Launcher.named us y = Ok false <->
  exists n, Js.get y "name" = Ok n /\ n <> VStr us.
Proof.
  unfold Launcher.named. destruct (Js.get y "name") as [n|e].
  - split.
    + intros H. exists n. split; [reflexivity|]. intros ->.
      simpl in H. rewrite String.eqb_refl in H. discriminate.
    + intros (n' & E & Hn). injection E as <-. f_equal.
      destruct n as [| |b|z|s|l|fs0]; try reflexivity. simpl.
      destruct (String.eqb_spec s us) as [->|]; [now elim Hn|reflexivity].
  - split; [discriminate|]. intros (n & E & _). discriminate.
Qed.

Lemma named_true (us : string) (x : value) :
  Launcher.named us x = Ok true <-> Js.get x "name" = Ok (VStr us).
Proof.
  unfold Launcher.named. destruct (Js.get x "name") as [n|e].
  - split.
    + intros H. injection H as H.
      destruct n as [| |b|z|s|l|fs0]; try discriminate. simpl in H.
      apply String.eqb_eq in H. now subst.
    + intros H. injection H as ->. simpl. now rewrite String.eqb_refl.
  - split; discriminate.
Qed.

Lemma find_named (us : string) (l : list value) :
  (exists pre x post,
     l = pre ++ x :: post
     /\ Forall (fun y => Launcher.named us y = Ok false) pre
     /\ Launcher.named us x = Ok true
     /\ Js.find (Launcher.named us) l = Ok x)
  \/ ((forall pre x post,
         l = pre ++ x :: post ->
         Forall (fun y => Launcher.named us y = Ok false) pre ->
         Launcher.named us x <> Ok true)
      /\ (Js.find (Launcher.named us) l = Ok VUndefined
          \/ exists e, Js.find (Launcher.named us) l = Throw e)).
Proof.
  induction l as [|y l IH]; simpl.
  - right. split; [|now left].
    intros pre x post E. destruct pre; discriminate.
  - destruct (Launcher.named us y) as [[|]|e] eqn:Ey.
    + left. exists [], y, l. repeat split; auto.
    + destruct IH as [(pre & x & post & -> & Hpre & Hx & Hf)|[Hno Hf]].
      * left. exists (y :: pre), x, post. repeat split; auto.
      * right. split; [|assumption].
        intros pre x post E Hpre. destruct pre as [|z pre].
        -- injection E as <- _. congruence.
        -- injection E as <- E. inversion Hpre; subst.
           now apply (Hno pre x post).
    + right. split; [|right; now exists e].
      intros pre x post E Hpre. destruct pre as [|z pre].
      * injection E as <- _. congruence.
      * injection E as <- _. inversion Hpre; subst. congruence.
Qed.

(** C10, as the code has it.  The lookup never throws and leaves the disk
    and the log alone.  When [usercache.json] parses to an array in which
    an entry whose name is [us] comes before any [null], the result is the
    [uuid] of the first such entry; in every other case it is the next
    draw of [uuidv4()]. *)
Theorem auth_total (root : path) (us : string) (w : world) :
  (exists l v,
     FS.read (fs w) (Path.join root ["usercache.json"]) = Ok (Json (VArr l))
     /\ Spec.cached l us v
     /\ Launcher.auth root us w = (Ok v, w))
  \/ ((forall l v,
         FS.read (fs w) (Path.join root ["usercache.json"])
         = Ok (Json (VArr l)) ->
         ~ Spec.cached l us v)
      /\ Launcher.auth root us w
         = (Ok (VStr (uuids w (tick w))), Spec.drawn w)).
Proof.
  destruct (FS.read (fs w) (Path.join root ["usercache.json"]))
    as [[s|fil|es|]|e] eqn:Er;
    try (right; split; [intros l v H; discriminate|];
         unfold Launcher.auth, try_catch, bind, readFileSync;
         rewrite Er; reflexivity).
  destruct fil as [| |b|n|s|l|fs0];
    try (right; split; [intros l' v H; discriminate|];
         unfold Launcher.auth, try_catch, bind, readFileSync;
         rewrite Er; reflexivity).
  destruct (find_named us l)
    as [(pre & x & post & El & Hpre & Hx & Hf)|[Hno Hf]].
  - left. apply named_true in Hx.
    assert (Hv : exists v, Js.get x "uuid" = Ok v).
    { destruct x; simpl in Hx; try discriminate; simpl; eauto. }
    destruct Hv as [v Hv].
    exists l, v. split; [reflexivity|]. split.
    + exists pre, x, post. repeat split; try assumption.
      eapply Forall_impl; [|exact Hpre]. intros y Hy.
      now apply named_false.
    + unfold Launcher.auth, try_catch, bind, readFileSync.
      rewrite Er. simpl. unfold lift. rewrite Hf, Hv. reflexivity.
  - right. split.
    + intros l' v H (pre & x & post & El & Hpre & Hx & _).
      injection H as <-. apply (Hno pre x post El).
      * eapply Forall_impl; [|exact Hpre]. intros y Hy.
        now apply named_false.
      * now apply named_true.
    + unfold Launcher.auth, try_catch, bind, readFileSync.
      rewrite Er. simpl. unfold lift.
      destruct Hf as [Hf|[e Hf]]; rewrite Hf; reflexivity.
Qed.

(** On the sample installation the user cache names Alex, and the lookup
    gives the identifier stored with the name. *)
Lemma auth_total_witness :
  (exists l v,
     FS.read (fs Sample.installed) (Path.join Sample.root ["usercache.json"])
     = Ok (Json (VArr l))
     /\ Spec.cached l "Alex" v
     /\ Launcher.auth Sample.root "Alex" Sample.installed
        = (Ok v, Sample.installed))
  /\ Launcher.auth Sample.root "Alex" Sample.installed
     = (Ok (VStr "uuid-of-alex"), Sample.installed)
  /\ Launcher.auth Sample.root "Steve" Sample.installed
     = (Ok (VStr "fresh-uuid"), Spec.drawn Sample.installed).
Proof.
  split; [|split; reflexivity].
  destruct (auth_total Sample.root "Alex" Sample.installed) as [H|[_ H]];
    [exact H|].
  vm_compute in H. discriminate H.
Defined.

(** C10, as it is worded, fails: in a user cache whose first element is
    [null], the entry named after the user is not found and a fresh
    identifier is drawn. *)
Lemma null_entry_hides_user :
  FS.read (fs Sample.holed)
    (Path.join Sample.root ["usercache.json"])
  = Ok (Json Sample.holedCache)
  /\ In (VObj [("name", VStr "Alex"); ("uuid", VStr "uuid-of-alex")])
       [VNull; VObj [("name", VStr "Alex"); ("uuid", VStr "uuid-of-alex")]]
  /\ fst (Launcher.auth Sample.root "Alex"
            Sample.holed)
     = Ok (VStr "fresh-uuid")
  /\ fst (Launcher.auth Sample.root "Alex"
            Sample.holed)
     <> Ok (VStr "uuid-of-alex").
Proof.
  repeat split; try reflexivity.
  - simpl. auto.
  - vm_compute. discriminate.
Qed.

(** ** The version manifest *)

(** An id with a release entry resolves to the URL of the first such
    entry. *)
Lemma resolveVersionUrl_present (entries pre post : list value) (x url : value)
  (version : string) :
  entries = pre ++ x :: post ->
  Forall (fun y => Downloader.is_release_of version y = Ok false) pre ->
  Downloader.is_release_of version x = Ok true ->
  Js.get x "url" = Ok url ->
  Js.truthy url = true ->
  Downloader.resolveVersionUrl (VObj [("versions", VArr entries)]) version
  = Ok url.
Proof.
  intros -> Hpre Hx Hu Ht. unfold Downloader.resolveVersionUrl. simpl.
  assert (Hf : Js.find (Downloader.is_release_of version) (pre ++ x :: post)
               = Ok x).
  { induction Hpre as [|y pre Hy _ IH]; simpl.
    - now rewrite Hx.
    - now rewrite Hy. }
  rewrite Hf, Hu, Ht. reflexivity.
Qed.

(** An id without a release entry does not reach the test that reports a
    missing version: reading [url] off [undefined] throws first. *)
Lemma resolveVersionUrl_absent (entries : list value) (version : string) :
  Forall (fun y => Downloader.is_release_of version y = Ok false) entries ->
  Downloader.resolveVersionUrl (VObj [("versions", VArr entries)]) version
  = Throw TypeError.
Proof.
  intros H. unfold Downloader.resolveVersionUrl. simpl.
  assert (Hf : Js.find (Downloader.is_release_of version) entries
               = Ok VUndefined).
  { induction H as [|y l Hy _ IH]; simpl; [reflexivity|]. now rewrite Hy. }
  rewrite Hf. reflexivity.
Qed.

(** C3 on the code.  For the release 1.19 of the sample manifest the
    resolution gives the entry's URL.  For 9.99, which the manifest does
    not list, it throws a [TypeError], not the error that says the version
    does not exist, and the promise of [download] is left pending. *)
Theorem absent_version_type_error :
  Downloader.resolveVersionUrl Sample.manifest "1.19"
  = Ok (VStr "https://m/1.19.json")
  /\ Downloader.resolveVersionUrl Sample.manifest "9.99" = Throw TypeError
  /\ Downloader.resolveVersionUrl Sample.manifest "9.99"
     <> Throw (Thrown "La version no existe.")
  /\ fst (Downloader.download "9.99" Sample.root Sample.empty)
     = Ok (Pending TypeError).
Proof.
  repeat split; try reflexivity. discriminate.
Qed.

(** ** Writing below a directory that exists *)

Lemma lookup_app (p q : path) : forall (n : node),
  FS.lookup n (p ++ q) =
  match FS.lookup n p with
  | Some m => FS.lookup m q
  | None => None
  end.
Proof.
  induction p as [|s p IH]; intros n; simpl.
  - reflexivity.
  - destruct n as [c|es]; [reflexivity|].
    destruct (Js.assoc s es); [apply IH|reflexivity].
Qed.

Lemma alter_ok (f : list (string * node) -> result (list (string * node)))
  (p : path) : forall (n : node) (es es' : list (string * node)),
  FS.lookup n p = Some (Dir es) ->
  f es = Ok es' ->
  exists n', FS.alter n p f = Ok n' /\ FS.lookup n' p = Some (Dir es').
Proof.
  induction p as [|s p IH]; intros n es es' Hl Hf.
  - simpl in Hl. injection Hl as ->. simpl. rewrite Hf. eauto.
  - destruct n as [c|es0]; [discriminate|]. simpl in Hl |- *.
    destruct (Js.assoc s es0) as [c|] eqn:E; [|discriminate].
    destruct (IH _ _ _ Hl Hf) as (c' & Ha & Hl').
    rewrite Ha. eexists. split; [reflexivity|].
    simpl. now rewrite assoc_set_same.
Qed.


Lemma mkdir_ok (n : node) (p : path) (name : string)
  (es : list (string * node)) :
  FS.lookup n p = Some (Dir es) ->
  Js.assoc name es = None ->
  exists n',
    FS.mkdir n (p ++ [name]) = Ok n'
    /\ FS.lookup n' (p ++ [name]) = Some (Dir []).
Proof.
  intros Hl Hn. unfold FS.mkdir. rewrite rev_app_distr. simpl.
  rewrite rev_involutive.
  destruct (alter_ok
              (fun es0 => match Js.assoc name es0 with
                          | Some _ => Throw EEXIST
                          | None => Ok (FS.set name (Dir []) es0)
                          end) p n es (FS.set name (Dir []) es) Hl)
    as (n' & Ha & Hl').
  - now rewrite Hn.
  - exists n'. split; [assumption|].
    rewrite lookup_app, Hl'. simpl. now rewrite assoc_set_same.
Qed.

(** ** What stays on the disk *)

Lemma exists_cons (es : list (string * node)) (s : string) (q : path) :
  FS.exists_ (Dir es) (s :: q) =
  match Js.assoc s es with
  | Some c => FS.exists_ c q
  | None => false
  end.
Proof.
  unfold FS.exists_. simpl. destruct (Js.assoc s es); reflexivity.
Qed.

Lemma exists_file (c : content) (q : path) :
  FS.exists_ (File c) q = true -> q = [].
Proof. destruct q; [reflexivity|discriminate]. Qed.

Lemma covers_refl (n : node) : Spec.covers n n.
Proof. intros q H. exact H. Qed.

Lemma covers_trans (n1 n2 n3 : node) :
  Spec.covers n1 n2 -> Spec.covers n2 n3 -> Spec.covers n1 n3.
Proof. intros H1 H2 q H. apply H2, H1, H. Qed.

(** A rewriting of one directory that keeps every binding, up to what is
    below it, keeps what is on the disk. *)
Lemma alter_covers (f : list (string * node) -> result (list (string * node)))
  :
  (forall es es', f es = Ok es' ->
     forall k x, Js.assoc k es = Some x ->
       exists y, Js.assoc k es' = Some y /\ Spec.covers x y) ->
  forall (p : path) (n n' : node),
    FS.alter n p f = Ok n' -> Spec.covers n n'.
Proof.
  intros Hf p. induction p as [|s0 p IH]; intros n n' Ha q Hq.
  - destruct n as [c|es]; simpl in Ha; [discriminate|].
    destruct (f es) as [es'|e] eqn:E; [|discriminate].
    injection Ha as <-. destruct q as [|s q]; [reflexivity|].
    rewrite exists_cons in Hq |- *.
    destruct (Js.assoc s es) as [x|] eqn:Ex; [|discriminate].
    destruct (Hf _ _ E _ _ Ex) as (y & -> & Hc). now apply Hc.
  - destruct n as [c|es]; simpl in Ha; [discriminate|].
    destruct (Js.assoc s0 es) as [c|] eqn:E; [|discriminate].
    destruct (FS.alter c p f) as [c'|e] eqn:Ec; [|discriminate].
    injection Ha as <-. destruct q as [|s q]; [reflexivity|].
    rewrite exists_cons in Hq |- *.
    destruct (String.eqb_spec s s0) as [->|Hs].
    + rewrite assoc_set_same. rewrite E in Hq. now apply (IH _ _ Ec).
    + now rewrite assoc_set_other.
Qed.

Lemma write_covers (n n' : node) (p : path) (c : content) :
  FS.write n p c = Ok n' -> Spec.covers n n'.
Proof.
  unfold FS.write. destruct (rev p) as [|name rparent]; [discriminate|].
  apply alter_covers. intros es es' H k x Hk.
  destruct (Js.assoc name es) as [[c0|es0]|] eqn:Ea; try discriminate;
    injection H as <-;
    (destruct (String.eqb_spec k name) as [->|Hn];
     [rewrite assoc_set_same|rewrite assoc_set_other by assumption]).
  - rewrite Ea in Hk. injection Hk as <-. eexists. split; [reflexivity|].
    intros q Hq. apply exists_file in Hq. now subst.
  - exists x. split; [assumption|apply covers_refl].
  - rewrite Ea in Hk. discriminate.
  - exists x. split; [assumption|apply covers_refl].
Qed.

Lemma mkdir_covers (n n' : node) (p : path) :
  FS.mkdir n p = Ok n' -> Spec.covers n n'.
Proof.
  unfold FS.mkdir. destruct (rev p) as [|name rparent]; [discriminate|].
  apply alter_covers. intros es es' H k x Hk.
  destruct (Js.assoc name es) as [c0|] eqn:Ea; [discriminate|].
  injection H as <-.
  destruct (String.eqb_spec k name) as [->|Hn]; [congruence|].
  rewrite assoc_set_other by assumption.
  exists x. split; [assumption|apply covers_refl].
Qed.

Lemma mkdir_p_covers (p : path) : forall (n n' : node),
  FS.mkdir_p n p = Ok n' -> Spec.covers n n'.
Proof.
  induction p as [|s p IH]; intros n n' H.
  - destruct n; simpl in H; [discriminate|]. injection H as <-.
    apply covers_refl.
  - destruct n as [c|es]; simpl in H; [discriminate|].
    destruct (FS.mkdir_p _ p) as [c'|e] eqn:E; [|discriminate].
    injection H as <-. intros q Hq. destruct q as [|k q]; [reflexivity|].
    rewrite exists_cons in Hq |- *.
    destruct (String.eqb_spec k s) as [->|Hk].
    + rewrite assoc_set_same.
      destruct (Js.assoc s es) as [c|]; [|discriminate].
      now apply (IH _ _ E).
    + now rewrite assoc_set_other.
Qed.

(** ** The pipeline only goes forward *)

Lemma forward_refl (w : world) : Spec.forward w w.
Proof.
  repeat split.
  - exists []. unfold Spec.added. now rewrite app_nil_r.
  - exists []. now rewrite app_nil_r.
  - apply covers_refl.
Qed.

Lemma forward_trans (w1 w2 w3 : world) :
  Spec.forward w1 w2 -> Spec.forward w2 w3 -> Spec.forward w1 w3.
Proof.
  intros (R1 & A1 & (e1 & L1) & (t1 & Q1) & C1)
         (R2 & A2 & (e2 & L2) & (t2 & Q2) & C2).
  unfold Spec.added in *.
  split; [congruence|]. split; [congruence|].
  split; [|split].
  - exists (e1 ++ e2). unfold Spec.added. now rewrite L2, L1, app_assoc.
  - exists (t1 ++ t2). now rewrite Q2, Q1, app_assoc.
  - eapply covers_trans; eassumption.
Qed.

Lemma extends_refl (w : world) : Spec.extends w w.
Proof. split; [apply forward_refl|reflexivity]. Qed.

Lemma extends_trans (w1 w2 w3 : world) :
  Spec.extends w1 w2 -> Spec.extends w2 w3 -> Spec.extends w1 w3.
Proof.
  intros [F1 T1] [F2 T2]. split; [|congruence].
  eapply forward_trans; eassumption.
Qed.

Lemma since_fl (w w1 w' : world) (e : event) :
  Spec.forward w w1 -> Spec.since w1 w' e -> Spec.since w w' e.
Proof.
  intros (_ & _ & (e1 & L1) & _) (e2 & L2 & Hin).
  unfold Spec.added in *.
  exists (e1 ++ e2). unfold Spec.added. split.
  - now rewrite L2, L1, app_assoc.
  - apply in_or_app. now right.
Qed.

Lemma since_fr (w w1 w' : world) (e : event) :
  Spec.since w w1 e -> Spec.forward w1 w' -> Spec.since w w' e.
Proof.
  intros (e1 & L1 & Hin) (_ & _ & (e2 & L2) & _).
  unfold Spec.added in *.
  exists (e1 ++ e2). unfold Spec.added. split.
  - now rewrite L2, L1, app_assoc.
  - apply in_or_app. now left.
Qed.

Lemma since_l (w w1 w' : world) (e : event) :
  Spec.extends w w1 -> Spec.since w1 w' e -> Spec.since w w' e.
Proof. intros [F _]. now apply since_fl. Qed.

Lemma since_r (w w1 w' : world) (e : event) :
  Spec.since w w1 e -> Spec.extends w1 w' -> Spec.since w w' e.
Proof. intros H [F _]. now apply (since_fr _ w1). Qed.


(** A transfer in flight stays in flight as long as the run goes
    forward. *)
Lemma started_l (w w1 : world) (t : task) :
  Spec.forward w w1 -> In t (tasks w) -> In t (tasks w1).
Proof.
  intros (_ & _ & _ & (ts & Q) & _) H. rewrite Q.
  apply in_or_app. now left.
Qed.

Lemma grows_ret {A} (a : A) : Spec.grows (ret a).
Proof. intros w r w' H. injection H as _ <-. apply extends_refl. Qed.

Lemma grows_throw {A} (e : error) : Spec.grows (@throw A e).
Proof. intros w r w' H. injection H as _ <-. apply extends_refl. Qed.

Lemma grows_lift {A} (x : result A) : Spec.grows (lift x).
Proof. intros w r w' H. injection H as _ <-. apply extends_refl. Qed.

Lemma grows_bind {A B} (m : M A) (k : A -> M B) :
  Spec.grows m -> (forall a, Spec.grows (k a)) -> Spec.grows (bind m k).
Proof.
  intros Hm Hk w r w' H. apply bind_inv in H.
  destruct H as [(a & w1 & H1 & H2)|(e & H1 & _)].
  - eapply extends_trans; [eapply Hm|eapply Hk]; eassumption.
  - eapply Hm; eassumption.
Qed.

Lemma grows_try_catch {A} (m : M A) (h : error -> M A) :
  Spec.grows m -> (forall e, Spec.grows (h e)) -> Spec.grows (try_catch m h).
Proof.
  intros Hm Hh w r w' H. unfold try_catch in H.
  destruct (m w) as [[a|e] w1] eqn:E.
  - injection H as <- <-. eapply Hm; eassumption.
  - eapply extends_trans; [eapply Hm|eapply Hh]; eassumption.
Qed.

Lemma grows_try_await {A} (m : M A) (h : error -> M A) :
  Spec.grows m -> (forall e, Spec.grows (h e)) -> Spec.grows (try_await m h).
Proof.
  intros Hm Hh w r w' H. unfold try_await in H.
  destruct (m w) as [[a|e] w1] eqn:E.
  - injection H as <- <-. eapply Hm; eassumption.
  - destruct e;
      try (eapply extends_trans; [eapply Hm|eapply Hh]; eassumption).
    injection H as <- <-. eapply Hm; eassumption.
Qed.

Lemma grows_existsSync (p : path) : Spec.grows (existsSync p).
Proof. intros w r w' H. injection H as _ <-. apply extends_refl. Qed.

Lemma grows_readFileSync (p : path) : Spec.grows (readFileSync p).
Proof. intros w r w' H. injection H as _ <-. apply extends_refl. Qed.

Lemma grows_get_this : Spec.grows Downloader.get_this.
Proof. intros w r w' H. injection H as _ <-. apply extends_refl. Qed.

(** A change of the disk that loses nothing. *)
Lemma grows_mutate (e : event) (f : node -> result node) :
  (forall n n', f n = Ok n' -> Spec.covers n n') ->
  Spec.grows (mutate e f).
Proof.
  intros Hf w r w' H. unfold mutate in H.
  destruct (f (fs w)) as [n|err] eqn:E; injection H as _ <-.
  - repeat split; simpl.
    + now exists [e].
    + exists []. now rewrite app_nil_r.
    + now apply Hf.
  - apply extends_refl.
Qed.

Lemma grows_writeFileSync (p : path) (c : content) :
  Spec.grows (writeFileSync p c).
Proof. apply grows_mutate. intros n n'. apply write_covers. Qed.

Lemma grows_mkdirSync (p : path) : Spec.grows (mkdirSync p).
Proof. apply grows_mutate. intros n n'. apply mkdir_covers. Qed.

Lemma grows_mkdirSync_recursive (p : path) :
  Spec.grows (mkdirSync_recursive p).
Proof. apply grows_mutate. intros n n'. apply mkdir_p_covers. Qed.

Lemma grows_request (u : value) (dest : path) :
  Spec.grows (Downloader.request u dest).
Proof.
  intros w r w' H. unfold Downloader.request in H.
  assert (G : forall e, Spec.extends w (with_log w (log w ++ [e]))).
  { intros e. repeat split; simpl.
    - now exists [e].
    - exists []. now rewrite app_nil_r.
    - apply covers_refl. }
  destruct u; try destruct (Js.truthy _); try destruct (Downloader.sendable _ _);
    injection H as _ <-; first [apply G|apply extends_refl].
Qed.

Lemma grows_pipe (u : string) (dest : path) :
  Spec.grows (Downloader.pipe u dest).
Proof.
  intros w r w' H. unfold Downloader.pipe in H.
  destruct (remote w u) as [body|].
  - destruct (writeFileSync dest body w) as [[[]|e] w1] eqn:E;
      injection H as _ <-; eapply grows_writeFileSync; eassumption.
  - injection H as _ <-. apply extends_refl.
Qed.

Lemma grows_unheard : Spec.grows Downloader.unheard.
Proof.
  intros w r w' H. unfold Downloader.unheard in H.
  destruct (remote w Downloader.localhost); injection H as _ <-;
    apply extends_refl.
Qed.

Lemma grows_start (u : value) (dir : path) (name : string)
  (k : option string) :
  Spec.grows (Downloader.start u dir name k).
Proof.
  intros w r w' H. unfold Downloader.start in H.
  destruct (Downloader.request u (Path.join dir [name]) w)
    as [[[us|]|e] w1] eqn:E; injection H as _ <-;
    try (eapply grows_request; eassumption).
  eapply extends_trans; [eapply grows_request; eassumption|].
  repeat split; simpl.
  - exists []. unfold Spec.added. now rewrite app_nil_r.
  - eexists. reflexivity.
  - apply covers_refl.
Qed.

Ltac grows_steps :=
  repeat first
    [ apply grows_ret
    | apply grows_throw
    | apply grows_lift
    | apply grows_existsSync
    | apply grows_readFileSync
    | apply grows_get_this
    | apply grows_writeFileSync
    | apply grows_mkdirSync
    | apply grows_mkdirSync_recursive
    | apply grows_request
    | apply grows_pipe
    | apply grows_unheard
    | apply grows_start
    | apply grows_bind; [|intro]
    | apply grows_try_await; [|intro]
    | apply grows_try_catch; [|intro]
    | match goal with
      | |- Spec.grows (if ?c then _ else _) => destruct c
      | |- Spec.grows (match ?c with _ => _ end) => destruct c
      end ].

Lemma grows_down (u : value) (dir : path) (name : string) :
  Spec.grows (Downloader.down u dir name).
Proof. unfold Downloader.down. grows_steps. Qed.

Lemma grows_callback (m : M bool) :
  Spec.grows m -> Spec.grows (Downloader.callback m).
Proof. intros H. unfold Downloader.callback. now grows_steps. Qed.

Lemma grows_forEach {A} (f : A -> M unit) (l : list A) :
  (forall x, Spec.grows (f x)) -> Spec.grows (Downloader.forEach f l).
Proof.
  intros Hf. induction l as [|x l IH]; simpl; [apply grows_ret|].
  apply grows_bind; [apply Hf|intros _; apply IH].
Qed.

Lemma grows_forEachAsync {A} (f : A -> M bool) (l : list A) :
  (forall x, Spec.grows (f x)) -> Spec.grows (Downloader.forEachAsync f l).
Proof.
  intros Hf. induction l as [|x l IH]; simpl; [apply grows_ret|].
  apply grows_bind; [apply grows_callback, Hf|intros b].
  apply grows_bind; [apply IH|intros b']. apply grows_ret.
Qed.

Lemma grows_promise_async (body : M settled) :
  Spec.grows body -> Spec.grows (Downloader.promise_async body).
Proof.
  intros Hb w r w' H. unfold Downloader.promise_async in H.
  destruct (body w) as [[s|e] w1] eqn:E; injection H as _ <-;
    eapply Hb; eassumption.
Qed.

Lemma grows_promise_sync (body : M settled) :
  Spec.grows body -> Spec.grows (Downloader.promise_sync body).
Proof.
  intros Hb w r w' H. unfold Downloader.promise_sync in H.
  destruct (body w) as [[s|e] w1] eqn:E; injection H as _ <-;
    eapply Hb; eassumption.
Qed.

Lemma grows_await (p : M settled) :
  Spec.grows p -> Spec.grows (Downloader.await p).
Proof. intros H. unfold Downloader.await. now grows_steps. Qed.

Lemma grows_downloadAsset (root : path) (fileName : value) :
  Spec.grows (Downloader.downloadAsset root fileName).
Proof. unfold Downloader.downloadAsset. grows_steps. Qed.

Lemma grows_downloadLibrary (root : path) (element : value) :
  Spec.grows (Downloader.downloadLibrary root element).
Proof. unfold Downloader.downloadLibrary. grows_steps. Qed.

Lemma grows_downloadNative (root : path) (element : value) :
  Spec.grows (Downloader.downloadNative root element).
Proof. unfold Downloader.downloadNative. grows_steps. Qed.

Lemma grows_downloadLibraries : Spec.grows Downloader.downloadLibraries.
Proof.
  unfold Downloader.downloadLibraries. apply grows_promise_sync.
  grows_steps; try apply grows_forEachAsync; intros;
    try apply grows_downloadLibrary; grows_steps.
Qed.

Lemma grows_downloadNatives : Spec.grows Downloader.downloadNatives.
Proof.
  unfold Downloader.downloadNatives. apply grows_promise_sync.
  grows_steps; try apply grows_forEachAsync; intros;
    try apply grows_downloadNative; grows_steps.
Qed.

Lemma grows_downloadVersion : Spec.grows Downloader.downloadVersion.
Proof.
  unfold Downloader.downloadVersion. apply grows_promise_async.
  grows_steps; apply grows_down.
Qed.

Lemma grows_downloadClient_body (root : path) (version : string)
  (client : value) :
  Spec.grows
    (try_await
       (Downloader.down client (Path.join root [Downloader.versions; version])
          (version +++ ".jar") ;;
        ret (Resolved ("CLIENTE DESCARGADO - " +++ version +++ ".jar")))
       (fun _ => ret (Rejected (JsError Downloader.clientError)))).
Proof. grows_steps; apply grows_down. Qed.

Lemma grows_downloadAssets : Spec.grows Downloader.downloadAssets.
Proof.
  unfold Downloader.downloadAssets, Downloader.assetIndexUrl.
  apply grows_promise_async.
  grows_steps; try apply grows_down; try apply grows_forEach; intros;
    grows_steps; try apply grows_downloadAsset.
Qed.

(** ** One transfer *)

Lemma alter_error (f : list (string * node) -> result (list (string * node)))
  (p : path) : forall (n : node) (e : error),
  FS.alter n p f = Throw e ->
  e = ENOTDIR \/ e = ENOENT \/ exists es, f es = Throw e.
Proof.
  induction p as [|s p IH]; intros n e H.
  - destruct n as [c|es]; simpl in H; [injection H as <-; now left|].
    destruct (f es) as [es'|e'] eqn:E; [discriminate|].
    injection H as <-. right. right. now exists es.
  - destruct n as [c|es]; simpl in H; [injection H as <-; now left|].
    destruct (Js.assoc s es) as [c|]; [|injection H as <-; right; now left].
    destruct (FS.alter c p f) as [c'|e'] eqn:E; [discriminate|].
    injection H as <-. now apply (IH c).
Qed.

(** A write that fails is an exception, which a handler sees. *)
Lemma write_error (n : node) (p : path) (c : content) (e : error) :
  FS.write n p c = Throw e -> e <> Unsettled.
Proof.
  unfold FS.write. destruct (rev p) as [|name rparent].
  - intros H. injection H as <-. discriminate.
  - intros H. apply alter_error in H.
    destruct H as [->|[->|(es & H)]]; try discriminate.
    destruct (Js.assoc name es) as [[c0|es0]|]; try discriminate.
    injection H as <-. discriminate.
Qed.

Lemma prefix_append (a b : string) : prefix a (a +++ b) = true.
Proof.
  induction a as [|c a IH]; simpl; [now destruct b|].
  destruct (ascii_dec c c) as [_|N]; [exact IH|now elim N].
Qed.

(** The manifest and every object are asked of hosts that parse. *)
Lemma sendable_meta (w : world) :
  Downloader.sendable w Downloader.url_meta = true.
Proof. reflexivity. Qed.

Lemma sendable_asset (w : world) (h : string) :
  Downloader.sendable w (Downloader.assetUrl h) = true.
Proof.
  unfold Downloader.sendable, Downloader.known, Downloader.assetUrl.
  rewrite <- append_assoc, prefix_append. now rewrite orb_true_r.
Qed.

Lemma down_unfold (u : value) (dir : path) (name : string) (w : world) :
  Downloader.down u dir name w =
  let dest := Path.join dir [name] in
  match u with
  | VStr us =>
      if Downloader.sendable w us then
        let w1 := with_log w (log w ++ [EvGet us dest]) in
        match remote w us with
        | None => (Throw NetworkError, w1)
        | Some body =>
            match FS.write (fs w) dest body with
            | Ok n =>
                (match body with Truncated => Throw Unsettled | _ => Ok tt end,
                 with_log (with_fs w1 n) (log w1 ++ [EvWrite dest body]))
            | Throw e => (Throw e, w1)
            end
        end
      else (Throw TypeError, w)
  | _ =>
      if Js.truthy u then (Throw TypeError, w)
      else
        let w1 := with_log w (log w ++ [EvGet Downloader.localhost []]) in
        match remote w Downloader.localhost with
        | None => (Throw NetworkError, w1)
        | Some _ => (Throw Unsettled, w1)
        end
  end.
Proof.
  unfold Downloader.down, bind, Downloader.request, Downloader.pipe,
    Downloader.unheard, writeFileSync, mutate.
  destruct u as [| |b|z|us|l|fs0]; simpl;
    try (destruct (remote w Downloader.localhost); reflexivity);
    try (destruct b; simpl; try reflexivity;
         destruct (remote w Downloader.localhost); reflexivity);
    try (destruct (z =? 0)%Z; simpl; try reflexivity;
         destruct (remote w Downloader.localhost); reflexivity).
  destruct (Downloader.sendable w us); [|reflexivity]. simpl.
  destruct (remote w us) as [body|]; [|reflexivity].
  destruct (FS.write (fs w) (Path.join dir [name]) body); reflexivity.
Qed.

Lemma down_ok_inv (u : value) (dir : path) (name : string) (w w' : world) :
  Downloader.down u dir name w = (Ok tt, w') ->
  exists us body,
    u = VStr us
    /\ Downloader.sendable w us = true
    /\ remote w us = Some body
    /\ body <> Truncated
    /\ FS.write (fs w) (Path.join dir [name]) body = Ok (fs w')
    /\ remote w' = remote w
    /\ this w' = this w
    /\ tasks w' = tasks w
    /\ log w' = log w ++ [EvGet us (Path.join dir [name]);
                          EvWrite (Path.join dir [name]) body].
Proof.
  rewrite down_unfold. cbv zeta.
  destruct u as [| |b|z|us|l|fs0];
    try (destruct (Js.truthy _); [discriminate|];
         destruct (remote w Downloader.localhost); discriminate).
  destruct (Downloader.sendable w us) eqn:Es; [|discriminate].
  destruct (remote w us) as [body|] eqn:Er; [|discriminate].
  destruct (FS.write (fs w) (Path.join dir [name]) body) as [n|e] eqn:Ew;
    [|discriminate].
  intros H. exists us, body.
  destruct body; try discriminate H; injection H as <-; simpl;
    rewrite <- app_assoc; repeat split; try assumption; discriminate.
Qed.

(** A transfer that does not succeed: either it never ends, the answer
    cut short or heard by nobody, or it fails, and then nothing was
    written. *)
Lemma down_throws (u : value) (dir : path) (name : string)
  (w : world) (e : error) (w' : world) :
  Downloader.down u dir name w = (Throw e, w') ->
  Spec.extends w w'
  /\ ((e = Unsettled
       /\ ((exists us,
              u = VStr us /\ remote w us = Some Truncated
              /\ FS.write (fs w) (Path.join dir [name]) Truncated = Ok (fs w')
              /\ log w' = log w ++ [EvGet us (Path.join dir [name]);
                                    EvWrite (Path.join dir [name]) Truncated])
           \/ (Js.as_string u = Throw TypeError /\ fs w' = fs w
               /\ log w' = log w ++ [EvGet Downloader.localhost []])))
      \/ (e <> Unsettled /\ fs w' = fs w
          /\ (w' = w
              \/ (exists us,
                    u = VStr us
                    /\ log w' = log w ++ [EvGet us (Path.join dir [name])])
              \/ (Js.as_string u = Throw TypeError
                  /\ log w' = log w ++ [EvGet Downloader.localhost []])))).
Proof.
  intros H. split; [eapply grows_down; eassumption|].
  rewrite down_unfold in H. cbv zeta in H.
  destruct (Js.as_string u) as [us|e0] eqn:Eu.
  - destruct u; try discriminate Eu. injection Eu as ->.
    destruct (Downloader.sendable w us).
    2:{ injection H as <- <-. right. repeat split; [discriminate|now left]. }
    destruct (remote w us) as [body|] eqn:Er.
    2:{ injection H as <- <-. right. repeat split; [discriminate|].
        right. left. now exists us. }
    destruct (FS.write (fs w) (Path.join dir [name]) body) as [n|e'] eqn:Ew.
    + destruct body; try discriminate H. injection H as <- <-.
      left. split; [reflexivity|]. left. exists us. simpl.
      rewrite <- app_assoc. repeat split; assumption.
    + injection H as <- <-. right. split; [eapply write_error; eassumption|].
      split; [reflexivity|]. right. left. now exists us.
  - assert (E0 : e0 = TypeError) by (destruct u; now inversion Eu). subst e0.
    assert (H' : (if Js.truthy u then (Throw TypeError, w)
                  else
                    match remote w Downloader.localhost with
                    | None =>
                        (Throw NetworkError,
                         with_log w (log w ++ [EvGet Downloader.localhost []]))
                    | Some _ =>
                        (Throw Unsettled,
                         with_log w (log w ++ [EvGet Downloader.localhost []]))
                    end) = (@Throw unit e, w')).
    { destruct u; try discriminate Eu; exact H. }
    clear H. destruct (Js.truthy u).
    + injection H' as <- <-. right. repeat split; [discriminate|now left].
    + destruct (remote w Downloader.localhost); injection H' as <- <-.
      * left. split; [reflexivity|]. right. repeat split.
      * right. repeat split; [discriminate|]. right. right. now split.
Qed.

(** What [start] leaves: the request, when one is sent, and the transfer
    in flight, when its answer will be piped. *)
Lemma start_unfold (u : value) (dir : path) (name : string)
  (k : option string) (w : world) :
  Downloader.start u dir name k w =
  let dest := Path.join dir [name] in
  (Ok tt,
   match u with
   | VStr us =>
       if Downloader.sendable w us then
         with_tasks (with_log w (log w ++ [EvGet us dest]))
           (tasks w ++ [{| task_url := us; task_dest := dest;
                           task_unpack := k |}])
       else w
   | _ =>
       if Js.truthy u then w
       else with_log w (log w ++ [EvGet Downloader.localhost []])
   end).
Proof.
  unfold Downloader.start, Downloader.request.
  destruct u as [| |b|z|us|l|fs0]; simpl; try reflexivity;
    try (now destruct b); try (now destruct (z =? 0)%Z).
  now destruct (Downloader.sendable w us).
Qed.

Lemma start_ok (u : value) (dir : path) (name : string) (k : option string)
  (w : world) (r : result unit) (w' : world) :
  Downloader.start u dir name k w = (r, w') -> r = Ok tt.
Proof. rewrite start_unfold. intros H. now injection H as <- _. Qed.

(** A transfer asked of a URL that parses is in flight. *)
Lemma start_sent (us : string) (dir : path) (name : string)
  (k : option string) (w : world) (r : result unit) (w' : world) :
  Downloader.sendable w us = true ->
  Downloader.start (VStr us) dir name k w = (r, w') ->
  log w' = log w ++ [EvGet us (Path.join dir [name])]
  /\ tasks w' = tasks w ++ [{| task_url := us;
                               task_dest := Path.join dir [name];
                               task_unpack := k |}]
  /\ fs w' = fs w.
Proof.
  intros Hs. rewrite start_unfold. cbv zeta. rewrite Hs.
  intros H. injection H as _ <-. repeat split.
Qed.


(** ** Directories stay directories *)







(** ** Assets *)


Lemma assetDir_file (root : path) (h : string) :
  Path.join (Downloader.assetDir root h) [h] = Spec.assetPath root h.
Proof.
  unfold Downloader.assetDir, Spec.assetPath. now rewrite join_join.
Qed.

Lemma assetDir_hex (root : path) (h : string) :
  Spec.hex h = true ->
  Downloader.assetDir root h
  = (root ++ ["assets"; "objects"]) ++ [Str.substring0 2 h].
Proof.
  intros H. unfold Downloader.assetDir.
  change [Downloader.assets; "objects"; Str.substring0 2 h]
    with (["assets"; "objects"] ++ [Str.substring0 2 h]).
  rewrite <- join_join.
  rewrite (join_plain _ (Str.substring0 2 h))
    by now apply hex_plain, hex_shard.
  change (Path.join root ["assets"; "objects"])
    with ((root ++ ["assets"]) ++ ["objects"]).
  now rewrite <- !app_assoc.
Qed.


Lemma mutate_ok_inv (e : event) (f : node -> result node) (w w' : world) :
  mutate e f w = (Ok tt, w') ->
  exists n, f (fs w) = Ok n /\ w' = with_log (with_fs w n) (log w ++ [e]).
Proof.
  unfold mutate. destruct (f (fs w)) as [n|err]; [|discriminate].
  intros H. injection H as <-. now exists n.
Qed.

(** An optional change of the disk before a step. *)
Lemma guarded_ok (ex : bool) (e : event) (f : node -> result node)
  (w w' : world) :
  (forall n n', f n = Ok n' -> Spec.covers n n') ->
  (if negb ex then mutate e f else ret tt) w = (Ok tt, w') ->
  Spec.extends w w'
  /\ tasks w' = tasks w
  /\ ((ex = true /\ w' = w)
      \/ (ex = false
          /\ exists n, f (fs w) = Ok n
                       /\ w' = with_log (with_fs w n) (log w ++ [e]))).
Proof.
  intros Hf H. destruct ex; simpl in H.
  - injection H as <-. split; [apply extends_refl|]. split; [reflexivity|].
    now left.
  - split; [eapply grows_mutate; eassumption|].
    apply mutate_ok_inv in H. destruct H as (n & Hn & ->).
    split; [reflexivity|]. right. split; [reflexivity|]. now exists n.
Qed.

(** One round of the loop of [downloadAssets]: the object is asked for
    and its transfer is in flight. *)
Lemma downloadAsset_ok (root : path) (fileName : value) (w w' : world) :
  Downloader.downloadAsset root fileName w = (Ok tt, w') ->
  exists h,
    Js.get fileName "hash" = Ok (VStr h)
    /\ tasks w' = tasks w ++ [Spec.assetTask root h]
    /\ Spec.since w w' (EvGet (Downloader.assetUrl h) (Spec.assetPath root h)).
Proof.
  unfold Downloader.downloadAsset. intros H.
  apply bind_ok_inv in H. destruct H as (hv & ? & H0 & H).
  apply lift_inv in H0. destruct H0 as [Hh ->].
  apply bind_ok_inv in H. destruct H as (h & ? & H0 & H).
  apply lift_inv in H0. destruct H0 as [Hs ->].
  destruct hv; try discriminate. injection Hs as <-.
  apply bind_ok_inv in H. destruct H as (ex & ? & H0 & H).
  injection H0 as _ <-.
  apply bind_ok_inv in H. destruct H as ([] & w1 & Hmk & H).
  unfold mkdirSync in Hmk.
  apply guarded_ok in Hmk; [|intros n n'; apply mkdir_covers].
  destruct Hmk as (E1 & T1 & _).
  fold (Downloader.assetDir root h) in H. fold (Downloader.assetUrl h) in H.
  apply start_sent in H; [|apply sendable_asset].
  rewrite assetDir_file in H. destruct H as (Hl & Ht & _).
  exists h. split; [now symmetry|]. split.
  - now rewrite Ht, T1.
  - eapply since_l; [exact E1|]. eexists. split; [exact Hl|now left].
Qed.

Lemma assets_loop (root : path) (objects : value) (l : list value) :
  forall w w',
    Downloader.forEach
      (fun fileName =>
         lift (Downloader.hasOwn objects) ;;
         Downloader.downloadAsset root fileName) l w = (Ok tt, w') ->
    exists hashes,
      Forall2 (fun fileName h => Js.get fileName "hash" = Ok (VStr h))
        l hashes
      /\ tasks w' = tasks w ++ map (Spec.assetTask root) hashes
      /\ (forall h, In h hashes ->
            Spec.since w w'
              (EvGet (Downloader.assetUrl h) (Spec.assetPath root h)))
      /\ (l <> [] -> Downloader.hasOwn objects = Ok tt).
Proof.
  induction l as [|x l IH]; intros w w' H.
  - injection H as <-. exists []. simpl. rewrite app_nil_r.
    repeat split; [constructor|intros h []|congruence].
  - simpl in H. apply bind_ok_inv in H. destruct H as ([] & w1 & Hx & H).
    apply bind_ok_inv in Hx. destruct Hx as ([] & ? & H0 & Hx).
    apply lift_inv in H0. destruct H0 as [Hown ->].
    pose proof (grows_downloadAsset _ _ _ _ _ Hx) as E1.
    apply downloadAsset_ok in Hx. destruct Hx as (h & Hh & Ht & Hs).
    pose proof H as E2.
    apply (grows_forEach _ _
             (fun y => grows_bind _ _ (grows_lift _)
                         (fun _ => grows_downloadAsset root y))) in E2.
    destruct (IH _ _ H) as (hs & Hall & Hts & Hsince & _).
    exists (h :: hs). split; [now constructor|]. split; [|split].
    + simpl. now rewrite Hts, Ht, <- app_assoc.
    + intros h' [<-|Hin].
      * eapply since_r; eassumption.
      * eapply since_l; [exact E1|]. now apply Hsince.
    + intros _. now symmetry.
Qed.

Lemma promise_async_resolved (body : M settled) (w w' : world)
  (msg : string) :
  Downloader.promise_async body w = (Ok (Resolved msg), w') ->
  body w = (Ok (Resolved msg), w').
Proof.
  unfold Downloader.promise_async.
  destruct (body w) as [[s|e] w1]; intros H;
    [injection H as <- <-; reflexivity|discriminate].
Qed.

Lemma promise_sync_resolved (body : M settled) (w w' : world)
  (msg : string) :
  Downloader.promise_sync body w = (Ok (Resolved msg), w') ->
  body w = (Ok (Resolved msg), w').
Proof.
  unfold Downloader.promise_sync.
  destruct (body w) as [[s|e] w1]; intros H;
    [injection H as <- <-; reflexivity|discriminate].
Qed.

Lemma assetIndexUrl_inv (w w' : world) (u : value) :
  Downloader.assetIndexUrl w = (Ok u, w') ->
  w' = w
  /\ exists ai,
       Js.get (this_file (this w)) "assetIndex" = Ok ai
       /\ Js.get ai "url" = Ok u.
Proof.
  unfold Downloader.assetIndexUrl. intros H.
  apply bind_ok_inv in H. destruct H as (t & ? & H0 & H).
  injection H0 as <- <-.
  apply bind_ok_inv in H. destruct H as (ai & ? & H0 & H).
  apply lift_inv in H0. destruct H0 as [Hai ->].
  apply lift_inv in H. destruct H as [Hu ->].
  split; [reflexivity|]. exists ai. split; symmetry; assumption.
Qed.

(** What a resolved [downloadAssets] has done: the index was fetched
    twice and parsed, and for every entry of its objects, in turn, the
    transfer of the object of that hash is in flight. *)
Lemma downloadAssets_resolved (w w' : world) (msg : string) :
  Downloader.downloadAssets w = (Ok (Resolved msg), w') ->
  exists ai indexUrl index objects hashes,
    Js.get (this_file (this w)) "assetIndex" = Ok ai
    /\ Js.get ai "url" = Ok (VStr indexUrl)
    /\ remote w indexUrl = Some (Json index)
    /\ Js.get index "objects" = Ok objects
    /\ Spec.since w w'
         (EvGet indexUrl
            (Path.join (this_root (this w))
               [Downloader.assets; "indexes";
                this_version (this w) +++ ".json"]))
    /\ Spec.since w w'
         (EvGet indexUrl
            (Path.join (this_root (this w))
               [Downloader.cache; "json"; this_version (this w) +++ ".json"]))
    /\ Forall2 (fun fileName h => Js.get fileName "hash" = Ok (VStr h))
         (Downloader.own_entries objects) hashes
    /\ tasks w' = tasks w ++ map (Spec.assetTask (this_root (this w))) hashes
    /\ (forall h, In h hashes ->
          Spec.since w w'
            (EvGet (Downloader.assetUrl h)
               (Spec.assetPath (this_root (this w)) h))).
Proof.
  intros H.
  unfold Downloader.downloadAssets in H. apply promise_async_resolved in H.
  apply bind_ok_inv in H. destruct H as (t & ? & H0 & H).
  injection H0 as <- <-.
  apply bind_ok_inv in H. destruct H as (ex & ? & H0 & H).
  injection H0 as _ <-.
  apply bind_ok_inv in H. destruct H as ([] & wa & Hmk & H).
  unfold mkdirSync_recursive in Hmk.
  apply guarded_ok in Hmk; [|intros n n'; apply mkdir_p_covers].
  destruct Hmk as (Ea & Ta & _).
  apply bind_ok_inv in H. destruct H as (u & ? & Hu & H).
  apply assetIndexUrl_inv in Hu. destruct Hu as (-> & ai & Hai & Hurl).
  apply bind_ok_inv in H. destruct H as ([] & wb & Hdown1 & H).
  pose proof (grows_down _ _ _ _ _ _ Hdown1) as Eb.
  apply down_ok_inv in Hdown1.
  destruct Hdown1
    as (iu & body1 & -> & _ & Hr1 & _ & Hw1 & _ & _ & Tb & Hl1).
  rewrite join_join in Hw1, Hl1. simpl app in Hw1, Hl1.
  apply bind_ok_inv in H. destruct H as (u' & ? & Hu' & H).
  apply assetIndexUrl_inv in Hu'. destruct Hu' as (-> & ai' & Hai' & Hurl').
  apply bind_ok_inv in H. destruct H as ([] & wc & Hdown2 & H).
  pose proof (grows_down _ _ _ _ _ _ Hdown2) as Ec.
  apply down_ok_inv in Hdown2.
  destruct Hdown2
    as (iu' & body2 & -> & _ & Hr2 & _ & Hw2 & _ & _ & Tc & Hl2).
  rewrite join_join in Hw2, Hl2. simpl app in Hw2, Hl2.
  pose proof Ea as [(Hra & _) Hta]. pose proof Eb as [(Hrb & _) Htb].
  rewrite Hta in Hai. rewrite Htb, Hta in Hai'.
  rewrite Hai in Hai'. injection Hai' as <-.
  rewrite Hurl in Hurl'. injection Hurl' as <-.
  rewrite Hrb, Hr1 in Hr2. injection Hr2 as <-.
  apply bind_ok_inv in H. destruct H as (c & ? & H0 & H).
  injection H0 as Hread <-.
  apply bind_ok_inv in H. destruct H as (assetFile & ? & H0 & H).
  apply lift_inv in H0. destruct H0 as [Hparse ->].
  assert (Hc : c = body1).
  { destruct (list_eq_dec string_dec
                (Path.join (this_root (this w))
                   [Downloader.assets; "indexes";
                    this_version (this w) +++ ".json"])
                (Path.join (this_root (this w))
                   [Downloader.cache; "json";
                    this_version (this w) +++ ".json"])) as [E|E].
    - rewrite E in Hread. rewrite (write_read _ _ _ _ Hw2) in Hread.
      now injection Hread as <-.
    - rewrite (write_frame _ _ _ _ _ Hw2 E) in Hread.
      rewrite (write_read _ _ _ _ Hw1) in Hread. now injection Hread as <-. }
  subst c. destruct body1 as [s|index|es|]; try discriminate.
  injection Hparse as ->.
  apply bind_ok_inv in H. destruct H as (ex2 & ? & H0 & H).
  injection H0 as _ <-.
  apply bind_ok_inv in H. destruct H as ([] & wd & Hmk2 & H).
  unfold mkdirSync in Hmk2.
  apply guarded_ok in Hmk2; [|intros n n'; apply mkdir_covers].
  destruct Hmk2 as (Ed & Td & _).
  apply bind_ok_inv in H. destruct H as (objects & ? & H0 & H).
  apply lift_inv in H0. destruct H0 as [Hobj ->].
  apply bind_ok_inv in H. destruct H as ([] & we & Hloop & H).
  injection H as _ ->.
  assert (Ewd : Spec.extends w wd).
  { eapply extends_trans; [exact Ea|].
    eapply extends_trans; [exact Eb|].
    eapply extends_trans; [exact Ec|exact Ed]. }
  pose proof Hloop as Eloop.
  apply (grows_forEach _ _
           (fun y => grows_bind _ _ (grows_lift _)
                       (fun _ => grows_downloadAsset (this_root (this w)) y)))
    in Eloop.
  apply assets_loop in Hloop.
  destruct Hloop as (hashes & Hall & Hts & Hsince & _).
  exists ai, iu, index, objects, hashes.
  split; [assumption|]. split; [assumption|].
  split; [now rewrite <- Hra|]. split; [symmetry; assumption|].
  split; [|split; [|split; [exact Hall|split]]].
  - eapply since_l; [exact Ea|]. eapply since_r.
    + eexists. split; [exact Hl1|now left].
    + eapply extends_trans; [exact Ec|].
      eapply extends_trans; [exact Ed|exact Eloop].
  - eapply since_l; [eapply extends_trans; [exact Ea|exact Eb]|].
    eapply since_r.
    + eexists. split; [exact Hl2|now left].
    + eapply extends_trans; [exact Ed|exact Eloop].
  - rewrite Hts. f_equal. congruence.
  - intros h Hin. eapply since_l; [exact Ewd|]. now apply Hsince.
Qed.

(** ** Where an object is stored *)







(** ** Natives *)

Lemma selectNatives_order (el natives : value) :
  Downloader.selectNatives el = Ok natives ->
  Js.typeof_object el = true ->
  exists a,
    Js.get el "natives-windows" = Ok a
    /\ (Js.truthy a = true -> natives = a)
    /\ (Js.truthy a = false -> Js.get el "natives-windows-64" = Ok natives).
Proof.
  unfold Downloader.selectNatives. intros H Ht. rewrite Ht in H.
  destruct (Js.get el "natives-windows") as [a|] eqn:Ea; [|discriminate].
  exists a. split; [reflexivity|].
  destruct (Js.truthy a); split; intros E; try discriminate.
  - now injection H as <-.
  - assumption.
Qed.

Lemma truthy_get (v : value) (k : string) :
  Js.truthy v = true -> exists x, Js.get v k = Ok x.
Proof. destruct v; simpl; try discriminate; eauto. Qed.

(** Making directories changes no file. *)
Lemma mkdir_p_read (p : path) : forall (n n' : node) (q : path) (c : content),
  FS.mkdir_p n p = Ok n' -> FS.read n q = Ok c -> FS.read n' q = Ok c.
Proof.
  induction p as [|s p IH]; intros n n' q c H Hq.
  - destruct n; simpl in H; [discriminate|]. now injection H as <-.
  - destruct n as [c0|es]; simpl in H; [discriminate|].
    destruct (FS.mkdir_p _ p) as [c'|e] eqn:E; [|discriminate].
    injection H as <-. destruct q as [|k q]; [discriminate|].
    rewrite read_cons in Hq |- *.
    destruct (String.eqb_spec k s) as [->|Hk].
    + rewrite assoc_set_same.
      destruct (Js.assoc s es) as [c1|]; [|discriminate].
      now apply (IH _ _ _ _ E).
    + now rewrite assoc_set_other.
Qed.

Lemma write_keeps_file (n n' : node) (p q : path) (c c' : content) :
  FS.write n p c' = Ok n' -> FS.read n q = Ok c ->
  exists c'', FS.read n' q = Ok c''.
Proof.
  intros H Hq. destruct (list_eq_dec string_dec q p) as [->|N].
  - exists c'. eapply write_read; eassumption.
  - exists c. now rewrite (write_frame _ _ _ _ _ H).
Qed.

(** Unpacking removes no file. *)
Lemma extract_keeps_file (target : path) (entries : list (string * string)) :
  forall (n n' : node) (stop : option error) (q : path) (c : content),
    Downloader.extract_entries n target entries = (n', stop) ->
    FS.read n q = Ok c ->
    exists c', FS.read n' q = Ok c'.
Proof.
  induction entries as [|[name bytes] t IH]; intros n n' stop q c H Hq.
  - injection H as <- _. eauto.
  - simpl in H.
    destruct (Downloader.extract_entry n target name bytes) as [n1|e] eqn:E.
    2:{ injection H as <- _. eauto. }
    assert (H1 : exists c1, FS.read n1 q = Ok c1).
    { unfold Downloader.extract_entry in E.
      destruct (Downloader.is_folder name).
      - exists c. eapply mkdir_p_read; eassumption.
      - destruct (FS.lookup n (target ++ Downloader.canonical name))
          as [[c0|es0]|];
          try (injection E as <-; now eauto);
          (destruct (FS.mkdir_p n _) as [n0|e0] eqn:Em; [|discriminate];
           eapply write_keeps_file;
           [exact E|eapply mkdir_p_read; eassumption]). }
    destruct H1 as [c1 H1]. eapply IH; eassumption.
Qed.

(** A file that is there can be deleted. *)
Lemma unlink_ok (n : node) (q : path) (c : content) :
  FS.read n q = Ok c -> q <> [] -> exists n', FS.unlink n q = Ok n'.
Proof.
  intros H Hq. unfold FS.unlink.
  destruct (rev q) as [|name rparent] eqn:E.
  { destruct q; [contradiction|]. simpl in E.
    destruct (rev q); discriminate. }
  apply path_unsnoc in E. subst q. unfold FS.read in H.
  rewrite lookup_app in H.
  destruct (FS.lookup n (rev rparent)) as [[c0|es]|] eqn:El;
    try discriminate.
  simpl in H. destruct (Js.assoc name es) as [[c1|es1]|] eqn:Ea;
    try discriminate.
  destruct (alter_ok
              (fun es0 => match Js.assoc name es0 with
                          | Some (File _) => Ok (FS.remove name es0)
                          | Some (Dir _) => Throw EISDIR
                          | None => Throw ENOENT
                          end) (rev rparent) n es (FS.remove name es) El)
    as (n' & Ha & _); [now rewrite Ea|eauto].
Qed.

Lemma write_nonempty (n n' : node) (p : path) (c : content) :
  FS.write n p c = Ok n' -> p <> [].
Proof. intros H ->. discriminate. Qed.

(** The callbacks of a [forEach] that did not reject: every one of them
    ran, and none called [reject]. *)
Lemma forEachAsync_visits {A} (f : A -> M bool) (l : list A) :
  (forall x, Spec.grows (f x)) ->
  forall (w w' : world) (b : bool),
    Downloader.forEachAsync f l w = (Ok b, w') ->
    forall x, In x l ->
      exists w1 w2 bx,
        Spec.extends w w1
        /\ Downloader.callback (f x) w1 = (Ok bx, w2)
        /\ Spec.extends w2 w'
        /\ (b = false -> bx = false).
Proof.
  intros Hf. induction l as [|y l IH]; intros w w' b H x Hin;
    [destruct Hin|].
  simpl in H. apply bind_ok_inv in H. destruct H as (by_ & w1 & Hy & H).
  apply bind_ok_inv in H. destruct H as (bl & w2 & Hl & H).
  injection H as <- <-.
  destruct Hin as [->|Hin].
  - exists w, w1, by_. split; [apply extends_refl|]. split; [assumption|].
    split; [eapply grows_forEachAsync; eassumption|].
    intros E. now apply orb_false_elim in E.
  - destruct (IH _ _ _ Hl x Hin) as (wa & wb & bx & Ha & Hx & Hb & Hbx).
    exists wa, wb, bx. split; [|split; [assumption|split; [assumption|]]].
    + eapply extends_trans; [|exact Ha].
      eapply grows_callback; [apply Hf|eassumption].
    + intros E. apply orb_false_elim in E. now apply Hbx.
Qed.

(** The callback of [downloadNatives] on a library that offers a bundle
    for Windows whose [path] is a string. *)
Lemma downloadNative_unfold (root : path) (element d el natives u : value)
  (p : string) (w : world) :
  Js.get element "downloads" = Ok d ->
  Js.get d "classifiers" = Ok el ->
  Downloader.selectNatives el = Ok natives ->
  Js.truthy natives = true ->
  Js.get natives "url" = Ok u ->
  Js.get natives "path" = Ok (VStr p) ->
  Downloader.callback (Downloader.downloadNative root element) w
  = (Ok false,
     snd (Downloader.start u (Path.join root [Downloader.natives])
            (Path.basename p) (Some (Path.basename p)) w)).
Proof.
  intros Hd Hel Hsel Ht Hu Hp.
  unfold Downloader.callback, try_catch, Downloader.downloadNative.
  unfold bind at 1, lift at 1. rewrite Hd.
  unfold bind at 1, lift at 1. rewrite Hel.
  unfold bind at 1, lift at 1. rewrite Hsel, Ht, Hu, Hp.
  cbn [Js.as_string]. unfold bind. rewrite !start_unfold. reflexivity.
Qed.

(** The same on a bundle whose [path] is no string: [reject] is
    called. *)
Lemma downloadNative_rejects (root : path) (element d el natives p : value)
  (w : world) :
  Js.get element "downloads" = Ok d ->
  Js.get d "classifiers" = Ok el ->
  Downloader.selectNatives el = Ok natives ->
  Js.truthy natives = true ->
  Js.get natives "path" = Ok p ->
  (forall s, p <> VStr s) ->
  Downloader.callback (Downloader.downloadNative root element) w
  = (Ok true, w).
Proof.
  intros Hd Hel Hsel Ht Hp Hs.
  destruct (truthy_get natives "url" Ht) as [u Hu].
  unfold Downloader.callback, try_catch, Downloader.downloadNative.
  unfold bind at 1, lift at 1. rewrite Hd.
  unfold bind at 1, lift at 1. rewrite Hel.
  unfold bind at 1, lift at 1. rewrite Hsel, Ht, Hu, Hp.
  destruct p; try reflexivity. now elim (Hs s).
Qed.

(** The end of the transfer of a bundle, with what the callback does
    after it. *)
Lemma finish_native (u : string) (dest : path) (name : string) (w : world) :
  Downloader.finish {| task_url := u; task_dest := dest;
                       task_unpack := Some name |} w =
  (Ok tt,
   match remote w u with
   | None => w
   | Some body =>
       match FS.write (fs w) dest body with
       | Throw _ => w
       | Ok n =>
           let w1 := with_log (with_fs w n) (log w ++ [EvWrite dest body]) in
           match body with
           | Truncated => w1
           | _ => snd (Downloader.unpack u name w1)
           end
       end
   end).
Proof.
  unfold Downloader.finish, bind, Downloader.pipe, writeFileSync, mutate.
  simpl. destruct (remote w u) as [body|]; [|reflexivity].
  destruct (FS.write (fs w) dest body); [|reflexivity].
  now destruct body.
Qed.

(** What a resolved [downloadNatives] has done for one library that
    offers a bundle. *)
Lemma downloadNatives_visit (w w' : world) (msg : string)
  (libs : list value) (element d el natives : value) :
  Downloader.downloadNatives w = (Ok (Resolved msg), w') ->
  Js.get (this_file (this w)) "libraries" = Ok (VArr libs) ->
  In element libs ->
  Js.get element "downloads" = Ok d ->
  Js.get d "classifiers" = Ok el ->
  Downloader.selectNatives el = Ok natives ->
  Js.truthy natives = true ->
  exists p,
    Js.get natives "path" = Ok (VStr p)
    /\ forall u,
         Js.get natives "url" = Ok (VStr u) ->
         Downloader.sendable w u = true ->
         Spec.since w w'
           (EvGet u
              (Path.join (this_root (this w))
                 [Downloader.natives; Path.basename p]))
         /\ In (Spec.nativeTask (this_root (this w)) u p) (tasks w').
Proof.
  intros H Hlibs Hin Hd Hel Hsel Ht.
  unfold Downloader.downloadNatives in H.
  destruct (Downloader.promise_sync _ w) as [r0 w0] eqn:E0.
  unfold Downloader.promise_sync in E0.
  match type of E0 with
  | (let (_, _) := ?b w in _) = _ => destruct (b w) as [[s|e] wz] eqn:Eb
  end; [|now injection E0 as <- <-].
  injection E0 as <- <-. injection H as -> ->.
  apply bind_ok_inv in Eb. destruct Eb as (t & ? & H0 & H).
  injection H0 as <- <-.
  apply bind_ok_inv in H. destruct H as (ex & ? & H0 & H).
  injection H0 as _ <-.
  apply bind_ok_inv in H. destruct H as ([] & wa & Hmk & H).
  unfold mkdirSync in Hmk.
  apply guarded_ok in Hmk; [|intros n n'; apply mkdir_covers].
  destruct Hmk as (Ea & _ & _).
  apply bind_ok_inv in H. destruct H as (ls & ? & H0 & H).
  apply lift_inv in H0. destruct H0 as [Hls ->].
  rewrite Hlibs in Hls. injection Hls as ->.
  apply bind_ok_inv in H. destruct H as (l & ? & H0 & H).
  apply lift_inv in H0. destruct H0 as [Hl ->]. injection Hl as ->.
  apply bind_ok_inv in H. destruct H as (b & wb & Hloop & H).
  destruct b; [discriminate|]. injection H as _ <-.
  destruct (forEachAsync_visits _ _
              (grows_downloadNative (this_root (this w))) _ _ _ Hloop
              element Hin)
    as (w1 & w2 & bx & E1 & Hx & E2 & Hbx).
  specialize (Hbx eq_refl). subst bx.
  destruct (truthy_get natives "url" Ht) as [u0 Hu0].
  destruct (truthy_get natives "path" Ht) as [p0 Hp0].
  destruct (Js.as_string p0) as [p|e] eqn:Ep.
  2:{ rewrite (downloadNative_rejects _ _ _ _ _ _ _ Hd Hel Hsel Ht Hp0) in Hx;
        [discriminate|].
      intros s ->. discriminate. }
  destruct p0; try discriminate. injection Ep as ->.
  exists p. split; [assumption|]. intros u Hu Hs.
  rewrite Hu in Hu0. injection Hu0 as <-.
  rewrite (downloadNative_unfold _ _ _ _ _ _ _ _ Hd Hel Hsel Ht Hu Hp0) in Hx.
  injection Hx as Hx.
  destruct (Downloader.start _ _ _ _ w1) as [r2 w2'] eqn:Es.
  simpl in Hx. subst w2'.
  assert (Hs1 : Downloader.sendable w1 u = true).
  { unfold Downloader.sendable in *.
    destruct Ea as [(_ & A1 & _) _]. destruct E1 as [(_ & A2 & _) _].
    now rewrite A2, A1. }
  apply (start_sent _ _ _ _ _ _ _ Hs1) in Es.
  rewrite join_join in Es. simpl app in Es. destruct Es as (Hlog & Htasks & _).
  split.
  - eapply since_l; [eapply extends_trans; [exact Ea|exact E1]|].
    eapply since_r; [|exact E2]. eexists. split; [exact Hlog|now left].
  - destruct E2 as [F2 _]. apply (started_l _ _ _ F2).
    rewrite Htasks. apply in_or_app. right. now left.
Qed.

(** What the callback does once the bundle is in its file. *)
Lemma unpack_outcome (u name : string) (w : world) (body : content) :
  FS.read (fs w) (Path.join (this_root (this w)) [Downloader.natives; name])
  = Ok body ->
  Path.join (this_root (this w)) [Downloader.natives; name] <> [] ->
  let archive := Path.join (this_root (this w)) [Downloader.natives; name] in
  let target :=
    Path.join (this_root (this w))
      [Downloader.natives; this_version (this w)] in
  let w2 := snd (Downloader.unpack u name w) in
  if String.eqb (this_version (this w)) "1.8" && Str.includes u "nightly"
  then
    exists n, FS.unlink (fs w) archive = Ok n
      /\ w2 = with_log (with_fs w n) (log w ++ [EvUnlink archive])
  else
    match body with
    | Archive entries =>
        match snd (Downloader.extract_entries (fs w) target entries) with
        | None =>
            exists n,
              FS.unlink
                (fst (Downloader.extract_entries (fs w) target entries))
                archive = Ok n
              /\ fs w2 = n
              /\ log w2 = log w ++ [EvExtract archive target;
                                    EvUnlink archive]
        | Some _ =>
            fs w2 = fst (Downloader.extract_entries (fs w) target entries)
            /\ log w2 = log w ++ [EvExtract archive target]
        end
    | _ => w2 = w
    end.
Proof.
  intros Hread Hne. cbv zeta.
  unfold Downloader.unpack, bind, Downloader.get_this.
  destruct (String.eqb (this_version (this w)) "1.8" && Str.includes u "nightly").
  - destruct (unlink_ok _ _ _ Hread Hne) as [n Hn].
    exists n. split; [assumption|].
    unfold unlinkSync, mutate. now rewrite Hn.
  - rewrite join_join. simpl app.
    unfold Downloader.extractAllTo. rewrite Hread.
    destruct body as [s|v|entries|]; try reflexivity.
    destruct (Downloader.extract_entries (fs w) _ entries) as [n1 stop] eqn:Ex.
    destruct stop as [e|]; simpl; [now split|].
    destruct (extract_keeps_file _ _ _ _ _ _ _ Ex Hread) as [c' Hc'].
    destruct (unlink_ok _ _ _ Hc' Hne) as [n Hn].
    exists n. split; [assumption|].
    unfold unlinkSync, mutate. simpl. rewrite Hn. simpl.
    split; [reflexivity|]. now rewrite <- app_assoc.
Qed.

(** C7, as the code has it.  For a library whose classifiers are the object
    [el], the bundle taken is [natives-windows] when that is truthy and
    [natives-windows-64] only otherwise.  A [downloadNatives] that resolves
    has asked for every bundle taken, to be piped into the natives
    directory under the basename of the bundle's path, and has its
    transfer in flight.  When that transfer ends and the archive is
    written: for version 1.8 and a URL containing [nightly] the archive is
    deleted and nothing is unpacked; otherwise an archive that is a zip is
    unpacked into [natives/<version>] and, when every entry could be
    unpacked, deleted.  A transfer that fails leaves nothing; an archive
    that is cut short, that is no zip, or whose unpacking fails, stays
    where it is. *)
Theorem natives_resolution (w w' : world) (msg : string)
  (libs : list value) (element d el natives : value) :
  Downloader.downloadNatives w = (Ok (Resolved msg), w') ->
  Js.get (this_file (this w)) "libraries" = Ok (VArr libs) ->
  In element libs ->
  Js.get element "downloads" = Ok d ->
  Js.get d "classifiers" = Ok el ->
  Js.typeof_object el = true ->
  Downloader.selectNatives el = Ok natives ->
  (exists a,
     Js.get el "natives-windows" = Ok a
     /\ (Js.truthy a = true -> natives = a)
     /\ (Js.truthy a = false -> Js.get el "natives-windows-64" = Ok natives))
  /\ (Js.truthy natives = true ->
      exists p,
        Js.get natives "path" = Ok (VStr p)
        /\ forall u,
             Js.get natives "url" = Ok (VStr u) ->
             Downloader.sendable w u = true ->
             let archive :=
               Path.join (this_root (this w))
                 [Downloader.natives; Path.basename p] in
             let target :=
               Path.join (this_root (this w))
                 [Downloader.natives; this_version (this w)] in
             Spec.since w w' (EvGet u archive)
             /\ In (Spec.nativeTask (this_root (this w)) u p) (tasks w')
             /\ forall w1,
                  this w1 = this w ->
                  exists w2,
                    Downloader.finish
                      (Spec.nativeTask (this_root (this w)) u p) w1
                    = (Ok tt, w2)
                    /\ match remote w1 u with
                       | None => w2 = w1
                       | Some body =>
                           match FS.write (fs w1) archive body with
                           | Throw _ => w2 = w1
                           | Ok n =>
                               match body with
                               | Truncated =>
                                   Spec.added w1 w2 [EvWrite archive body]
                                   /\ fs w2 = n
                               | Archive entries =>
                                   if String.eqb (this_version (this w)) "1.8"
                                      && Str.includes u "nightly"
                                   then
                                     Spec.added w1 w2
                                       [EvWrite archive body;
                                        EvUnlink archive]
                                     /\ FS.unlink n archive = Ok (fs w2)
                                     /\ FS.exists_ (fs w2) archive = false
                                   else
                                     match
                                       snd (Downloader.extract_entries n
                                              target entries)
                                     with
                                     | None =>
                                         Spec.added w1 w2
                                           [EvWrite archive body;
                                            EvExtract archive target;
                                            EvUnlink archive]
                                         /\ FS.unlink
                                              (fst (Downloader.extract_entries
                                                      n target entries))
                                              archive = Ok (fs w2)
                                         /\ FS.exists_ (fs w2) archive = false
                                     | Some _ =>
                                         Spec.added w1 w2
                                           [EvWrite archive body;
                                            EvExtract archive target]
                                         /\ fs w2
                                            = fst (Downloader.extract_entries
                                                     n target entries)
                                         /\ FS.exists_ (fs w2) archive = true
                                     end
                               | _ =>
                                   if String.eqb (this_version (this w)) "1.8"
                                      && Str.includes u "nightly"
                                   then
                                     Spec.added w1 w2
                                       [EvWrite archive body;
                                        EvUnlink archive]
                                     /\ FS.unlink n archive = Ok (fs w2)
                                     /\ FS.exists_ (fs w2) archive = false
                                   else
                                     Spec.added w1 w2 [EvWrite archive body]
                                     /\ fs w2 = n
                                     /\ FS.read (fs w2) archive = Ok body
                               end
                           end
                       end).
Proof.
  intros H Hlibs Hin Hd Hel Hobj Hsel.
  split; [now apply selectNatives_order|]. intros Ht.
  destruct (downloadNatives_visit _ _ _ _ _ _ _ _ H Hlibs Hin Hd Hel Hsel Ht)
    as (p & Hp & Hvisit).
  exists p. split; [assumption|]. intros u Hu Hs. cbv zeta.
  destruct (Hvisit u Hu Hs) as [Hsince Htask].
  split; [assumption|]. split; [assumption|].
  intros w1 Hthis. unfold Spec.nativeTask. rewrite finish_native.
  eexists. split; [reflexivity|].
  destruct (remote w1 u) as [body|]; [|reflexivity].
  destruct (FS.write (fs w1) _ body) as [n|e] eqn:Ew; [|reflexivity].
  pose proof (write_read _ _ _ _ Ew) as Hread.
  pose proof (write_nonempty _ _ _ _ Ew) as Hne.
  cbv zeta.
  set (wa := with_log (with_fs w1 n)
               (log w1 ++
                [EvWrite
                   (Path.join (this_root (this w))
                      [Downloader.natives; Path.basename p]) body])).
  assert (Hta : this wa = this w) by exact Hthis.
  assert (Hfa : fs wa = n) by reflexivity.
  assert (Hla : log wa
                = log w1 ++
                  [EvWrite
                     (Path.join (this_root (this w))
                        [Downloader.natives; Path.basename p]) body])
    by reflexivity.
  pose proof (unpack_outcome u (Path.basename p) wa body) as Hout.
  rewrite Hta, Hfa in Hout. specialize (Hout Hread Hne). cbv zeta in Hout.
  assert (Hgone : forall n0 n1,
             FS.unlink n0
               (Path.join (this_root (this w))
                  [Downloader.natives; Path.basename p]) = Ok n1 ->
             FS.exists_ n1
               (Path.join (this_root (this w))
                  [Downloader.natives; Path.basename p]) = false)
    by (intros n0 n1; apply unlink_gone).
  destruct body as [s|v|entries|].
  - destruct (String.eqb _ "1.8" && Str.includes u "nightly").
    + destruct Hout as (n' & Hn' & ->). simpl. unfold Spec.added.
      rewrite <- app_assoc. repeat split; [assumption|now apply (Hgone n)].
    + rewrite Hout. repeat split. assumption.
  - destruct (String.eqb _ "1.8" && Str.includes u "nightly").
    + destruct Hout as (n' & Hn' & ->). simpl. unfold Spec.added.
      rewrite <- app_assoc. repeat split; [assumption|now apply (Hgone n)].
    + rewrite Hout. repeat split. assumption.
  - destruct (String.eqb _ "1.8" && Str.includes u "nightly").
    + destruct Hout as (n' & Hn' & ->). simpl. unfold Spec.added.
      rewrite <- app_assoc. repeat split; [assumption|now apply (Hgone n)].
    + destruct (snd (Downloader.extract_entries n _ entries)) eqn:Estop.
      * destruct Hout as [Hf Hl]. unfold Spec.added.
        rewrite Hl, Hla, <- app_assoc. repeat split; [assumption|].
        rewrite Hf.
        destruct (Downloader.extract_entries n _ entries) as [n1 stop] eqn:Ex.
        destruct (extract_keeps_file _ _ _ _ _ _ _ Ex Hread) as [c' Hc'].
        simpl. unfold FS.exists_. unfold FS.read in Hc'.
        destruct (FS.lookup n1 _); [reflexivity|discriminate].
      * destruct Hout as (n' & Hn' & Hf & Hl). unfold Spec.added.
        rewrite Hl, Hla, <- app_assoc, Hf.
        repeat split; [assumption|now apply (Hgone _ _ Hn')].
  - repeat split.
Qed.

Lemma natives_resolution_witness :
  ((exists a,
      Js.get Sample.classifiers "natives-windows" = Ok a
      /\ (Js.truthy a = true -> Sample.bundle = a)
      /\ (Js.truthy a = false ->
          Js.get Sample.classifiers "natives-windows-64" = Ok Sample.bundle))
   /\ (Js.truthy Sample.bundle = true ->
       exists p,
         Js.get Sample.bundle "path" = Ok (VStr p)
         /\ forall u,
              Js.get Sample.bundle "url" = Ok (VStr u) ->
              Downloader.sendable Sample.clientFetched u = true ->
              let archive :=
                Path.join (this_root (this Sample.clientFetched))
                  [Downloader.natives; Path.basename p] in
              let target :=
                Path.join (this_root (this Sample.clientFetched))
                  [Downloader.natives;
                   this_version (this Sample.clientFetched)] in
              Spec.since Sample.clientFetched
                (snd (Downloader.downloadNatives Sample.clientFetched))
                (EvGet u archive)
              /\ In (Spec.nativeTask (this_root (this Sample.clientFetched))
                       u p)
                   (tasks
                      (snd (Downloader.downloadNatives Sample.clientFetched)))
              /\ forall w1,
                   this w1 = this Sample.clientFetched ->
                   exists w2,
                     Downloader.finish
                       (Spec.nativeTask
                          (this_root (this Sample.clientFetched)) u p) w1
                     = (Ok tt, w2)
                     /\ match remote w1 u with
                        | None => w2 = w1
                        | Some body =>
                            match FS.write (fs w1) archive body with
                            | Throw _ => w2 = w1
                            | Ok n =>
                                match body with
                                | Truncated =>
                                    Spec.added w1 w2 [EvWrite archive body]
                                    /\ fs w2 = n
                                | Archive entries =>
                                    if String.eqb
                                         (this_version
                                            (this Sample.clientFetched))
                                         "1.8"
                                       && Str.includes u "nightly"
                                    then
                                      Spec.added w1 w2
                                        [EvWrite archive body;
                                         EvUnlink archive]
                                      /\ FS.unlink n archive = Ok (fs w2)
                                      /\ FS.exists_ (fs w2) archive = false
                                    else
                                      match
                                        snd (Downloader.extract_entries n
                                               target entries)
                                      with
                                      | None =>
                                          Spec.added w1 w2
                                            [EvWrite archive body;
                                             EvExtract archive target;
                                             EvUnlink archive]
                                          /\ FS.unlink
                                               (fst
                                                  (Downloader.extract_entries
                                                     n target entries))
                                               archive = Ok (fs w2)
                                          /\ FS.exists_ (fs w2) archive
                                             = false
                                      | Some _ =>
                                          Spec.added w1 w2
                                            [EvWrite archive body;
                                             EvExtract archive target]
                                          /\ fs w2
                                             = fst
                                                 (Downloader.extract_entries
                                                    n target entries)
                                          /\ FS.exists_ (fs w2) archive
                                             = true
                                      end
                                | _ =>
                                    if String.eqb
                                         (this_version
                                            (this Sample.clientFetched))
                                         "1.8"
                                       && Str.includes u "nightly"
                                    then
                                      Spec.added w1 w2
                                        [EvWrite archive body;
                                         EvUnlink archive]
                                      /\ FS.unlink n archive = Ok (fs w2)
                                      /\ FS.exists_ (fs w2) archive = false
                                    else
                                      Spec.added w1 w2 [EvWrite archive body]
                                      /\ fs w2 = n
                                      /\ FS.read (fs w2) archive = Ok body
                                end
                            end
                        end))
  /\ FS.read
       (fs (Downloader.settle
              (snd (Downloader.downloadNatives Sample.clientFetched))))
       ["C:"; "mc"; "natives"; "1.19"; "lwjgl.dll"] = Ok (Text "dll")
  /\ FS.exists_
       (fs (Downloader.settle
              (snd (Downloader.downloadNatives Sample.clientFetched))))
       ["C:"; "mc"; "natives"; "natives-windows.jar"] = false
  /\ FS.exists_
       (fs (Downloader.settle
              (snd (Downloader.downloadNatives Sample.clientFetched))))
       ["C:"; "mc"; "natives"; "natives-windows-64.jar"] = false.
Proof.
  split; [|repeat split; vm_compute; reflexivity].
  apply (natives_resolution Sample.clientFetched
           (snd (Downloader.downloadNatives Sample.clientFetched))
           "NATIVES DESCARGADOS - C:\mc\natives"
           Sample.libraryList Sample.platformLib
           (VObj [("classifiers", Sample.classifiers)])
           Sample.classifiers Sample.bundle).
  - vm_compute. reflexivity.
  - reflexivity.
  - simpl. auto.
  - reflexivity.
  - reflexivity.
  - reflexivity.
  - reflexivity.
Defined.

(** C7, as it is worded, fails: where both bundles are offered the
    platform-only one is taken, not the one for the architecture. *)
Lemma platform_only_taken_first :
  Downloader.selectNatives Sample.classifiers
  = Js.get Sample.classifiers "natives-windows"
  /\ Spec.specSelectNatives Sample.classifiers
     = Js.get Sample.classifiers "natives-windows-64"
  /\ Downloader.selectNatives Sample.classifiers
     <> Spec.specSelectNatives Sample.classifiers
  /\ transfers
       (log (snd (Downloader.downloadNatives Sample.clientFetched)))
     = transfers (log Sample.clientFetched)
       ++ [EvGet "https://l/natives"
             ["C:"; "mc"; "natives"; "natives-windows.jar"]].
Proof.
  repeat split; try reflexivity. vm_compute. discriminate.
Qed.

(** ** What a resolved run has requested *)

Lemma await_inv (p : M settled) (w w' : world) (m : string) :
  Downloader.await p w = (Ok m, w') -> p w = (Ok (Resolved m), w').
Proof.
  unfold Downloader.await. intros H.
  apply bind_ok_inv in H. destruct H as (s & w1 & Hp & H).
  destruct s; try discriminate. injection H as -> ->. assumption.
Qed.

Lemma write_exists_prefix (n n' : node) (q r : path) (c : content) :
  FS.write n (q ++ r) c = Ok n' -> FS.exists_ n' q = true.
Proof.
  intros H. apply write_read in H. unfold FS.read in H.
  rewrite lookup_app in H. unfold FS.exists_.
  destruct (FS.lookup n' q); [reflexivity|discriminate].
Qed.

(** A [try] around an awaited transfer that ends in [resolve]. *)
Lemma try_await_resolved (m : M settled) (h : error -> M settled)
  (w w' : world) (msg : string) :
  (forall e w0, exists e', h e w0 = (Ok (Rejected e'), w0)) ->
  try_await m h w = (Ok (Resolved msg), w') ->
  m w = (Ok (Resolved msg), w').
Proof.
  intros Hh H. unfold try_await in H.
  destruct (m w) as [[s|e] w1]; [exact H|].
  destruct (Hh e w1) as [e' He']. destruct e; rewrite ?He' in H;
    discriminate.
Qed.

Lemma downloadVersion_resolved (w w' : world) (msg : string) :
  Downloader.downloadVersion w = (Ok (Resolved msg), w') ->
  Spec.extends w w'
  /\ tasks w' = tasks w
  /\ Spec.since w w'
       (EvGet Downloader.url_meta
          (Path.join (this_root (this w))
             [Downloader.cache; "json"; "version_manifest.json"]))
  /\ exists metaUrl body,
       Spec.since w w'
         (EvGet metaUrl
            (Path.join (this_root (this w))
               [Downloader.versions; this_version (this w);
                this_version (this w) +++ ".json"]))
       /\ remote w metaUrl = Some body
       /\ FS.read (fs w')
            (Path.join (this_root (this w))
               [Downloader.versions; this_version (this w);
                this_version (this w) +++ ".json"]) = Ok body.
Proof.
  intros H. split; [eapply grows_downloadVersion; eassumption|].
  unfold Downloader.downloadVersion in H. apply promise_async_resolved in H.
  apply bind_ok_inv in H. destruct H as (t & ? & H0 & H).
  injection H0 as <- <-.
  apply bind_ok_inv in H. destruct H as (ex & ? & H0 & H).
  injection H0 as _ <-.
  apply bind_ok_inv in H. destruct H as ([] & wa & Hmk & H).
  unfold mkdirSync_recursive in Hmk.
  apply guarded_ok in Hmk; [|intros n n'; apply mkdir_p_covers].
  destruct Hmk as (Ea & Ta & _).
  apply bind_ok_inv in H. destruct H as ([] & wb & Hdown & H).
  pose proof (grows_down _ _ _ _ _ _ Hdown) as Eb.
  apply down_ok_inv in Hdown.
  destruct Hdown as (us & body0 & Hus & _ & _ & _ & Hw0 & _ & _ & Tb & Hl0).
  injection Hus as <-.
  rewrite join_join in Hl0. simpl app in Hl0.
  apply bind_ok_inv in H. destruct H as (ex2 & ? & H0 & H).
  injection H0 as Hex2 <-.
  assert (Hcache : FS.exists_ (fs wb)
                     (Path.join (this_root (this w)) [Downloader.cache])
                   = true).
  { change (Path.join (Path.join (this_root (this w))
                         [Downloader.cache; "json"])
              ["version_manifest.json"])
      with (((this_root (this w) ++ ["cache"]) ++ ["json"])
            ++ ["version_manifest.json"]) in Hw0.
    rewrite <- (app_assoc (this_root (this w) ++ ["cache"])) in Hw0.
    change (Path.join (this_root (this w)) [Downloader.cache])
      with (this_root (this w) ++ ["cache"]).
    eapply write_exists_prefix; eassumption. }
  rewrite Hcache in Hex2. subst ex2.
  apply bind_ok_inv in H. destruct H as (c & ? & H0 & H).
  injection H0 as _ <-.
  apply bind_ok_inv in H. destruct H as (ver & ? & H0 & H).
  apply lift_inv in H0. destruct H0 as [_ ->].
  apply bind_ok_inv in H. destruct H as (verJson & ? & H0 & H).
  apply lift_inv in H0. destruct H0 as [_ ->].
  apply bind_ok_inv in H. destruct H as (ex3 & ? & H0 & H).
  injection H0 as _ <-.
  apply bind_ok_inv in H. destruct H as ([] & wc & Hmk2 & H).
  unfold mkdirSync_recursive in Hmk2.
  apply guarded_ok in Hmk2; [|intros n n'; apply mkdir_p_covers].
  destruct Hmk2 as (Ec & Tc & _).
  apply try_await_resolved in H; [|intros e w0; eexists; reflexivity].
  apply bind_ok_inv in H. destruct H as ([] & ? & Hdown & H).
  injection H as _ ->.
  pose proof (grows_down _ _ _ _ _ _ Hdown) as Ed.
  apply down_ok_inv in Hdown.
  destruct Hdown as (mu & body & -> & _ & Hr & _ & Hw & _ & _ & Td & Hl).
  rewrite join_join in Hw, Hl. simpl app in Hw, Hl.
  assert (Hwc : Spec.extends w wc).
  { eapply extends_trans; [exact Ea|].
    eapply extends_trans; [exact Eb|exact Ec]. }
  split; [congruence|]. split.
  - eapply since_l; [exact Ea|]. eapply since_r.
    + eexists. split; [exact Hl0|now left].
    + eapply extends_trans; [exact Ec|exact Ed].
  - exists mu, body. split; [|split].
    + eapply since_l; [exact Hwc|]. eexists. split; [exact Hl|now left].
    + destruct Hwc as [(Hrw & _) _]. now rewrite <- Hrw.
    + eapply write_read; eassumption.
Qed.

Lemma downloadClient_resolved (w w' : world) (msg : string) :
  Downloader.downloadClient w = (Ok (Resolved msg), w') ->
  exists file downloads cl clientUrl,
    FS.read (fs w)
      (Path.join (this_root (this w))
         [Downloader.versions; this_version (this w);
          this_version (this w) +++ ".json"]) = Ok (Json file)
    /\ Js.get file "downloads" = Ok downloads
    /\ Js.get downloads "client" = Ok cl
    /\ Js.get cl "url" = Ok (VStr clientUrl)
    /\ this w' = {| this_version := this_version (this w);
                    this_root := this_root (this w);
                    this_file := file |}
    /\ Spec.forward w w'
    /\ tasks w' = tasks w
    /\ Spec.since w w'
         (EvGet clientUrl
            (Path.join (this_root (this w))
               [Downloader.versions; this_version (this w);
                this_version (this w) +++ ".jar"])).
Proof.
  intros H.
  unfold Downloader.downloadClient in H. apply promise_async_resolved in H.
  apply bind_ok_inv in H. destruct H as (t & ? & H0 & H).
  injection H0 as <- <-.
  apply bind_ok_inv in H. destruct H as ([] & w1 & H0 & H).
  injection H0 as <-.
  apply bind_ok_inv in H. destruct H as (c & ? & H0 & H).
  injection H0 as Hread <-. simpl in Hread.
  apply bind_ok_inv in H. destruct H as (file & ? & H0 & H).
  apply lift_inv in H0. destruct H0 as [Hfile ->].
  destruct c as [s|doc|es|]; try discriminate. injection Hfile as <-.
  apply bind_ok_inv in H. destruct H as ([] & w2 & H0 & H).
  injection H0 as <-.
  apply bind_ok_inv in H. destruct H as (downloads & ? & H0 & H).
  apply lift_inv in H0. destruct H0 as [Hd ->].
  apply bind_ok_inv in H. destruct H as (cl & ? & H0 & H).
  apply lift_inv in H0. destruct H0 as [Hcl ->].
  apply bind_ok_inv in H. destruct H as (client & ? & H0 & H).
  apply lift_inv in H0. destruct H0 as [Hclient ->].
  apply bind_ok_inv in H. destruct H as (ex & ? & H0 & H).
  injection H0 as _ <-.
  apply bind_ok_inv in H. destruct H as ([] & w3 & Hmk & H).
  unfold mkdirSync in Hmk.
  apply guarded_ok in Hmk; [|intros n n'; apply mkdir_covers].
  destruct Hmk as (Ec & Tc & _).
  apply try_await_resolved in H; [|intros e w0; eexists; reflexivity].
  apply bind_ok_inv in H. destruct H as ([] & ? & Hdown & H).
  injection H as _ ->.
  pose proof (grows_down _ _ _ _ _ _ Hdown) as Ed.
  apply down_ok_inv in Hdown.
  destruct Hdown as (cu & body & -> & _ & _ & _ & _ & _ & _ & Td & Hl).
  rewrite join_join in Hl. simpl app in Hl.
  pose proof (extends_trans _ _ _ Ec Ed) as [F T].
  exists file, downloads, cl, cu.
  simpl in Tc, T. split; [exact Hread|].
  split; [now symmetry|]. split; [now symmetry|]. split; [now symmetry|].
  split; [exact T|]. split; [exact F|]. split; [congruence|].
  destruct Ec as [(_ & _ & (e1 & L1) & _) _]. unfold Spec.added in L1.
  simpl in L1. unfold Spec.since, Spec.added.
  eexists. split; [rewrite Hl, L1, <- app_assoc; reflexivity|].
  apply in_or_app. right. now left.
Qed.


(** ** Libraries *)

(** The callback of [downloadLibraries] never calls [reject] on its way:
    the artifact whose [url] it reads is one whose [path] it has read. *)
Lemma downloadLibrary_callback (root : path) (element : value) (w : world) :
  exists w',
    Downloader.callback (Downloader.downloadLibrary root element) w
    = (Ok false, w').
Proof.
  unfold Downloader.callback, try_catch.
  destruct (Downloader.downloadLibrary root element w) as [[b|e] w1] eqn:E;
    [|eexists; reflexivity].
  exists w1. f_equal. f_equal.
  unfold Downloader.downloadLibrary in E.
  apply bind_ok_inv in E. destruct E as (d & ? & H0 & E).
  apply lift_inv in H0. destruct H0 as [_ ->].
  apply bind_ok_inv in E. destruct E as (a & ? & H0 & E).
  apply lift_inv in H0. destruct H0 as [_ ->].
  assert (G : forall (m : M bool),
            (let (r, _) := m w in r) = Ok b -> True) by trivial.
  destruct a as [| |x|z|s|l|fs0];
    try (injection E as <- _; reflexivity);
    (apply bind_ok_inv in E; destruct E as (jf & ? & H0 & E);
     apply lift_inv in H0; destruct H0 as [Hjf ->];
     try discriminate Hjf;
     apply bind_ok_inv in E; destruct E as (jarFile & ? & H0 & E);
     apply lift_inv in H0; destruct H0 as [_ ->];
     apply bind_ok_inv in E; destruct E as (ex & ? & H0 & E);
     injection H0 as _ <-;
     apply bind_ok_inv in E; destruct E as ([] & w2 & _ & E);
     simpl Js.get in E; cbv beta iota in E;
     apply bind_ok_inv in E; destruct E as ([] & w3 & _ & E);
     now injection E as <- _).
Qed.

Lemma forEachAsync_libraries (root : path) (l : list value) : forall w,
  exists w',
    Downloader.forEachAsync (Downloader.downloadLibrary root) l w
    = (Ok false, w').
Proof.
  induction l as [|x l IH]; intros w; [eexists; reflexivity|].
  simpl. unfold bind.
  destruct (downloadLibrary_callback root x w) as [w1 ->].
  destruct (IH w1) as [w2 ->]. eexists. reflexivity.
Qed.

(** The callback on a library with an artifact whose directory is
    there. *)
Lemma downloadLibrary_unfold (root : path) (element d a u : value)
  (p : string) (w : world) :
  Js.get element "downloads" = Ok d ->
  Js.get d "artifact" = Ok a ->
  Js.get a "path" = Ok (VStr p) ->
  Js.get a "url" = Ok u ->
  FS.exists_ (fs w)
    (Path.join root
       [Downloader.libraries;
        Str.join "/" (removelast (Str.split "/"%char p))]) = true ->
  Downloader.callback (Downloader.downloadLibrary root element) w
  = (Ok false,
     snd (Downloader.start u
            (Path.join root
               [Downloader.libraries;
                Str.join "/" (removelast (Str.split "/"%char p))])
            (Path.basename p) None w)).
Proof.
  intros Hd Ha Hp Hu Hex.
  unfold Downloader.callback, try_catch, Downloader.downloadLibrary.
  unfold bind at 1, lift at 1. rewrite Hd.
  unfold bind at 1, lift at 1. rewrite Ha.
  assert (Hna : a <> VUndefined) by (intros ->; discriminate).
  destruct a; try contradiction;
    (unfold bind at 1, lift at 1; rewrite Hp;
     unfold bind at 1, lift at 1; cbn [Js.as_string];
     unfold bind at 1, existsSync at 1; rewrite Hex; cbn [negb];
     unfold bind at 1, ret at 1; rewrite Hu; unfold bind;
     rewrite !start_unfold; reflexivity).
Qed.

(** What a resolved [downloadLibraries] has done for one library whose
    directory was there. *)
Lemma downloadLibraries_visit (w w' : world) (msg : string)
  (libs : list value) (element d a : value) (p u : string) :
  Downloader.downloadLibraries w = (Ok (Resolved msg), w') ->
  Js.get (this_file (this w)) "libraries" = Ok (VArr libs) ->
  In element libs ->
  Js.get element "downloads" = Ok d ->
  Js.get d "artifact" = Ok a ->
  Js.get a "path" = Ok (VStr p) ->
  Js.get a "url" = Ok (VStr u) ->
  Downloader.sendable w u = true ->
  FS.exists_ (fs w)
    (Path.join (this_root (this w))
       [Downloader.libraries;
        Str.join "/" (removelast (Str.split "/"%char p))]) = true ->
  Spec.since w w'
    (EvGet u (task_dest (Spec.libraryTask (this_root (this w)) u p)))
  /\ In (Spec.libraryTask (this_root (this w)) u p) (tasks w').
Proof.
  intros H Hlibs Hin Hd Ha Hp Hu Hs Hex.
  unfold Downloader.downloadLibraries in H.
  destruct (Downloader.promise_sync _ w) as [r0 w0] eqn:E0.
  unfold Downloader.promise_sync in E0.
  match type of E0 with
  | (let (_, _) := ?b w in _) = _ => destruct (b w) as [[s0|e] wz] eqn:Eb
  end.
  2:{ injection E0 as <- <-. discriminate. }
  injection E0 as <- <-. injection H as -> ->.
  apply bind_ok_inv in Eb. destruct Eb as (t & ? & H0 & H).
  injection H0 as <- <-.
  apply bind_ok_inv in H. destruct H as (ex & ? & H0 & H).
  injection H0 as _ <-.
  apply bind_ok_inv in H. destruct H as ([] & wa & Hmk & H).
  unfold mkdirSync in Hmk.
  apply guarded_ok in Hmk; [|intros n n'; apply mkdir_covers].
  destruct Hmk as (Ea & _ & _).
  apply bind_ok_inv in H. destruct H as (ls & ? & H0 & H).
  apply lift_inv in H0. destruct H0 as [Hls ->].
  rewrite Hlibs in Hls. injection Hls as ->.
  apply bind_ok_inv in H. destruct H as (l & ? & H0 & H).
  apply lift_inv in H0. destruct H0 as [Hl ->]. injection Hl as ->.
  apply bind_ok_inv in H. destruct H as (b & wb & Hloop & H).
  injection H as _ <-.
  destruct (forEachAsync_visits _ _
              (grows_downloadLibrary (this_root (this w))) _ _ _ Hloop
              element Hin)
    as (w1 & w2 & bx & E1 & Hx & E2 & _).
  pose proof (extends_trans _ _ _ Ea E1) as E01.
  assert (Hex1 : FS.exists_ (fs w1)
                   (Path.join (this_root (this w))
                      [Downloader.libraries;
                       Str.join "/" (removelast (Str.split "/"%char p))])
                 = true).
  { destruct E01 as [(_ & _ & _ & _ & C) _]. now apply C. }
  rewrite (downloadLibrary_unfold _ _ _ _ _ _ _ Hd Ha Hp Hu Hex1) in Hx.
  injection Hx as _ Hx.
  destruct (Downloader.start _ _ _ _ w1) as [r2 w2'] eqn:Es.
  simpl in Hx. subst w2'.
  assert (Hs1 : Downloader.sendable w1 u = true).
  { unfold Downloader.sendable in *.
    destruct E01 as [(_ & A1 & _) _]. now rewrite A1. }
  apply (start_sent _ _ _ _ _ _ _ Hs1) in Es.
  destruct Es as (Hlog & Htasks & _).
  split.
  - eapply since_l; [exact E01|].
    eapply since_r; [|exact E2]. eexists. split; [exact Hlog|now left].
  - destruct E2 as [F2 _]. apply (started_l _ _ _ F2).
    rewrite Htasks. apply in_or_app. right. now left.
Qed.

Lemma Forall2_In_l {A B} (R : A -> B -> Prop) (l : list A) (l' : list B) :
  Forall2 R l l' -> forall x, In x l -> exists y, In y l' /\ R x y.
Proof.
  induction 1 as [|a b l l' Hab _ IH]; intros x Hin; [destruct Hin|].
  destruct Hin as [<-|Hin].
  - exists b. split; [now left|assumption].
  - destruct (IH x Hin) as (y & Hy & Hxy). exists y.
    split; [now right|assumption].
Qed.

(** C2, as the code has it.  No transfer is skipped because its file is
    there.
    Whatever the disk holds when [download] is called, and so on a
    version directory that is complete as well, a run that resolves has
    asked the server again for the version manifest, the document of the
    version, the client jar, the asset index (twice), every object of the
    index, the jar of every library with an artifact whose directory is
    there, and the bundle of natives selected for every library that
    offers one.  (A library or bundle whose [url] is no URL is asked of
    nobody, on a first run as on any other.) *)
Theorem download_requests_again (version : string) (root : path)
  (w w' : world) (msg : string) :
  Downloader.download version root w = (Ok (Resolved msg), w') ->
  exists metaUrl file downloads cl clientUrl ai indexUrl index objects,
    Spec.since w w'
      (EvGet Downloader.url_meta
         (Path.join root [Downloader.cache; "json"; "version_manifest.json"]))
    /\ remote w metaUrl = Some (Json file)
    /\ Spec.since w w'
         (EvGet metaUrl
            (Path.join root
               [Downloader.versions; version; version +++ ".json"]))
    /\ Js.get file "downloads" = Ok downloads
    /\ Js.get downloads "client" = Ok cl
    /\ Js.get cl "url" = Ok (VStr clientUrl)
    /\ Spec.since w w'
         (EvGet clientUrl
            (Path.join root
               [Downloader.versions; version; version +++ ".jar"]))
    /\ Js.get file "assetIndex" = Ok ai
    /\ Js.get ai "url" = Ok (VStr indexUrl)
    /\ remote w indexUrl = Some (Json index)
    /\ Spec.since w w'
         (EvGet indexUrl
            (Path.join root
               [Downloader.assets; "indexes"; version +++ ".json"]))
    /\ Spec.since w w'
         (EvGet indexUrl
            (Path.join root [Downloader.cache; "json"; version +++ ".json"]))
    /\ Js.get index "objects" = Ok objects
    /\ (forall fileName h,
          In fileName (Downloader.own_entries objects) ->
          Js.get fileName "hash" = Ok (VStr h) ->
          Spec.since w w'
            (EvGet (Downloader.assetUrl h) (Spec.assetPath root h)))
    /\ (forall libs element d a p u,
          Js.get file "libraries" = Ok (VArr libs) ->
          In element libs ->
          Js.get element "downloads" = Ok d ->
          Js.get d "artifact" = Ok a ->
          Js.get a "path" = Ok (VStr p) ->
          Js.get a "url" = Ok (VStr u) ->
          Downloader.sendable w u = true ->
          FS.exists_ (fs w)
            (Path.join root
               [Downloader.libraries;
                Str.join "/" (removelast (Str.split "/"%char p))]) = true ->
          Spec.since w w'
            (EvGet u
               (Path.join
                  (Path.join root
                     [Downloader.libraries;
                      Str.join "/" (removelast (Str.split "/"%char p))])
                  [Path.basename p])))
    /\ (forall libs element d el natives u p,
          Js.get file "libraries" = Ok (VArr libs) ->
          In element libs ->
          Js.get element "downloads" = Ok d ->
          Js.get d "classifiers" = Ok el ->
          Downloader.selectNatives el = Ok natives ->
          Js.truthy natives = true ->
          Js.get natives "url" = Ok (VStr u) ->
          Js.get natives "path" = Ok (VStr p) ->
          Downloader.sendable w u = true ->
          Spec.since w w'
            (EvGet u (Path.join root [Downloader.natives; Path.basename p]))).
Proof.
  intros H. unfold Downloader.download in H.
  apply bind_ok_inv in H. destruct H as ([] & w0 & H0 & H).
  assert (F0 : Spec.forward w w0 /\ this_root (this w0) = root
               /\ this_version (this w0) = version
               /\ remote w0 = remote w /\ accepts w0 = accepts w).
  { injection H0 as <-. simpl. repeat split; try reflexivity.
    - exists []. unfold Spec.added. simpl. now rewrite app_nil_r.
    - exists []. simpl. now rewrite app_nil_r.
    - intros q Hq. exact Hq. }
  clear H0. destruct F0 as (F0 & Hroot & Hver & R0 & A0).
  apply bind_ok_inv in H. destruct H as (s & wz & H & Hs).
  destruct (String.eqb version ""); [discriminate|].
  injection Hs as -> ->.
  apply promise_async_resolved in H.
  apply bind_ok_inv in H. destruct H as (m1 & w1 & H1 & H).
  apply await_inv in H1.
  apply bind_ok_inv in H. destruct H as (m2 & w2 & H2 & H).
  apply await_inv in H2.
  apply bind_ok_inv in H. destruct H as (m3 & w3 & H3 & H).
  apply await_inv in H3.
  apply bind_ok_inv in H. destruct H as (m4 & w4 & H4 & H).
  apply await_inv in H4.
  apply bind_ok_inv in H. destruct H as (m5 & w5 & H5 & H).
  apply await_inv in H5. injection H as _ <-.
  pose proof (grows_downloadAssets _ _ _ H3) as E3.
  pose proof (grows_downloadLibraries _ _ _ H4) as E4.
  pose proof (grows_downloadNatives _ _ _ H5) as E5.
  destruct (downloadVersion_resolved _ _ _ H1)
    as (E1 & _ & Smanifest & metaUrl & body & Smeta & Rmeta & Hdoc).
  destruct (downloadClient_resolved _ _ _ H2)
    as (file & downloads & cl & clientUrl & Hread & Hd & Hcl & Hcu & T2
        & F2 & _ & Sclient).
  assert (T1 : this w1 = this w0) by apply E1.
  rewrite T1, Hroot, Hver in Hread, Sclient, T2.
  rewrite Hroot in Smanifest. rewrite Hroot, Hver in Smeta, Hdoc.
  rewrite Hdoc in Hread. injection Hread as ->.
  destruct (downloadAssets_resolved _ _ _ H3)
    as (ai & indexUrl & index & objects & hashes & Hai & Hiu & Rindex
        & Hobjects & Sidx1 & Sidx2 & Hhashes & _ & Sobjects).
  assert (T3 : this w3 = this w2) by apply E3.
  assert (T4 : this w4 = this w3) by apply E4.
  rewrite T2 in Hai, Sidx1, Sidx2, Sobjects. simpl in Hai, Sidx1, Sidx2, Sobjects.
  assert (F01 : Spec.forward w w1)
    by (eapply forward_trans; [exact F0|apply E1]).
  assert (F02 : Spec.forward w w2)
    by (eapply forward_trans; [exact F01|exact F2]).
  assert (F03 : Spec.forward w w3)
    by (eapply forward_trans; [exact F02|apply E3]).
  assert (F04 : Spec.forward w w4)
    by (eapply forward_trans; [exact F03|apply E4]).
  assert (F25 : Spec.forward w2 w5).
  { eapply forward_trans; [apply E3|].
    eapply forward_trans; [apply E4|apply E5]. }
  assert (F35 : Spec.forward w3 w5)
    by (eapply forward_trans; [apply E4|apply E5]).
  assert (F15 : Spec.forward w1 w5)
    by (eapply forward_trans; [exact F2|exact F25]).
  exists metaUrl, file, downloads, cl, clientUrl, ai, indexUrl, index,
    objects.
  split.
  { eapply since_fl; [exact F0|]. eapply since_fr; [exact Smanifest|].
    exact F15. }
  split; [now rewrite <- R0|].
  split.
  { eapply since_fl; [exact F0|]. eapply since_fr; [exact Smeta|].
    exact F15. }
  split; [assumption|]. split; [assumption|]. split; [assumption|].
  split.
  { eapply since_fl; [exact F01|]. eapply since_fr; [exact Sclient|].
    exact F25. }
  split; [assumption|]. split; [assumption|].
  split.
  { destruct F02 as (R & _). now rewrite <- R. }
  split.
  { eapply since_fl; [exact F02|]. eapply since_fr; [exact Sidx1|].
    exact F35. }
  split.
  { eapply since_fl; [exact F02|]. eapply since_fr; [exact Sidx2|].
    exact F35. }
  split; [assumption|].
  split.
  { intros fileName h Hin Hh.
    destruct (Forall2_In_l _ _ _ Hhashes fileName Hin) as (h' & Hh' & Hg).
    rewrite Hh in Hg. injection Hg as <-.
    eapply since_fl; [exact F02|]. eapply since_fr; [apply Sobjects, Hh'|].
    exact F35. }
  split.
  { intros libs element d a p u Hlibs Hin Hde Ha Hp Hu Hsend Hex.
    assert (Hf3 : this_file (this w3) = file) by now rewrite T3, T2.
    assert (Hr3 : this_root (this w3) = root) by now rewrite T3, T2.
    destruct (downloadLibraries_visit w3 w4 m4 libs element d a p u)
      as [S _]; try assumption.
    - now rewrite Hf3.
    - unfold Downloader.sendable in *.
      destruct F03 as (_ & A & _). now rewrite A.
    - rewrite Hr3. destruct F03 as (_ & _ & _ & _ & C). now apply C.
    - rewrite Hr3 in S. simpl in S.
      eapply since_fl; [exact F03|]. eapply since_fr; [exact S|apply E5]. }
  intros libs element d el natives u p Hlibs Hin Hde Hel Hsel Ht Hu Hp Hsend.
  assert (Hf4 : this_file (this w4) = file) by now rewrite T4, T3, T2.
  assert (Hr4 : this_root (this w4) = root) by now rewrite T4, T3, T2.
  destruct (downloadNatives_visit w4 w5 m5 libs element d el natives)
    as (p' & Hp' & Hv); try assumption.
  - now rewrite Hf4.
  - rewrite Hp in Hp'. injection Hp' as <-.
    destruct (Hv u Hu) as [S _].
    + unfold Downloader.sendable in *.
      destruct F04 as (_ & A & _). now rewrite A.
    + rewrite Hr4 in S. eapply since_fl; [exact F04|exact S].
Qed.

Lemma download_requests_again_witness :
  (exists metaUrl file downloads cl clientUrl ai indexUrl index objects,
    Spec.since Sample.downloaded Sample.again
      (EvGet Downloader.url_meta
         (Path.join Sample.root
            [Downloader.cache; "json"; "version_manifest.json"]))
    /\ remote Sample.downloaded metaUrl = Some (Json file)
    /\ Spec.since Sample.downloaded Sample.again
         (EvGet metaUrl
            (Path.join Sample.root
               [Downloader.versions; "1.19"; "1.19" +++ ".json"]))
    /\ Js.get file "downloads" = Ok downloads
    /\ Js.get downloads "client" = Ok cl
    /\ Js.get cl "url" = Ok (VStr clientUrl)
    /\ Spec.since Sample.downloaded Sample.again
         (EvGet clientUrl
            (Path.join Sample.root
               [Downloader.versions; "1.19"; "1.19" +++ ".jar"]))
    /\ Js.get file "assetIndex" = Ok ai
    /\ Js.get ai "url" = Ok (VStr indexUrl)
    /\ remote Sample.downloaded indexUrl = Some (Json index)
    /\ Spec.since Sample.downloaded Sample.again
         (EvGet indexUrl
            (Path.join Sample.root
               [Downloader.assets; "indexes"; "1.19" +++ ".json"]))
    /\ Spec.since Sample.downloaded Sample.again
         (EvGet indexUrl
            (Path.join Sample.root
               [Downloader.cache; "json"; "1.19" +++ ".json"]))
    /\ Js.get index "objects" = Ok objects
    /\ (forall fileName h,
          In fileName (Downloader.own_entries objects) ->
          Js.get fileName "hash" = Ok (VStr h) ->
          Spec.since Sample.downloaded Sample.again
            (EvGet (Downloader.assetUrl h) (Spec.assetPath Sample.root h)))
    /\ (forall libs element d a p u,
          Js.get file "libraries" = Ok (VArr libs) ->
          In element libs ->
          Js.get element "downloads" = Ok d ->
          Js.get d "artifact" = Ok a ->
          Js.get a "path" = Ok (VStr p) ->
          Js.get a "url" = Ok (VStr u) ->
          Downloader.sendable Sample.downloaded u = true ->
          FS.exists_ (fs Sample.downloaded)
            (Path.join Sample.root
               [Downloader.libraries;
                Str.join "/" (removelast (Str.split "/"%char p))]) = true ->
          Spec.since Sample.downloaded Sample.again
            (EvGet u
               (Path.join
                  (Path.join Sample.root
                     [Downloader.libraries;
                      Str.join "/" (removelast (Str.split "/"%char p))])
                  [Path.basename p])))
    /\ (forall libs element d el natives u p,
          Js.get file "libraries" = Ok (VArr libs) ->
          In element libs ->
          Js.get element "downloads" = Ok d ->
          Js.get d "classifiers" = Ok el ->
          Downloader.selectNatives el = Ok natives ->
          Js.truthy natives = true ->
          Js.get natives "url" = Ok (VStr u) ->
          Js.get natives "path" = Ok (VStr p) ->
          Downloader.sendable Sample.downloaded u = true ->
          Spec.since Sample.downloaded Sample.again
            (EvGet u
               (Path.join Sample.root
                  [Downloader.natives; Path.basename p]))))
  /\ FS.read (fs Sample.downloaded)
       ["C:"; "mc"; "libraries"; "com"; "mojang"; "patchy"; "1.1";
        "patchy-1.1.jar"] = Ok (Text "patchy")
  /\ transfers (skipn (length (log Sample.downloaded)) (log Sample.again))
     = [EvGet Downloader.url_meta
          ["C:"; "mc"; "cache"; "json"; "version_manifest.json"];
        EvGet "https://m/1.19.json"
          ["C:"; "mc"; "versions"; "1.19"; "1.19.json"];
        EvGet "https://m/client.jar"
          ["C:"; "mc"; "versions"; "1.19"; "1.19.jar"];
        EvGet "https://m/assets.json"
          ["C:"; "mc"; "assets"; "indexes"; "1.19.json"];
        EvGet "https://m/assets.json"
          ["C:"; "mc"; "cache"; "json"; "1.19.json"];
        EvGet (Downloader.assetUrl "abcd1234")
          ["C:"; "mc"; "assets"; "objects"; "ab"; "abcd1234"];
        EvGet (Downloader.assetUrl "ab99")
          ["C:"; "mc"; "assets"; "objects"; "ab"; "ab99"];
        EvGet "https://l/patchy"
          ["C:"; "mc"; "libraries"; "com"; "mojang"; "patchy"; "1.1";
           "patchy-1.1.jar"];
        EvGet "https://l/lwjgl"
          ["C:"; "mc"; "libraries"; "org"; "lwjgl"; "lwjgl"; "3.2.1";
           "lwjgl-3.2.1.jar"];
        EvGet "https://l/natives"
          ["C:"; "mc"; "natives"; "natives-windows.jar"]].
Proof.
  split; [|split; vm_compute; reflexivity].
  apply (download_requests_again "1.19" Sample.root Sample.downloaded
           Sample.again Downloader.downloaded).
  vm_compute. reflexivity.
Defined.

(** Counterexample to C2 as the specification words it: after a run has
    completed the version directory, where the client jar, the asset
    objects and the library are all on the disk, a second run resolves
    again and sends its ten requests again. *)
Lemma second_run_downloads_again :
  fst (Downloader.download "1.19" Sample.root Sample.empty)
  = Ok (Resolved Downloader.downloaded)
  /\ FS.exists_ (fs Sample.downloaded)
       ["C:"; "mc"; "versions"; "1.19"; "1.19.jar"] = true
  /\ FS.exists_ (fs Sample.downloaded)
       ["C:"; "mc"; "assets"; "objects"; "ab"; "abcd1234"] = true
  /\ FS.exists_ (fs Sample.downloaded)
       ["C:"; "mc"; "libraries"; "com"; "mojang"; "patchy"; "1.1";
        "patchy-1.1.jar"] = true
  /\ fst (Downloader.download "1.19" Sample.root Sample.downloaded)
     = Ok (Resolved Downloader.downloaded)
  /\ length
       (transfers
          (skipn (length (log Sample.downloaded))
             (log Sample.again))) = 10
  /\ transfers
       (skipn (length (log Sample.downloaded))
          (log Sample.again)) <> [].
Proof.
  repeat split; try (vm_compute; reflexivity). vm_compute. discriminate.
Qed.

(* ===================================================================== *)
(** * Further properties *)
(* ===================================================================== *)

(** ** The base version of a version string *)

(** Only at [1.] can a match start. *)
Lemma version_here_head (l m : list ascii) :
  Str.version_here l = Some m ->
  exists r, l = "1"%char :: "."%char :: r.
Proof.
  destruct l as [|c [|d r]]; intros H.
  - discriminate.
  - destruct c as [[|] [|] [|] [|] [|] [|] [|] [|]]; discriminate.
  - destruct c as [[|] [|] [|] [|] [|] [|] [|] [|]]; try discriminate.
    destruct d as [[|] [|] [|] [|] [|] [|] [|] [|]]; try discriminate.
    now exists r.
Qed.

Lemma span_digits_spec (l : list ascii) :
  forall d r, Str.span_digits l = (d, r) ->
    l = d ++ r /\ forallb Str.is_digit d = true.
Proof.
  induction l as [|c l IH]; simpl; intros d r H.
  - injection H as <- <-. now split.
  - destruct (Str.is_digit c) eqn:Ec.
    + destruct (Str.span_digits l) as [d' r'].
      injection H as <- <-. destruct (IH d' r' eq_refl) as [-> Hd].
      split; [reflexivity|]. simpl. now rewrite Ec.
    + injection H as <- <-. now split.
Qed.

Lemma span_digits_app (d r : list ascii) :
  forallb Str.is_digit d = true ->
  match r with [] => True | c :: _ => Str.is_digit c = false end ->
  Str.span_digits (d ++ r) = (d, r).
Proof.
  intros Hd Hr. induction d as [|c d IH]; simpl.
  - destruct r as [|c r]; [reflexivity|]. simpl. now rewrite Hr.
  - simpl in Hd. apply andb_true_iff in Hd. destruct Hd as [-> Hd].
    now rewrite IH.
Qed.

Lemma digits_list (d : list ascii) :
  d <> [] -> forallb Str.is_digit d = true ->
  Spec.digits (string_of_list_ascii d) = true.
Proof.
  intros Hne Hd. unfold Spec.digits.
  rewrite list_ascii_of_string_of_list_ascii, Hd.
  destruct d; [contradiction|reflexivity].
Qed.

Lemma digits_inv (n : string) :
  Spec.digits n = true ->
  list_ascii_of_string n <> []
  /\ forallb Str.is_digit (list_ascii_of_string n) = true.
Proof.
  unfold Spec.digits. intros H. apply andb_true_iff in H.
  destruct H as [Hne Hd]. split; [|assumption].
  destruct n; [discriminate|discriminate].
Qed.

(** What one attempt gives has the shape of a base version and is the
    text at that place. *)
Lemma version_here_shape (l m : list ascii) :
  Str.version_here l = Some m ->
  Spec.release (string_of_list_ascii m) /\ exists post, l = m ++ post.
Proof.
  intros H. destruct (version_here_head _ _ H) as [r ->].
  cbn [Str.version_here] in H.
  destruct (Str.span_digits r) as [d1 r1] eqn:E1.
  apply span_digits_spec in E1. destruct E1 as [-> Hd1].
  destruct d1 as [|c1 d1]; [discriminate|].
  assert (Hshort :
    (if Str.boundary r1
     then Some ("1"%char :: "."%char :: c1 :: d1) else None) = Some m ->
    Spec.release (string_of_list_ascii m)
    /\ exists post,
         "1"%char :: "."%char :: (c1 :: d1) ++ r1 = m ++ post).
  { intros Hs. destruct (Str.boundary r1); [|discriminate].
    injection Hs as <-. split.
    - exists (string_of_list_ascii (c1 :: d1)). split.
      + now apply digits_list.
      + left. reflexivity.
    - exists r1. reflexivity. }
  destruct r1 as [|c r2]; [now apply Hshort|].
  destruct (Ascii.eqb_spec c "."%char) as [->|Hc].
  2:{ apply Hshort.
      destruct c as [[|] [|] [|] [|] [|] [|] [|] [|]];
        try exact H; contradiction Hc; reflexivity. }
  destruct (Str.span_digits r2) as [d2 r3] eqn:E2.
  apply span_digits_spec in E2. destruct E2 as [-> Hd2].
  destruct d2 as [|c2 d2]; [now apply Hshort|].
  destruct (Str.boundary r3); [|now apply Hshort].
  injection H as <-. split.
  - exists (string_of_list_ascii (c1 :: d1)). split.
    + now apply digits_list.
    + right. exists (string_of_list_ascii (c2 :: d2)). split.
      * now apply digits_list.
      * change ("1." +++ ?a) with (String "1" (String "." a)).
        cbn [string_of_list_ascii app]. do 3 f_equal.
        rewrite string_of_list_app. reflexivity.
  - exists r3. cbn [app]. do 3 f_equal. now rewrite <- app_assoc.
Qed.

Lemma version_scan_shape (l : list ascii) : forall prev m,
  Str.version_scan prev l = Some m ->
  Spec.release (string_of_list_ascii m)
  /\ exists pre post, l = pre ++ m ++ post.
Proof.
  induction l as [|c l IH]; intros prev m H; [discriminate|].
  cbn [Str.version_scan] in H.
  destruct (if prev then None else Str.version_here (c :: l)) as [m'|] eqn:E.
  - injection H as ->. destruct prev; [discriminate|].
    apply version_here_shape in E. destruct E as [Hs [post Hp]].
    split; [assumption|]. exists [], post. exact Hp.
  - apply IH in H. destruct H as [Hs (pre & post & ->)].
    split; [assumption|]. exists (c :: pre), post. reflexivity.
Qed.

Lemma prefix_app (m post : list ascii) :
  prefix (string_of_list_ascii m) (string_of_list_ascii (m ++ post)) = true.
Proof.
  induction m as [|c m IH]; simpl.
  - destruct (string_of_list_ascii post); reflexivity.
  - destruct (ascii_dec c c); [assumption|contradiction].
Qed.

Lemma includes_prefix (s sub : string) :
  prefix sub s = true -> Str.includes s sub = true.
Proof.
  intros H. destruct s; cbn [Str.includes]; now rewrite H.
Qed.

Lemma includes_app (pre m post : list ascii) :
  Str.includes (string_of_list_ascii (pre ++ m ++ post))
    (string_of_list_ascii m) = true.
Proof.
  induction pre as [|c pre IH].
  - cbn [app]. apply includes_prefix, prefix_app.
  - cbn [app string_of_list_ascii Str.includes]. rewrite IH.
    apply orb_true_r.
Qed.

Lemma match_version_release (s v : string) :
  Str.match_version s = Some v -> Spec.release v.
Proof.
  unfold Str.match_version. intros H.
  destruct (Str.version_scan false (list_ascii_of_string s)) as [m|] eqn:E;
    [|discriminate].
  injection H as <-. now apply version_scan_shape in E.
Qed.

(** X1.  The base version line 86 takes out of a version string has the
    shape [1.N] or [1.N.M] and occurs in the string. *)
Theorem base_version_shape (s v : string) :
  Str.match_version s = Some v ->
  Spec.release v /\ Str.includes s v = true.
Proof.
  unfold Str.match_version. intros H.
  destruct (Str.version_scan false (list_ascii_of_string s)) as [m|] eqn:E;
    [|discriminate].
  injection H as <-. apply version_scan_shape in E.
  destruct E as [Hs (pre & post & E)]. split; [assumption|].
  rewrite <- (string_of_list_ascii_of_string s), E.
  apply includes_app.
Qed.

Lemma base_version_shape_witness :
  Spec.release "1.19" /\ Str.includes "1.19-fabric-0.1" "1.19" = true.
Proof.
  apply (base_version_shape "1.19-fabric-0.1" "1.19"). reflexivity.
Defined.

(** A string in which [1.] does not occur has no base version. *)
Lemma version_scan_none (s : string) : forall prev,
  Str.includes s "1." = false ->
  Str.version_scan prev (list_ascii_of_string s) = None.
Proof.
  induction s as [|c s IH]; intros prev H; [reflexivity|].
  cbn [Str.includes] in H. apply orb_false_iff in H. destruct H as [Hp Hi].
  cbn [list_ascii_of_string Str.version_scan].
  rewrite (IH _ Hi).
  destruct prev; [reflexivity|].
  destruct (Str.version_here (c :: list_ascii_of_string s)) as [m|] eqn:E;
    [|reflexivity].
  apply version_here_head in E. destruct E as [r E].
  injection E as -> E. destruct s as [|d s]; [discriminate|].
  injection E as -> _. simpl in Hp. destruct s; discriminate Hp.
Qed.

(** X2.  A version string in which [1.] does not occur has no base version:
    [match] gives [null], reading its first element throws, and the launch
    ends there, before anything is read, written or started. *)
Theorem launch_without_base_version (o : options) (w : world) :
  Str.includes (version o) "1." = false ->
  Launcher.launch o w = (Throw TypeError, w).
Proof.
  intros H. unfold Launcher.launch, Str.match_version.
  now rewrite (version_scan_none _ false H).
Qed.

Lemma launch_without_base_version_witness :
  Launcher.launch (Sample.launchOf "23w13a" "Alex") Sample.installed
  = (Throw TypeError, Sample.installed).
Proof.
  apply (launch_without_base_version (Sample.launchOf "23w13a" "Alex")).
  reflexivity.
Defined.

Lemma version_here_release (d1 : list ascii) :
  d1 <> [] -> forallb Str.is_digit d1 = true ->
  Str.version_here ("1"%char :: "."%char :: d1)
  = Some ("1"%char :: "."%char :: d1)
  /\ forall d2, d2 <> [] -> forallb Str.is_digit d2 = true ->
       Str.version_here ("1"%char :: "."%char :: d1 ++ "."%char :: d2)
       = Some ("1"%char :: "."%char :: d1 ++ "."%char :: d2).
Proof.
  intros Hne Hd. split.
  - cbn [Str.version_here].
    rewrite <- (app_nil_r d1) at 1.
    rewrite span_digits_app by (assumption || exact I).
    destruct d1; [contradiction|reflexivity].
  - intros d2 Hne2 Hd2. cbn [Str.version_here].
    rewrite span_digits_app by (assumption || reflexivity).
    destruct d1 as [|c1 d1]; [contradiction|].
    rewrite <- (app_nil_r d2) at 1.
    rewrite span_digits_app by (assumption || exact I).
    destruct d2; [contradiction|reflexivity].
Qed.

(** X3.  A version string of the shape [1.N] or [1.N.M] is its own base
    version, so that no overlay is selected for it. *)
Theorem release_is_own_base (o : options) :
  Spec.release (version o) ->
  Str.match_version (version o) = Some (version o)
  /\ Launcher.customOf (version o) (version o) = None
  /\ ~ Spec.overlaySelected o.
Proof.
  intros (n & Hn & Hv).
  apply digits_inv in Hn. destruct Hn as [Hne Hd].
  destruct (version_here_release _ Hne Hd) as [H1 H2].
  assert (Hm : Str.match_version (version o) = Some (version o)).
  { unfold Str.match_version.
    rewrite <- (string_of_list_ascii_of_string (version o)) at 2.
    destruct Hv as [->|(m & Hm & ->)].
    - cbn [String.append list_ascii_of_string Str.version_scan].
      now rewrite H1.
    - apply digits_inv in Hm. destruct Hm as [Hne2 Hd2].
      cbn [String.append list_ascii_of_string Str.version_scan].
      rewrite list_ascii_app. cbn [String.append list_ascii_of_string].
      now rewrite (H2 _ Hne2 Hd2). }
  split; [assumption|]. split.
  - unfold Launcher.customOf. now rewrite String.eqb_refl.
  - intros (v & Hv' & Hneq). rewrite Hm in Hv'. now injection Hv' as <-.
Qed.

Lemma release_is_own_base_witness :
  Str.match_version (version Sample.vanilla) = Some (version Sample.vanilla)
  /\ Launcher.customOf (version Sample.vanilla) (version Sample.vanilla)
     = None
  /\ ~ Spec.overlaySelected Sample.vanilla.
Proof.
  apply (release_is_own_base Sample.vanilla).
  exists "19". split; [reflexivity|]. left. reflexivity.
Defined.

(** ** The process a launch starts *)

Lemma silent_filter (evs : list event) :
  Forall Spec.silent evs -> filter Spec.is_spawn evs = [].
Proof.
  induction 1 as [|e evs He _ IH]; [reflexivity|].
  simpl. now rewrite He.
Qed.

Lemma spawnsLast_bind {A} (cwd : path) (m : M A) (k : A -> M unit) :
  Spec.respects Spec.silent (fun _ => False) m ->
  (forall a w r w', k a w = (r, w') -> Spec.spawnsLast cwd w r w') ->
  forall w r w', bind m k w = (r, w') -> Spec.spawnsLast cwd w r w'.
Proof.
  intros Hm Hk w r w' H. apply bind_inv in H.
  destruct H as [(a & w1 & H1 & H2)|(e & H1 & ->)].
  - apply Hm in H1. destruct H1 as (evs1 & L1 & F1 & _).
    apply Hk in H2. destruct H2 as (evs2 & L2 & H2).
    exists (evs1 ++ evs2). split.
    + unfold Spec.added in *. now rewrite L2, L1, app_assoc.
    + apply silent_filter in F1. destruct r as [u|e].
      * destruct H2 as (before & args & -> & Hb).
        exists (evs1 ++ before), args. split; [now rewrite app_assoc|].
        now rewrite filter_app, F1, Hb.
      * now rewrite filter_app, F1, H2.
  - apply Hm in H1. destruct H1 as (evs1 & L1 & F1 & _).
    exists evs1. split; [assumption|]. now apply silent_filter.
Qed.

Lemma respects_createProfile allowed untouched (root : path) :
  (forall p c, allowed (EvWrite p c)) ->
  (forall q, untouched q -> q <> Spec.profilesPath root) ->
  Spec.respects allowed untouched (Launcher.createProfile root).
Proof.
  intros Ha Hu. unfold Launcher.createProfile. respects_steps.
  destruct a; simpl; respects_steps.
  apply respects_writeFileSync; [apply Ha|exact Hu].
Qed.

Lemma respects_mergeCustom allowed (root : path) (custom : option string)
  (base : Launcher.plan) :
  (forall p, allowed (EvUnlink p)) ->
  Spec.respects allowed (fun _ => False)
    (Launcher.mergeCustom root custom base).
Proof.
  intros Ha. unfold Launcher.mergeCustom.
  destruct custom as [c|]; respects_steps.
  destruct a2; respects_steps.
  apply respects_unlinkSync; [apply Ha|intros q []].
Qed.

(** X4.  A launch starts java once, in the game directory and as the last
    thing it does, when it succeeds, and starts nothing when it throws. *)
Theorem launch_spawns_once (o : options) (w : world) (r : result unit)
  (w' : world) :
  Launcher.launch o w = (r, w') ->
  exists evs,
    Spec.added w w' evs
    /\ match r with
       | Ok _ =>
           exists before args,
             evs = before ++ [EvSpawn "java" args (gameDirectory o)]
             /\ filter Spec.is_spawn before = []
       | Throw _ => filter Spec.is_spawn evs = []
       end.
Proof.
  revert w r w'. unfold Launcher.launch.
  change (forall w r w',
    ?t w = (r, w') -> _) with
    (forall w r w', t w = (r, w') -> Spec.spawnsLast (gameDirectory o) w r w').
  apply spawnsLast_bind.
  { destruct (Str.match_version (version o)); respects_steps. }
  intro v.
  apply spawnsLast_bind; [respects_steps|intro raw].
  apply spawnsLast_bind; [respects_steps|intro file].
  apply spawnsLast_bind;
    [apply respects_createProfile; [reflexivity|intros q []]|intros _].
  apply spawnsLast_bind; [apply respects_auth|intro uuid].
  apply spawnsLast_bind; [respects_steps|intro base].
  apply spawnsLast_bind; [now apply respects_mergeCustom|intro p].
  apply spawnsLast_bind; [apply respects_encontrarArchivosJAR|intro found].
  apply spawnsLast_bind; [respects_steps|intro args].
  intros w r w' H. unfold spawn, emit in H. injection H as <- <-.
  eexists. split; [reflexivity|].
  exists [], (Launcher.substitute
                (Launcher.fields uuid (username o) v (gameDirectory o)) args).
  split; reflexivity.
Qed.

Lemma launch_spawns_once_witness :
  exists evs,
    Spec.added Sample.installed (Sample.launched Sample.fabric) evs
    /\ exists before args,
         evs = before ++ [EvSpawn "java" args Sample.root]
         /\ filter Spec.is_spawn before = [].
Proof.
  apply (launch_spawns_once Sample.fabric Sample.installed (Ok tt)).
  vm_compute. reflexivity.
Defined.

(** The world a launch that reaches [spawn] leaves. *)
Lemma launch_ok_world (o : options) (w w' : world) :
  Launcher.launch o w = (Ok tt, w') ->
  exists v file uuid base p found args w1 w2 w3,
    Str.match_version (version o) = Some v
    /\ Launcher.createProfile (gameDirectory o) w = (Ok tt, w1)
    /\ Launcher.auth (gameDirectory o) (username o) w1 = (Ok uuid, w2)
    /\ Launcher.basePlan file = Ok base
    /\ Launcher.mergeCustom (gameDirectory o)
         (Launcher.customOf (version o) v) base w2 = (Ok p, w3)
    /\ Launcher.template o v
         (found +++ Path.render
                      (Launcher.gameJar (gameDirectory o) v
                         (Launcher.customOf (version o) v))) p = Ok args
    /\ w' = with_log w3
              (log w3 ++
               [EvSpawn "java"
                  (Launcher.substitute
                     (Launcher.fields uuid (username o) v (gameDirectory o))
                     args)
                  (gameDirectory o)]).
Proof.
  unfold Launcher.launch. intros H.
  destruct (Str.match_version (version o)) as [v|] eqn:Ev; [|discriminate].
  apply bind_ok_inv in H. destruct H as (v' & ? & H0 & H).
  injection H0 as <- <-.
  apply bind_ok_inv in H. destruct H as (raw & ? & H0 & H).
  unfold readFileSync in H0. injection H0 as Hraw <-.
  apply bind_ok_inv in H. destruct H as (file & ? & H0 & H).
  apply lift_inv in H0. destruct H0 as [Hfile ->].
  apply bind_ok_inv in H. destruct H as ([] & w1 & H1 & H).
  apply bind_ok_inv in H. destruct H as (uuid & w2 & H2 & H).
  apply bind_ok_inv in H. destruct H as (base & ? & H0 & H).
  apply lift_inv in H0. destruct H0 as [Hbase ->].
  apply bind_ok_inv in H. destruct H as (p & w3 & H3 & H).
  apply bind_ok_inv in H. destruct H as (found & ? & H0 & H).
  unfold Launcher.encontrarArchivosJAR in H0.
  apply bind_ok_inv in H0. destruct H0 as (archivos & w4 & H4 & H0).
  unfold readdirSync in H4. injection H4 as Hdir <-.
  injection H0 as <- <-.
  apply bind_ok_inv in H. destruct H as (args & ? & H0 & H).
  apply lift_inv in H0. destruct H0 as [Hargs ->].
  injection H as <-.
  exists v, file, uuid, base, p,
    (Launcher.scan (Path.resolve
                      (Path.join (gameDirectory o) [Downloader.libraries]))
       archivos (Launcher.reqLibs p) v), args, w1, w2, w3.
  repeat split; auto.
Qed.

(** The template starts with the five flags for java. *)
Lemma template_flags (o : options) (v libs : string) (p : Launcher.plan)
  (args : list value) :
  Launcher.template o v libs p = Ok args ->
  firstn 5 args =
  [ VStr (Launcher.libraryPathFlag (gameDirectory o) v);
    VStr ("-Xmx" +++ memory_max o);
    VStr ("-Xms" +++ memory_min o);
    VStr Launcher.heapDumpFlag;
    VStr "-cp" ].
Proof.
  unfold Launcher.template.
  destruct (Js.as_array (Launcher.gameArgs p)) as [ga|e]; [|discriminate].
  intros H. injection H as <-. reflexivity.
Qed.

Lemma is_digit_not_sep (c : ascii) :
  Str.is_digit c = true -> Path.is_sep c = false.
Proof.
  intros H. apply is_hex_not_sep. unfold Spec.is_hex. now rewrite H.
Qed.

Lemma digits_no_sep (n : string) :
  Spec.digits n = true ->
  forallb (fun x => negb (Path.is_sep x)) (list_ascii_of_string n) = true.
Proof.
  intros H. apply digits_inv in H. destruct H as [_ H].
  apply forallb_forall. intros c Hc. rewrite forallb_forall in H.
  now rewrite is_digit_not_sep by auto.
Qed.

Lemma digits_no_colon (n : string) :
  Spec.digits n = true -> Spec.lacks ":" n = true.
Proof.
  intros H. apply digits_inv in H. destruct H as [_ H].
  unfold Spec.lacks. apply forallb_forall. intros c Hc.
  rewrite forallb_forall in H. rewrite is_hex_not_colon; [reflexivity|].
  unfold Spec.is_hex. now rewrite (H c Hc).
Qed.

(** A base version is a plain name. *)
Lemma release_plain (v : string) : Spec.release v -> Spec.plain v = true.
Proof.
  intros (n & Hn & [->|(m & Hm & ->)]); unfold Spec.plain, Spec.lacks;
    cbn [String.append list_ascii_of_string forallb].
  - rewrite (digits_no_sep _ Hn).
    pose proof (digits_no_colon _ Hn) as Hc. unfold Spec.lacks in Hc.
    rewrite Hc. apply digits_inv in Hn.
    destruct n; [now destruct Hn|reflexivity].
  - rewrite list_ascii_app, !forallb_app.
    cbn [list_ascii_of_string forallb].
    rewrite (digits_no_sep _ Hn), (digits_no_sep _ Hm).
    pose proof (digits_no_colon _ Hn) as Hc. unfold Spec.lacks in Hc.
    pose proof (digits_no_colon _ Hm) as Hc'. unfold Spec.lacks in Hc'.
    rewrite Hc, Hc'.
    apply digits_inv in Hn. destruct n; [now destruct Hn|reflexivity].
Qed.

Lemma render_nonempty (p : path) (a b : string) :
  Path.render (p ++ [a; b]) <> "".
Proof.
  unfold Path.render.
  destruct p as [|x [|y p]]; cbn [app String.concat];
    apply append_nonempty_r; discriminate.
Qed.

(** The directory the natives of a base version are looked for in. *)
Lemma natives_dir (root : path) (v : string) :
  Spec.release v ->
  Path.join root [Downloader.natives; v] = root ++ ["natives"; v].
Proof.
  intros Hv. change [Downloader.natives; v] with ([Downloader.natives] ++ [v]).
  rewrite <- join_join, (join_plain _ v) by now apply release_plain.
  rewrite join_plain by reflexivity. now rewrite <- app_assoc.
Qed.

Lemma libraryPathFlag_release (root : path) (v : string) :
  Spec.release v ->
  Launcher.libraryPathFlag root v
  = "-Djava.library.path=" +++ Path.render (root ++ ["natives"; v]).
Proof.
  intros Hv. unfold Launcher.libraryPathFlag, Path.resolve.
  rewrite natives_dir by assumption.
  destruct (String.eqb_spec (Path.render (root ++ ["natives"; v])) "")
    as [E|_]; [|reflexivity].
  now apply render_nonempty in E.
Qed.

(** X5.  The command line of a launch starts with the library path
    [natives\<base version>] below the game directory, the upper and the
    lower bound of the heap, in that order, the heap dump path and [-cp];
    filling the placeholders never rewrites these; and java is started in
    the game directory. *)
Theorem launch_jvm_flags (o : options) (w w' : world) :
  Launcher.launch o w = (Ok tt, w') ->
  exists v argv before,
    Str.match_version (version o) = Some v
    /\ log w' = before ++ [EvSpawn "java" argv (gameDirectory o)]
    /\ firstn 5 argv =
       [ VStr ("-Djava.library.path=" +++
               Path.render (gameDirectory o ++ ["natives"; v]));
         VStr ("-Xmx" +++ memory_max o);
         VStr ("-Xms" +++ memory_min o);
         VStr Launcher.heapDumpFlag;
         VStr "-cp" ].
Proof.
  intros H. apply launch_ok_world in H.
  destruct H as (v & file & uuid & base & p & found & args & w1 & w2 & w3
                 & Hv & _ & _ & _ & _ & Ht & ->).
  eexists v, _, (log w3). split; [assumption|]. split; [reflexivity|].
  rewrite substitute_map, firstn_map, (template_flags _ _ _ _ _ Ht).
  assert (Hk : Forall (fun k => prefix "$" k = true)
                 (map fst (Launcher.fields uuid (username o) v
                             (gameDirectory o)))).
  { repeat constructor. }
  rewrite libraryPathFlag_release
    by now apply (match_version_release (version o)).
  cbn [map]. unfold Launcher.heapDumpFlag.
  cbn [String.append].
  now rewrite !(fill_flag _ _ Hk).
Qed.

Lemma launch_jvm_flags_witness :
  exists v argv before,
    Str.match_version (version Sample.forge) = Some v
    /\ log (Sample.launched Sample.forge)
       = before ++ [EvSpawn "java" argv Sample.root]
    /\ firstn 5 argv =
       [ VStr ("-Djava.library.path=" +++
               Path.render (Sample.root ++ ["natives"; v]));
         VStr ("-Xmx" +++ "2G");
         VStr ("-Xms" +++ "1G");
         VStr Launcher.heapDumpFlag;
         VStr "-cp" ].
Proof.
  apply (launch_jvm_flags Sample.forge Sample.installed).
  vm_compute. reflexivity.
Defined.

(** ** The options file *)

Lemma mergeCustom_options (root : path) (c : string)
  (base p : Launcher.plan) (w w' : world) :
  Launcher.mergeCustom root (Some c) base w = (Ok p, w') ->
  FS.exists_ (fs w') (Path.join root ["options.txt"]) = false.
Proof.
  unfold Launcher.mergeCustom, Path.resolve. intros H.
  apply bind_ok_inv in H. destruct H as (raw & ? & H0 & H).
  unfold readFileSync in H0. injection H0 as _ <-.
  apply bind_ok_inv in H. destruct H as (customFile & ? & H0 & H).
  apply lift_inv in H0. destruct H0 as [_ ->].
  apply bind_ok_inv in H. destruct H as (p' & ? & H0 & H).
  apply lift_inv in H0. destruct H0 as [_ ->].
  apply bind_ok_inv in H. destruct H as (ex & ? & H0 & H).
  unfold existsSync in H0. injection H0 as <- <-.
  apply bind_ok_inv in H. destruct H as ([] & w1 & H0 & H).
  injection H as _ <-.
  destruct (FS.exists_ (fs w) (Path.join root ["options.txt"])) eqn:E.
  - unfold unlinkSync in H0. apply mutate_ok_inv in H0.
    destruct H0 as (n & Hun & ->). simpl. eapply unlink_gone; eassumption.
  - injection H0 as <-. exact E.
Qed.

Lemma options_not_profiles (root : path) :
  Spec.optionsPath root <> Spec.profilesPath root.
Proof.
  unfold Spec.optionsPath, Spec.profilesPath.
  rewrite !join_plain by reflexivity.
  intros E. apply app_inv_head in E. discriminate.
Qed.

(** X6.  What a launch that reaches [spawn] leaves of [options.txt]: with an
    overlay the file is gone, whether it was there or not; without one it
    reads as before. *)
Theorem launch_options_file (o : options) (w w' : world) :
  Launcher.launch o w = (Ok tt, w') ->
  (Spec.overlaySelected o ->
   FS.exists_ (fs w') (Spec.optionsPath (gameDirectory o)) = false)
  /\ (~ Spec.overlaySelected o ->
      FS.read (fs w') (Spec.optionsPath (gameDirectory o))
      = FS.read (fs w) (Spec.optionsPath (gameDirectory o))).
Proof.
  intros H. apply launch_ok_world in H.
  destruct H as (v & file & uuid & base & p & found & args & w1 & w2 & w3
                 & Hv & Hprof & Hauth & _ & Hmerge & _ & ->).
  cbn [fs with_log]. split.
  - intros (v' & Hv' & Hneq). rewrite Hv in Hv'. injection Hv' as <-.
    unfold Launcher.customOf in Hmerge.
    destruct (String.eqb_spec (version o) v); [contradiction|].
    eapply mergeCustom_options; eassumption.
  - intros Hno. unfold Launcher.customOf in Hmerge.
    destruct (String.eqb_spec (version o) v) as [E|E].
    2:{ contradiction Hno. now exists v. }
    injection Hmerge as _ <-.
    apply (respects_auth (fun _ => True)
             (fun q => q = Spec.optionsPath (gameDirectory o))) in Hauth.
    apply (respects_createProfile (fun _ => True)
             (fun q => q = Spec.optionsPath (gameDirectory o))) in Hprof;
      [|auto|intros q ->; apply options_not_profiles].
    destruct Hauth as (_ & _ & _ & R2). destruct Hprof as (_ & _ & _ & R1).
    now rewrite R2, R1.
Qed.

Lemma launch_options_file_witness :
  FS.exists_ (fs Sample.installed) (Spec.optionsPath Sample.root) = true
  /\ Spec.overlaySelected Sample.fabric
  /\ FS.exists_ (fs (Sample.launched Sample.fabric))
       (Spec.optionsPath Sample.root) = false.
Proof.
  assert (Hsel : Spec.overlaySelected Sample.fabric).
  { exists "1.19". split; [reflexivity|discriminate]. }
  split; [reflexivity|]. split; [exact Hsel|].
  refine (proj1 (launch_options_file Sample.fabric Sample.installed
                   (Sample.launched Sample.fabric) _) Hsel).
  vm_compute. reflexivity.
Defined.

(** ** The profiles file *)

(** X7.  [createProfile] never overwrites: a profiles file that is there is
    left alone, one that is missing is created with no profile in it, and
    a second call changes nothing. *)
Theorem createProfile_idempotent (root : path) (w w1 : world) :
  Launcher.createProfile root w = (Ok tt, w1) ->
  FS.exists_ (fs w1) (Spec.profilesPath root) = true
  /\ Launcher.createProfile root w1 = (Ok tt, w1)
  /\ (FS.exists_ (fs w) (Spec.profilesPath root) = true -> w1 = w)
  /\ (FS.exists_ (fs w) (Spec.profilesPath root) = false ->
      FS.read (fs w1) (Spec.profilesPath root)
      = Ok (Json (VObj [("profiles", VObj [])]))).
Proof.
  unfold Launcher.createProfile, Spec.profilesPath, Path.resolve.
  intros H. apply bind_ok_inv in H. destruct H as (ex & ? & H0 & H).
  unfold existsSync in H0. injection H0 as <- <-.
  assert (Hex : FS.exists_ (fs w1) (Path.join root ["launcher_profiles.json"])
                = true).
  { destruct (FS.exists_ (fs w) (Path.join root ["launcher_profiles.json"]))
      eqn:E.
    - injection H as <-. exact E.
    - unfold writeFileSync in H. apply mutate_ok_inv in H.
      destruct H as (n & Hw & ->). simpl.
      rewrite <- (app_nil_r (Path.join root ["launcher_profiles.json"])) in Hw.
      eapply write_exists_prefix; eassumption. }
  split; [exact Hex|]. split.
  - unfold bind, existsSync. now rewrite Hex.
  - split; intros E; rewrite E in H.
    + now injection H as <-.
    + unfold writeFileSync in H. apply mutate_ok_inv in H.
      destruct H as (n & Hw & ->). simpl. eapply write_read; eassumption.
Qed.

Lemma createProfile_idempotent_witness :
  FS.exists_ (fs (snd (Launcher.createProfile Sample.root Sample.installed)))
    (Spec.profilesPath Sample.root) = true
  /\ Launcher.createProfile Sample.root
       (snd (Launcher.createProfile Sample.root Sample.installed))
     = (Ok tt, snd (Launcher.createProfile Sample.root Sample.installed))
  /\ (FS.exists_ (fs Sample.installed) (Spec.profilesPath Sample.root) = true
      -> snd (Launcher.createProfile Sample.root Sample.installed)
         = Sample.installed)
  /\ (FS.exists_ (fs Sample.installed) (Spec.profilesPath Sample.root)
      = false ->
      FS.read (fs (snd (Launcher.createProfile Sample.root Sample.installed)))
        (Spec.profilesPath Sample.root)
      = Ok (Json (VObj [("profiles", VObj [])]))).
Proof.
  apply (createProfile_idempotent Sample.root Sample.installed).
  vm_compute. reflexivity.
Defined.

(** ** What the search lets in *)

Lemma admitted_iff (files : list string) (ver : string) (ruta : path)
  (archivo : string) :
  Spec.admitted files ver (ruta, archivo) = true <->
  Path.extname archivo = ".jar" /\ In archivo files
  /\ (In ver Launcher.legacy \/ Str.includes archivo "3.2.1" = false).
Proof.
  unfold Spec.admitted, Launcher.visitFile. cbn [fst snd].
  assert (Hne : String.eqb (Path.render ruta +++ ";") "" = false).
  { apply String.eqb_neq, append_nonempty_r. discriminate. }
  rewrite <- (mem_In archivo files), <- (mem_In ver Launcher.legacy).
  destruct (Str.mem ver Launcher.legacy);
    destruct (String.eqb_spec (Path.extname archivo) ".jar");
    destruct (Str.mem archivo files);
    destruct (Str.includes archivo "3.2.1");
    cbn [andb negb]; rewrite ?Hne; cbn [negb];
    intuition (discriminate || auto).
Qed.

(** X8.  The search gives the files below the directory, at any depth and in
    the order the directories list them, whose name ends in [.jar] and is
    one of the required names, those containing [3.2.1] only for the
    versions 1.14, 1.14.1, 1.14.2 and 1.14.3; each with its full path and
    [;] after it.  Nothing else is looked at: two files of the same name
    in different directories are both let in. *)
Theorem search_selects_required_jars (w : world) (directorio : path)
  (archivos : list (string * node)) (files : list string) (ver : string) :
  FS.readdir (fs w) directorio = Ok archivos ->
  Launcher.encontrarArchivosJAR directorio files ver w
  = (Ok (Spec.classpath
           (filter (Spec.admitted files ver)
              (Spec.filesUnder directorio archivos))), w)
  /\ forall ruta archivo,
       In (ruta, archivo)
         (filter (Spec.admitted files ver)
            (Spec.filesUnder directorio archivos))
       <-> In (ruta, archivo) (Spec.filesUnder directorio archivos)
           /\ Path.extname archivo = ".jar"
           /\ In archivo files
           /\ (In ver ["1.14"; "1.14.1"; "1.14.2"; "1.14.3"]
               \/ Str.includes archivo "3.2.1" = false).
Proof.
  intros Hdir. split.
  - unfold Launcher.encontrarArchivosJAR, bind, readdirSync, ret.
    rewrite Hdir. now rewrite scan_classpath.
  - intros ruta archivo. rewrite filter_In, admitted_iff. reflexivity.
Qed.

Lemma search_selects_required_jars_witness :
  (Launcher.encontrarArchivosJAR (Sample.root ++ ["libraries"])
     ["patchy-1.1.jar"; "lwjgl-3.2.1.jar"] "1.14.2" Sample.installed
   = (Ok (Spec.classpath
            (filter
               (Spec.admitted ["patchy-1.1.jar"; "lwjgl-3.2.1.jar"] "1.14.2")
               (Spec.filesUnder (Sample.root ++ ["libraries"])
                  Sample.librariesDir))), Sample.installed)
   /\ forall ruta archivo,
        In (ruta, archivo)
          (filter
             (Spec.admitted ["patchy-1.1.jar"; "lwjgl-3.2.1.jar"] "1.14.2")
             (Spec.filesUnder (Sample.root ++ ["libraries"])
                Sample.librariesDir))
        <-> In (ruta, archivo)
              (Spec.filesUnder (Sample.root ++ ["libraries"])
                 Sample.librariesDir)
            /\ Path.extname archivo = ".jar"
            /\ In archivo ["patchy-1.1.jar"; "lwjgl-3.2.1.jar"]
            /\ (In "1.14.2" ["1.14"; "1.14.1"; "1.14.2"; "1.14.3"]
                \/ Str.includes archivo "3.2.1" = false))
  /\ fst (Launcher.encontrarArchivosJAR (Sample.root ++ ["libraries"])
            ["patchy-1.1.jar"; "lwjgl-3.2.1.jar"] "1.14.2" Sample.installed)
     = Ok ("C:\mc\libraries\com\patchy-1.1.jar;"
           +++ "C:\mc\libraries\org\lwjgl\lwjgl-3.2.1.jar;")
  /\ fst (Launcher.encontrarArchivosJAR (Sample.root ++ ["libraries"])
            ["patchy-1.1.jar"; "lwjgl-3.2.1.jar"] "1.19" Sample.installed)
     = Ok "C:\mc\libraries\com\patchy-1.1.jar;".
Proof.
  split; [|split; vm_compute; reflexivity].
  apply (search_selects_required_jars Sample.installed
           (Sample.root ++ ["libraries"]) Sample.librariesDir
           ["patchy-1.1.jar"; "lwjgl-3.2.1.jar"] "1.14.2").
  reflexivity.
Defined.

(** ** The game arguments of an overlay *)

Lemma flat_app (l1 l2 : list value) :
  Js.flat (l1 ++ l2) = Js.flat l1 ++ Js.flat l2.
Proof. unfold Js.flat. apply flat_map_app. Qed.

Lemma flat_strings (l : list string) :
  Js.flat (map VStr l) = map VStr l.
Proof.
  induction l as [|s l IH]; [reflexivity|].
  cbn [map]. change (Js.flat (VStr s :: map VStr l))
    with (VStr s :: Js.flat (map VStr l)). now rewrite IH.
Qed.

(** The template: six tokens, the main class, spread when it is an array,
    and the game arguments. *)
Lemma template_shape (o : options) (v libs : string) (p : Launcher.plan)
  (args : list value) :
  Launcher.template o v libs p = Ok args ->
  exists head ga,
    Launcher.gameArgs p = VArr ga
    /\ args = head ++ Js.flat ga
    /\ length head = 6 + length (Js.flat [Launcher.mainClass p]).
Proof.
  unfold Launcher.template.
  destruct (Launcher.gameArgs p) as [| | | | |ga|]; try discriminate.
  cbn [Js.as_array]. intros H. injection H as <-.
  unfold Js.concat_all. cbn [fold_left]. eexists _, ga.
  split; [reflexivity|]. split; [reflexivity|].
  rewrite length_app. unfold Js.flat. cbn [flat_map app length].
  now rewrite app_nil_r.
Qed.

Lemma basePlan_gameArgs (file : value) (base : Launcher.plan) :
  Launcher.basePlan file = Ok base ->
  Launcher.baseGameArgs file = Ok (Launcher.gameArgs base).
Proof.
  unfold Launcher.basePlan.
  destruct (Js.get file "libraries") as [ls|]; [|discriminate].
  destruct (Js.as_array ls); [|discriminate].
  destruct (Launcher.baseLibs _); [|discriminate].
  destruct (Js.get file "mainClass"); [|discriminate].
  destruct (Launcher.baseGameArgs file); [|discriminate].
  intros H. now injection H as <-.
Qed.

(** X9.  How the game arguments of an overlay reach java.  After the six
    tokens that end with the classpath and after the main class, the
    vector java is started with holds, placeholders filled: the game
    arguments of the base version followed by the overlay's
    [arguments.game], when the overlay has [arguments]; the overlay's
    [minecraftArguments] split at every space and nothing of the base
    version, when it has none. *)
Theorem overlay_game_arguments (o : options) (w w' : world) :
  Launcher.launch o w = (Ok tt, w') ->
  Spec.overlaySelected o ->
  exists v file customFile uuid a mc head rest before,
    Str.match_version (version o) = Some v
    /\ FS.read (fs w)
         (Path.join (gameDirectory o) [Downloader.versions; v; v +++ ".json"])
       = Ok (Json file)
    /\ FS.read (fs w)
         (Path.join (gameDirectory o)
            [Downloader.versions; version o; version o +++ ".json"])
       = Ok (Json customFile)
    /\ fst (Launcher.auth (gameDirectory o) (username o) w) = Ok uuid
    /\ Js.get customFile "arguments" = Ok a
    /\ Js.get customFile "mainClass" = Ok mc
    /\ log w'
       = before
         ++ [EvSpawn "java"
               (head
                ++ map (Spec.fill
                          (Launcher.fields uuid (username o) v
                             (gameDirectory o))) rest)
               (gameDirectory o)]
    /\ length head = 6 + length (Js.flat [mc])
    /\ if Js.truthy a
       then exists baseArgs g,
              Launcher.baseGameArgs file = Ok (VArr baseArgs)
              /\ Js.get a "game" = Ok g
              /\ rest = Js.flat baseArgs ++ Js.flat [g]
       else exists s,
              Js.get customFile "minecraftArguments" = Ok (VStr s)
              /\ rest = map VStr (Str.split " " s).
Proof.
  intros H (v0 & Hv0 & Hneq). apply launch_run in H.
  destruct H as (v & uuid & p & archivos & args & before
                 & Hv & Hauth & (file & base & Hfile & Hbase & Hp) & Hdir
                 & Ht & Hl).
  rewrite Hv0 in Hv. injection Hv as ->.
  assert (Hc : Launcher.customOf (version o) v = Some (version o)).
  { unfold Launcher.customOf.
    destruct (String.eqb_spec (version o) v); [contradiction|reflexivity]. }
  rewrite Hc in Hp, Ht. destruct Hp as (customFile & Hread & Hp).
  apply template_shape in Ht.
  destruct Ht as (head & ga & Hga & -> & Hlen).
  apply basePlan_gameArgs in Hbase.
  unfold Launcher.customPlan in Hp.
  destruct (Js.get customFile "libraries") as [ls|]; [|discriminate].
  destruct (Js.as_array ls); [|discriminate].
  destruct (Launcher.customLibs _); [|discriminate].
  destruct (Js.get customFile "mainClass") as [mc|] eqn:Hmc; [|discriminate].
  destruct (Launcher.customGameArgs customFile (Launcher.gameArgs base))
    as [ga'|] eqn:Eg; [|discriminate].
  injection Hp as <-. cbn [Launcher.gameArgs Launcher.mainClass] in Hga, Hlen.
  subst ga'.
  unfold Launcher.customGameArgs in Eg.
  destruct (Js.get customFile "arguments") as [arg|] eqn:Harg;
    [|discriminate].
  rewrite map_app in Hl.
  exists v, file, customFile, uuid, arg, mc,
    (map (Spec.fill (Launcher.fields uuid (username o) v (gameDirectory o)))
       head), (Js.flat ga), before.
  repeat (split; [assumption || reflexivity|]).
  split; [now rewrite length_map|].
  destruct (Js.truthy arg); cbn [negb] in Eg.
  - destruct (Js.get arg "game") as [g|]; [|discriminate].
    destruct (Launcher.gameArgs base) as [| | | | |l|]; try discriminate.
    injection Eg as <-. exists l, g. rewrite flat_app. auto.
  - destruct (Js.get customFile "minecraftArguments") as [ma|];
      [|discriminate].
    destruct ma; try discriminate. injection Eg as <-.
    exists s. now rewrite flat_strings.
Qed.

Lemma overlay_game_arguments_witness :
  (exists v file customFile uuid a mc head rest before,
     Str.match_version (version Sample.fabric) = Some v
     /\ FS.read (fs Sample.installed)
          (Path.join Sample.root [Downloader.versions; v; v +++ ".json"])
        = Ok (Json file)
     /\ FS.read (fs Sample.installed)
          (Path.join Sample.root
             [Downloader.versions; version Sample.fabric;
              version Sample.fabric +++ ".json"])
        = Ok (Json customFile)
     /\ fst (Launcher.auth Sample.root (username Sample.fabric)
               Sample.installed) = Ok uuid
     /\ Js.get customFile "arguments" = Ok a
     /\ Js.get customFile "mainClass" = Ok mc
     /\ log (Sample.launched Sample.fabric)
        = before
          ++ [EvSpawn "java"
                (head
                 ++ map (Spec.fill
                           (Launcher.fields uuid (username Sample.fabric) v
                              Sample.root)) rest)
                Sample.root]
     /\ length head = 6 + length (Js.flat [mc])
     /\ if Js.truthy a
        then exists baseArgs g,
               Launcher.baseGameArgs file = Ok (VArr baseArgs)
               /\ Js.get a "game" = Ok g
               /\ rest = Js.flat baseArgs ++ Js.flat [g]
        else exists s,
               Js.get customFile "minecraftArguments" = Ok (VStr s)
               /\ rest = map VStr (Str.split " " s))
  /\ (exists before head,
        log (Sample.launched Sample.fabric)
        = before
          ++ [EvSpawn "java"
                (head
                 ++ [VStr "B"; VStr "--username"; VStr "Steve";
                     VStr "--version"; VStr "1.19"; VStr "--flag";
                     VStr "${unknown}"; VStr "--fabric"; VStr "fresh-uuid"])
                Sample.root]
        /\ length head = 6)
  /\ (exists before head,
        log (snd (Launcher.launch Sample.classic Sample.classicDisk))
        = before
          ++ [EvSpawn "java"
                (head ++ [VStr "C"; VStr "--demo"; VStr "Steve"])
                Sample.root]
        /\ length head = 6).
Proof.
  split; [|split].
  - apply (overlay_game_arguments Sample.fabric Sample.installed).
    + vm_compute. reflexivity.
    + exists "1.19". split; [vm_compute; reflexivity|discriminate].
  - eexists [_; _], [_; _; _; _; _; _]. vm_compute. split; reflexivity.
  - eexists [_], [_; _; _; _; _; _]. vm_compute. split; reflexivity.
Defined.

(** ** What [down] does *)



(** ** The version document *)

Lemma resolveVersionUrl_none (ver : value) (entries : list value)
  (version : string) :
  Js.get ver "versions" = Ok (VArr entries) ->
  Forall (fun y => Downloader.is_release_of version y = Ok false) entries ->
  Downloader.resolveVersionUrl ver version = Throw TypeError.
Proof.
  intros Hv H. unfold Downloader.resolveVersionUrl. rewrite Hv.
  cbn [Js.as_array].
  assert (Hf : Js.find (Downloader.is_release_of version) entries
               = Ok VUndefined).
  { clear Hv. induction H as [|y l Hy _ IH]; simpl; [reflexivity|].
    now rewrite Hy. }
  rewrite Hf. reflexivity.
Qed.

Lemma guarded_mkdir_cases (ex : bool) (e : event) (f : node -> result node)
  (w : world) (r : result unit) (w' : world) :
  (if negb ex then mutate e f else ret tt) w = (r, w') ->
  remote w' = remote w /\ this w' = this w
  /\ match r with
     | Ok _ => exists pre, Spec.added w w' pre /\ (pre = [] \/ pre = [e])
     | Throw _ => w' = w
     end.
Proof.
  destruct ex; cbn [negb]; intros H.
  - injection H as <- <-. split; [reflexivity|]. split; [reflexivity|].
    exists []. split; [|now left].
    unfold Spec.added. now rewrite app_nil_r.
  - unfold mutate in H. destruct (f (fs w)) as [n|err].
    + injection H as <- <-. split; [reflexivity|]. split; [reflexivity|].
      exists [e]. split; [reflexivity|now right].
    + injection H as <- <-. repeat split.
Qed.

(** A [try] around an awaited transfer, however it ends. *)
Lemma try_await_inv {A} (m : M A) (h : error -> M A) (w : world)
  (r : result A) (w' : world) :
  try_await m h w = (r, w') ->
  (exists a, m w = (Ok a, w') /\ r = Ok a)
  \/ (m w = (Throw Unsettled, w') /\ r = Throw Unsettled)
  \/ (exists e w1, m w = (Throw e, w1) /\ e <> Unsettled
                   /\ h e w1 = (r, w')).
Proof.
  unfold try_await. destruct (m w) as [[a|e] w1]; intros H.
  - injection H as <- <-. left. now exists a.
  - destruct e;
      try (right; right; eexists _, w1;
           split; [reflexivity|split; [discriminate|exact H]]).
    injection H as <- <-. right. left. now split.
Qed.

Lemma downloadVersion_cases (w : world) (s : settled) (w' : world) :
  Downloader.downloadVersion w = (Ok s, w') ->
  (exists e evs,
     s = Pending e /\ Spec.added w w' evs
     /\ (remote w Downloader.url_meta <> Some Truncated ->
         forall p c, ~ In (EvWrite p c) evs)
     /\ (forall u d, In (EvGet u d) evs -> u = Downloader.url_meta))
  \/ exists body0 wb,
       remote w Downloader.url_meta = Some body0
       /\ remote wb = remote w
       /\ ((exists e, s = Pending e /\ w' = wb
            /\ match JSON_parse body0 with
               | Ok ver =>
                   Downloader.resolveVersionUrl ver (this_version (this w))
                   = Throw e
               | Throw e' => e = e'
               end)
           \/ exists ver verJson,
                body0 = Json ver
                /\ Downloader.resolveVersionUrl ver (this_version (this w))
                   = Ok verJson
                /\ ((exists e, s = Pending e)
                    \/ (s = Rejected (JsError Downloader.metadataError)
                        /\ exists w1 e1,
                             Spec.extends w w1
                             /\ Downloader.down verJson
                                  (Path.join (this_root (this w))
                                     [Downloader.versions;
                                      this_version (this w)])
                                  (this_version (this w) +++ ".json") w1
                                = (Throw e1, w')
                             /\ e1 <> Unsettled)
                    \/ exists metaUrl body,
                         verJson = VStr metaUrl
                         /\ s = Resolved
                                  ("VERSION: " +++ this_version (this w))
                         /\ remote w metaUrl = Some body
                         /\ FS.read (fs w')
                              (Path.join (this_root (this w))
                                 [Downloader.versions;
                                  this_version (this w);
                                  this_version (this w) +++ ".json"])
                            = Ok body)).
Proof.
  unfold Downloader.downloadVersion, Downloader.promise_async.
  match goal with |- context [?b w] =>
    destruct (b w) as [r0 w0] eqn:H end.
  intros E.
  assert (Hs : s = match r0 with Ok s0 => s0 | Throw e => Pending e end
               /\ w' = w0).
  { destruct r0; injection E as <- <-; now split. }
  destruct Hs as [-> ->]. clear E.
  apply bind_inv in H. destruct H as [(t & ? & H0 & H)|(e & H0 & _)];
    [|discriminate].
  injection H0 as <- <-.
  apply bind_inv in H. destruct H as [(ex & ? & H0 & H)|(e & H0 & _)];
    [|discriminate].
  injection H0 as _ <-.
  apply bind_inv in H. destruct H as [([] & wa & Hmk & H)|(e & Hmk & ->)].
  2:{ unfold mkdirSync_recursive in Hmk.
      apply guarded_mkdir_cases in Hmk. destruct Hmk as (_ & _ & ->).
      left. exists e, []. split; [reflexivity|]. split.
      - unfold Spec.added. now rewrite app_nil_r.
      - split; [intros _ p c []|intros u d []]. }
  assert (Ea : Spec.extends w wa).
  { revert Hmk. destruct (negb _);
      [apply grows_mkdirSync_recursive|apply grows_ret]. }
  unfold mkdirSync_recursive in Hmk. apply guarded_mkdir_cases in Hmk.
  destruct Hmk as (Hra & Hta & pre & La & Hpre).
  assert (Hpre_w : forall p c, ~ In (EvWrite p c) pre).
  { intros p c Hin. destruct Hpre as [->| ->]; [destruct Hin|].
    destruct Hin as [Hin|[]]. discriminate. }
  assert (Hpre_g : forall u d, ~ In (EvGet u d) pre).
  { intros u d Hin. destruct Hpre as [->| ->]; [destruct Hin|].
    destruct Hin as [Hin|[]]. discriminate. }
  apply bind_inv in H. destruct H as [([] & wb & Hd & H)|(e & Hd & ->)].
  2:{ apply down_throws in Hd.
      destruct Hd as [_ [(-> & [(us & Hus & Hcut & _ & Ld)|(Has & _)])
                        |(_ & _ & [->|[(us & Hus & Ld)|(Has & _)]])]];
        try discriminate Has; left.
      - injection Hus as <-. eexists _, (pre ++ _).
        split; [reflexivity|]. split.
        + unfold Spec.added in *. now rewrite Ld, La, app_assoc.
        + split.
          * intros Hn. rewrite Hra in Hcut. contradiction.
          * intros u d Hin. apply in_app_or in Hin.
            destruct Hin as [Hin|[Hin|[Hin|[]]]];
              [now apply Hpre_g in Hin|now injection Hin as <- _
              |discriminate].
      - exists e, pre. split; [reflexivity|]. split; [assumption|].
        split; [intros _; exact Hpre_w|].
        intros u d Hin. now apply Hpre_g in Hin.
      - injection Hus as <-. eexists e, (pre ++ _).
        split; [reflexivity|]. split.
        + unfold Spec.added in *. now rewrite Ld, La, app_assoc.
        + split.
          * intros _ p c Hin. apply in_app_or in Hin.
            destruct Hin as [Hin|[Hin|[]]];
              [now apply Hpre_w in Hin|discriminate].
          * intros u d Hin. apply in_app_or in Hin.
            destruct Hin as [Hin|[Hin|[]]];
              [now apply Hpre_g in Hin|now injection Hin as <- _]. }
  pose proof (grows_down _ _ _ _ _ _ Hd) as Eb.
  apply down_ok_inv in Hd.
  destruct Hd as (us & body0 & Hus & _ & Hr0 & _ & Hw0 & Hrb & Htb & _).
  injection Hus as <-. rewrite Hra in Hr0.
  right. exists body0, wb. split; [assumption|].
  split; [now rewrite Hrb|].
  pose proof (write_read _ _ _ _ Hw0) as Hread.
  rewrite join_join in Hread. cbn [app] in Hread.
  assert (Hcache : FS.exists_ (fs wb)
                     (Path.join (this_root (this w)) [Downloader.cache])
                   = true).
  { change (Path.join (Path.join (this_root (this w))
                         [Downloader.cache; "json"])
              ["version_manifest.json"])
      with (((this_root (this w) ++ ["cache"]) ++ ["json"])
            ++ ["version_manifest.json"]) in Hw0.
    rewrite <- (app_assoc (this_root (this w) ++ ["cache"])) in Hw0.
    change (Path.join (this_root (this w)) [Downloader.cache])
      with (this_root (this w) ++ ["cache"]).
    eapply write_exists_prefix; eassumption. }
  apply bind_inv in H. destruct H as [(ex2 & ? & H0 & H)|(e & H0 & _)];
    [|discriminate].
  injection H0 as Hex2 <-. rewrite Hcache in Hex2. subst ex2.
  apply bind_inv in H. destruct H as [(c & ? & H0 & H)|(e & H0 & _)].
  2:{ unfold readFileSync in H0. rewrite Hread in H0. discriminate. }
  unfold readFileSync in H0. rewrite Hread in H0. injection H0 as <- <-.
  apply bind_inv in H. destruct H as [(ver & ? & H0 & H)|(e & H0 & ->)].
  2:{ apply lift_inv in H0. destruct H0 as [Hp ->].
      left. exists e. split; [reflexivity|]. split; [reflexivity|].
      now rewrite <- Hp. }
  apply lift_inv in H0. destruct H0 as [Hp ->].
  apply bind_inv in H. destruct H as [(verJson & ? & H0 & H)|(e & H0 & ->)].
  2:{ apply lift_inv in H0. destruct H0 as [Hv ->].
      left. exists e. split; [reflexivity|]. split; [reflexivity|].
      now rewrite <- Hp. }
  apply lift_inv in H0. destruct H0 as [Hv ->].
  right. exists ver, verJson.
  split; [destruct body0; try discriminate; now injection Hp as ->|].
  split; [now symmetry|].
  apply bind_inv in H. destruct H as [(ex3 & ? & H0 & H)|(e & H0 & _)];
    [|discriminate].
  injection H0 as _ <-.
  apply bind_inv in H. destruct H as [([] & wc & Hmk2 & H)|(e & Hmk2 & ->)];
    [|left; now exists e].
  assert (Ec : Spec.extends wb wc).
  { revert Hmk2. destruct (negb _);
      [apply grows_mkdirSync_recursive|apply grows_ret]. }
  unfold mkdirSync_recursive in Hmk2. apply guarded_mkdir_cases in Hmk2.
  destruct Hmk2 as (Hrc & Htc & _).
  apply try_await_inv in H.
  destruct H as [(s1 & Hd & ->)|[(Hd & ->)|(e1 & w1 & Hd & Hne & Hh)]].
  - apply bind_ok_inv in Hd. destruct Hd as ([] & ? & Hd & Hret).
    injection Hret as <- <-.
    apply down_ok_inv in Hd.
    destruct Hd as (mu & body & -> & _ & Hr & _ & Hw & _).
    rewrite join_join in Hw. cbn [app] in Hw.
    right. right. exists mu, body. repeat split.
    + now rewrite <- Hra, <- Hrb, <- Hrc.
    + eapply write_read; eassumption.
  - left. now exists Unsettled.
  - injection Hh as <- <-. right. left. split; [reflexivity|].
    apply bind_inv in Hd.
    destruct Hd as [(? & ? & _ & Hret)|(e2 & Hd & He)];
      [discriminate|].
    injection He as <-.
    exists wc, e1. split; [|split; assumption].
    eapply extends_trans; [exact Ea|].
    eapply extends_trans; [exact Eb|exact Ec].
Qed.

(** X11.  When [downloadVersion] settles.  It resolves only when the manifest
    the server gave lists the version as a release with a URL, and then
    the document fetched from that URL is the file
    [versions/<version>/<version>.json]; it rejects only when the manifest
    lists the version so and the transfer of that document fails, with an
    error, the file not written.  In every other case the promise is left
    pending. *)
Theorem downloadVersion_settles (w : world) (s : settled) (w' : world) :
  Downloader.downloadVersion w = (Ok s, w') ->
  match s with
  | Resolved msg =>
      msg = "VERSION: " +++ this_version (this w)
      /\ exists ver metaUrl body,
           remote w Downloader.url_meta = Some (Json ver)
           /\ Downloader.resolveVersionUrl ver (this_version (this w))
              = Ok (VStr metaUrl)
           /\ remote w metaUrl = Some body
           /\ FS.read (fs w')
                (Path.join (this_root (this w))
                   [Downloader.versions; this_version (this w);
                    this_version (this w) +++ ".json"]) = Ok body
  | Rejected e =>
      e = JsError Downloader.metadataError
      /\ exists ver metaUrl w1 e1,
           remote w Downloader.url_meta = Some (Json ver)
           /\ Downloader.resolveVersionUrl ver (this_version (this w))
              = Ok metaUrl
           /\ Spec.extends w w1
           /\ Downloader.down metaUrl
                (Path.join (this_root (this w))
                   [Downloader.versions; this_version (this w)])
                (this_version (this w) +++ ".json") w1
              = (Throw e1, w')
           /\ e1 <> Unsettled
           /\ fs w' = fs w1
           /\ (forall metaUrl',
                 metaUrl = VStr metaUrl' ->
                 Downloader.sendable w metaUrl' = false
                 \/ remote w metaUrl' = None
                 \/ exists body e2,
                      remote w metaUrl' = Some body
                      /\ FS.write (fs w1)
                           (Path.join (this_root (this w))
                              [Downloader.versions; this_version (this w);
                               this_version (this w) +++ ".json"]) body
                         = Throw e2)
  | Pending _ => True
  end.
Proof.
  intros H. apply downloadVersion_cases in H.
  destruct H as [(e & evs & -> & _)|(body0 & wb & Hr & _ & H)];
    [exact I|].
  destruct H as [(e & -> & _)|(ver & verJson & -> & Hv & H)]; [exact I|].
  destruct H as [(e & ->)|[(-> & w1 & e1 & E1 & Hd & Hne)
                          |(mu & body & -> & -> & Hb & Hread)]].
  - exact I.
  - split; [reflexivity|]. exists ver, verJson, w1, e1.
    repeat (split; [assumption|]).
    pose proof Hd as Hd'. apply down_throws in Hd'.
    destruct Hd' as [_ [(-> & _)|(_ & Hfs & _)]]; [contradiction|].
    split; [assumption|].
    intros mu ->. rewrite down_unfold in Hd. cbv zeta in Hd.
    destruct E1 as [(Hr1 & Ha1 & _) _].
    assert (Hsend : Downloader.sendable w1 mu = Downloader.sendable w mu).
    { unfold Downloader.sendable. now rewrite Ha1. }
    rewrite Hsend, Hr1 in Hd.
    destruct (Downloader.sendable w mu); [|now left].
    destruct (remote w mu) as [body|]; [|right; now left].
    rewrite join_join in Hd. cbn [app] in Hd.
    destruct (FS.write (fs w1) _ body) as [n|e2] eqn:Ew.
    + destruct body; try discriminate Hd. injection Hd as He _.
      now symmetry in He.
    + right. right. now exists body, e2.
  - split; [reflexivity|]. now exists ver, mu, body.
Qed.

Lemma downloadVersion_settles_witness :
  ("VERSION: 1.19" = "VERSION: " +++ this_version (this (Sample.aimed "1.19"))
   /\ exists ver metaUrl body,
        remote (Sample.aimed "1.19") Downloader.url_meta = Some (Json ver)
        /\ Downloader.resolveVersionUrl ver
             (this_version (this (Sample.aimed "1.19")))
           = Ok (VStr metaUrl)
        /\ remote (Sample.aimed "1.19") metaUrl = Some body
        /\ FS.read
             (fs (snd (Downloader.downloadVersion (Sample.aimed "1.19"))))
             (Path.join (this_root (this (Sample.aimed "1.19")))
                [Downloader.versions;
                 this_version (this (Sample.aimed "1.19"));
                 this_version (this (Sample.aimed "1.19")) +++ ".json"])
           = Ok body)
  /\ fst (Downloader.downloadVersion Sample.unserved)
     = Ok (Rejected (JsError Downloader.metadataError))
  /\ FS.exists_ (fs (snd (Downloader.downloadVersion Sample.unserved)))
       ["C:"; "mc"; "versions"; "1.19"; "1.19.json"] = false
  /\ transfers (log (snd (Downloader.downloadVersion Sample.unserved)))
     = [EvGet Downloader.url_meta
          ["C:"; "mc"; "cache"; "json"; "version_manifest.json"];
        EvGet "https://m/1.19.json"
          ["C:"; "mc"; "versions"; "1.19"; "1.19.json"]].
Proof.
  split; [|repeat split; vm_compute; reflexivity].
  apply (downloadVersion_settles (Sample.aimed "1.19")
           (Resolved "VERSION: 1.19")).
  vm_compute. reflexivity.
Defined.

(** X12.  A version the manifest does not list as a release never settles
    [downloadVersion].  Once the manifest is stored, the error is the
    [TypeError] of reading [url] off [undefined], for a version that is
    missing as for one that is listed with another type; the message for
    a missing version is not reached. *)
Theorem unknown_version_never_settles (w : world) (ver : value)
  (entries : list value) (s : settled) (w' : world) :
  remote w Downloader.url_meta = Some (Json ver) ->
  Js.get ver "versions" = Ok (VArr entries) ->
  Forall (fun y => Downloader.is_release_of (this_version (this w)) y
                   = Ok false) entries ->
  Downloader.downloadVersion w = (Ok s, w') ->
  exists e,
    s = Pending e
    /\ (e = TypeError
        \/ exists evs,
             Spec.added w w' evs /\ forall p c, ~ In (EvWrite p c) evs).
Proof.
  intros Hr Hv Hno H. apply downloadVersion_cases in H.
  pose proof (resolveVersionUrl_none _ _ _ Hv Hno) as Hnone.
  destruct H as [(e & evs & -> & L & Hw & _)|(body0 & wb & Hr' & _ & H)].
  - exists e. split; [reflexivity|]. right. exists evs.
    split; [assumption|]. apply Hw. rewrite Hr. discriminate.
  - rewrite Hr in Hr'. injection Hr' as <-.
    destruct H as [(e & -> & _ & H)|(ver' & verJson & E & Hv' & _)].
    + exists e. split; [reflexivity|]. left. cbn [JSON_parse] in H.
      rewrite Hnone in H. now injection H as <-.
    + injection E as <-. rewrite Hnone in Hv'. discriminate.
Qed.

Lemma unknown_version_never_settles_witness :
  exists e,
    Pending TypeError = Pending e
    /\ (e = TypeError
        \/ exists evs,
             Spec.added (Sample.aimed "1.20")
               (snd (Downloader.downloadVersion (Sample.aimed "1.20"))) evs
             /\ forall p c, ~ In (EvWrite p c) evs).
Proof.
  apply (unknown_version_never_settles (Sample.aimed "1.20") Sample.manifest
           [VObj [("id", VStr "1.20"); ("type", VStr "snapshot");
                  ("url", VStr "https://m/1.20.json")];
            VObj [("id", VStr "1.19"); ("type", VStr "release");
                  ("url", VStr "https://m/1.19.json")]]).
  - reflexivity.
  - reflexivity.
  - repeat constructor.
  - vm_compute. reflexivity.
Defined.

(** ** The client jar *)



(** ** Failures nobody hears of *)

(** X14.  What goes wrong for one library reaches nobody.  Whenever
    [this.file.libraries] is an array and the libraries directory is there
    or can be made, [downloadLibraries] resolves, whatever the entries of
    the array are and whatever the server answers. *)
Theorem library_failures_swallowed (w : world) (l : list value) :
  Js.get (this_file (this w)) "libraries" = Ok (VArr l) ->
  (FS.exists_ (fs w)
     (Path.join (this_root (this w)) [Downloader.libraries]) = true
   \/ exists n,
        FS.mkdir (fs w)
          (Path.join (this_root (this w)) [Downloader.libraries]) = Ok n) ->
  exists msg w', Downloader.downloadLibraries w = (Ok (Resolved msg), w').
Proof.
  intros Hl Hlib.
  apply guarded_mkdir_runs in Hlib. destruct Hlib as [w1 Hmk1].
  unfold Downloader.downloadLibraries, Downloader.promise_sync.
  rewrite (bind_ok Downloader.get_this _ w w _ eq_refl).
  rewrite (bind_ok (existsSync _) _ w w _ eq_refl).
  rewrite (bind_ok _ _ _ _ _ Hmk1).
  rewrite (bind_ok _ _ w1 w1 (VArr l)) by (unfold lift; now rewrite Hl).
  rewrite (bind_ok _ _ w1 w1 l) by reflexivity.
  destruct (forEachAsync_libraries (this_root (this w)) l w1) as [w3 Hf].
  rewrite (bind_ok _ _ _ _ _ Hf). unfold ret. eauto.
Qed.

Lemma library_failures_swallowed_witness :
  exists msg w',
    Downloader.downloadLibraries Sample.portable = (Ok (Resolved msg), w').
Proof.
  apply (library_failures_swallowed Sample.portable
           [VObj [("name", VStr "com.mojang:patchy:1.1");
                  ("downloads",
                    Sample.artifact "com/mojang/patchy/1.1/patchy-1.1.jar"
                      "https://l/patchy")]]).
  - reflexivity.
  - right. eexists. vm_compute. reflexivity.
Defined.

(** ** Libraries without natives *)

Lemma forEachAsync_idle {A} (f : A -> M bool) (l : list A) (w : world) :
  Forall (fun x => exists r, f x w = (r, w)) l ->
  exists b, Downloader.forEachAsync f l w = (Ok b, w).
Proof.
  induction 1 as [|x l [r Hx] _ [b IH]]; [now exists false|].
  cbn [Downloader.forEachAsync].
  assert (Hc : exists bx, Downloader.callback (f x) w = (Ok bx, w)).
  { unfold Downloader.callback, try_catch, ret. rewrite Hx.
    destruct r as [bx|e]; eauto. }
  destruct Hc as [bx Hc].
  rewrite (bind_ok _ _ w w bx Hc), (bind_ok _ _ w w b IH).
  unfold ret. eauto.
Qed.

(** X15.  A library that offers no bundle for Windows, whether it has no
    classifiers at all or none of the two looked for, costs
    [downloadNatives] nothing: when no library of the version offers one,
    no request is sent and at most the natives directory is made. *)
Theorem natives_skipped (w : world) (l : list value) (s : settled)
  (w' : world) :
  Js.get (this_file (this w)) "libraries" = Ok (VArr l) ->
  Forall (fun element =>
            forall d el natives,
              Js.get element "downloads" = Ok d ->
              Js.get d "classifiers" = Ok el ->
              Downloader.selectNatives el = Ok natives ->
              Js.truthy natives = false) l ->
  Downloader.downloadNatives w = (Ok s, w') ->
  Spec.added w w' []
  \/ Spec.added w w'
       [EvMkdir (Path.join (this_root (this w)) [Downloader.natives])].
Proof.
  intros Hl Hno H.
  unfold Downloader.downloadNatives, Downloader.promise_sync in H.
  rewrite (bind_ok Downloader.get_this _ w w _ eq_refl) in H.
  rewrite (bind_ok (existsSync _) _ w w _ eq_refl) in H.
  match type of H with context [bind ?m ?k w] =>
    destruct (m w) as [[[]|e] w1] eqn:Hmk end.
  2:{ unfold bind in H. rewrite Hmk in H. injection H as _ <-.
      unfold mkdirSync in Hmk. apply guarded_mkdir_cases in Hmk.
      destruct Hmk as (_ & _ & ->).
      left. unfold Spec.added. now rewrite app_nil_r. }
  rewrite (bind_ok _ _ _ _ _ Hmk) in H.
  rewrite (bind_ok _ _ w1 w1 (VArr l)) in H by (unfold lift; now rewrite Hl).
  rewrite (bind_ok _ _ w1 w1 l) in H by reflexivity.
  destruct (forEachAsync_idle
              (Downloader.downloadNative (this_root (this w))) l w1)
    as [b Hb].
  { eapply Forall_impl; [|exact Hno].
    intros element He. unfold Downloader.downloadNative, bind, lift.
    destruct (Js.get element "downloads") as [d|] eqn:E1; [|eauto].
    destruct (Js.get d "classifiers") as [el|] eqn:E2; [|eauto].
    destruct (Downloader.selectNatives el) as [n|] eqn:E3; [|eauto].
    rewrite (He _ _ _ E1 E2 E3). unfold ret. eauto. }
  rewrite (bind_ok _ _ w1 w1 b Hb) in H.
  injection H as _ <-.
  unfold mkdirSync in Hmk. apply guarded_mkdir_cases in Hmk.
  destruct Hmk as (_ & _ & pre & L & [->| ->]); [now left|now right].
Qed.

Lemma natives_skipped_witness :
  Spec.added Sample.portable
    (snd (Downloader.downloadNatives Sample.portable)) []
  \/ Spec.added Sample.portable
       (snd (Downloader.downloadNatives Sample.portable))
       [EvMkdir (Path.join (this_root (this Sample.portable))
                   [Downloader.natives])].
Proof.
  apply (natives_skipped Sample.portable
           [VObj [("name", VStr "com.mojang:patchy:1.1");
                  ("downloads",
                    Sample.artifact "com/mojang/patchy/1.1/patchy-1.1.jar"
                      "https://l/patchy")]]
           (Resolved ("NATIVES DESCARGADOS - " +++
                      Path.render (Sample.root ++ ["natives"])))).
  - reflexivity.
  - constructor; [|constructor].
    intros d el natives Hd Hel Hsel.
    injection Hd as <-. injection Hel as <-. now injection Hsel as <-.
  - vm_compute. reflexivity.
Defined.

(** ** Where a library is stored *)


Lemma plain_inv (s : string) :
  Spec.plain s = true ->
  forallb (fun x => negb (Path.is_sep x)) (list_ascii_of_string s) = true
  /\ s <> "" /\ s <> "." /\ s <> "..".
Proof.
  unfold Spec.plain. intros H.
  apply andb_prop in H. destruct H as [H _].
  apply andb_prop in H. destruct H as [H Hdd].
  apply andb_prop in H. destruct H as [H Hd].
  apply andb_prop in H. destruct H as [Hs He].
  apply negb_true_iff in He, Hd, Hdd.
  apply String.eqb_neq in He, Hd, Hdd. auto.
Qed.





Lemma take_name_app (a r : list ascii) :
  forallb (fun x => negb (Path.is_sep x)) a = true ->
  Path.take_name (a ++ "/"%char :: r) = a.
Proof.
  induction a as [|c a IH]; intros H; cbn [app Path.take_name].
  - reflexivity.
  - simpl in H. apply andb_prop in H. destruct H as [Hc Ha].
    apply negb_true_iff in Hc. now rewrite Hc, IH.
Qed.

Lemma take_name_all (a : list ascii) :
  forallb (fun x => negb (Path.is_sep x)) a = true ->
  Path.take_name a = a.
Proof.
  induction a as [|c a IH]; intros H; cbn [Path.take_name].
  - reflexivity.
  - simpl in H. apply andb_prop in H. destruct H as [Hc Ha].
    apply negb_true_iff in Hc. now rewrite Hc, IH.
Qed.

Lemma drop_seps_plain (a r : list ascii) :
  a <> [] ->
  forallb (fun x => negb (Path.is_sep x)) a = true ->
  Path.drop_seps (a ++ r) = a ++ r.
Proof.
  destruct a as [|c a]; [contradiction|]. intros _ H.
  simpl in H. apply andb_prop in H. destruct H as [Hc _].
  apply negb_true_iff in Hc. cbn [app Path.drop_seps]. now rewrite Hc.
Qed.

Lemma forallb_rev_true {A} (f : A -> bool) (l : list A) :
  forallb f l = true -> forallb f (rev l) = true.
Proof.
  rewrite !forallb_forall. intros H x Hx. apply H. now apply in_rev.
Qed.

Lemma list_nonempty (s : string) : s <> "" -> list_ascii_of_string s <> [].
Proof. destruct s; [contradiction|discriminate]. Qed.

Lemma plain_no_colon (s : string) :
  Spec.plain s = true -> Spec.lacks ":"%char s = true.
Proof.
  unfold Spec.plain. intros H. apply andb_prop in H. now destruct H.
Qed.

(** A string without a colon has no drive prefix. *)
Lemma drop_drive_lacks (l : list ascii) :
  forallb (fun x => negb (Ascii.eqb x ":"%char)) l = true ->
  Path.drop_drive l = l.
Proof.
  destruct l as [|c [|d t]]; try reflexivity. intros H.
  cbn [forallb] in H. apply andb_prop in H. destruct H as [_ H].
  apply andb_prop in H. destruct H as [H _].
  apply negb_true_iff, Ascii.eqb_neq in H. unfold Path.drop_drive.
  destruct d as [[|] [|] [|] [|] [|] [|] [|] [|]]; try reflexivity.
  now contradiction H.
Qed.

(** What a drive prefix leaves still ends as the string did. *)
Lemma drop_drive_app (pre s : list ascii) :
  exists pre', Path.drop_drive (pre ++ "/"%char :: s) = pre' ++ "/"%char :: s.
Proof.
  destruct pre as [|c [|d t]].
  - exists []. cbn [app]. unfold Path.drop_drive.
    destruct s as [|x s]; [reflexivity|].
    destruct x as [[|] [|] [|] [|] [|] [|] [|] [|]]; reflexivity.
  - now exists [c].
  - cbn [app]. unfold Path.drop_drive.
    destruct d as [[|] [|] [|] [|] [|] [|] [|] [|]]; cbv beta iota;
      try (now eexists (c :: _ :: t)).
    destruct (Path.is_letter c); [now exists t|now eexists (c :: _ :: t)].
Qed.

(** The basename of a path whose last segment is a plain name. *)
Lemma basename_plain (s : string) :
  Spec.plain s = true -> Path.basename s = s.
Proof.
  intros H. pose proof (plain_no_colon _ H) as Hc.
  apply plain_inv in H. destruct H as (Hs & He & _).
  unfold Path.basename. rewrite (drop_drive_lacks _ Hc).
  rewrite <- (app_nil_r (rev (list_ascii_of_string s))).
  rewrite drop_seps_plain, app_nil_r, take_name_all, rev_involutive.
  - apply string_of_list_ascii_of_string.
  - now apply forallb_rev_true.
  - intros E. apply (f_equal (@rev ascii)) in E.
    rewrite rev_involutive in E. now apply list_nonempty in He.
  - now apply forallb_rev_true.
Qed.

Lemma basename_after (pre s : string) :
  Spec.plain s = true -> Path.basename (pre +++ "/" +++ s) = s.
Proof.
  intros H. apply plain_inv in H. destruct H as (Hs & He & _).
  unfold Path.basename.
  rewrite list_ascii_app. cbn [String.append list_ascii_of_string].
  destruct (drop_drive_app (list_ascii_of_string pre)
              (list_ascii_of_string s)) as [pre' ->].
  rewrite rev_app_distr. cbn [rev]. rewrite <- !app_assoc. cbn [app].
  rewrite drop_seps_plain, take_name_app, rev_involutive.
  - apply string_of_list_ascii_of_string.
  - now apply forallb_rev_true.
  - intros E. apply (f_equal (@rev ascii)) in E.
    rewrite rev_involutive in E. now apply list_nonempty in He.
  - now apply forallb_rev_true.
Qed.





(** ** A download without a version *)

Lemma logs_grows {A} (m : M A) : Spec.grows m -> Spec.logs m.
Proof.
  intros H w r w' E. now destruct (H w r w' E) as [(_ & _ & L & _) _].
Qed.

Lemma logs_bind {A B} (m : M A) (k : A -> M B) :
  Spec.logs m -> (forall a, Spec.logs (k a)) -> Spec.logs (bind m k).
Proof.
  intros Hm Hk w r w' H. apply bind_inv in H.
  destruct H as [(a & w1 & H1 & H2)|(e & H1 & _)].
  - destruct (Hm _ _ _ H1) as [e1 L1]. destruct (Hk _ _ _ _ H2) as [e2 L2].
    exists (e1 ++ e2). unfold Spec.added in *. now rewrite L2, L1, app_assoc.
  - eapply Hm; eassumption.
Qed.

Lemma logs_set_file (v : value) : Spec.logs (Downloader.set_file v).
Proof.
  intros w r w' H. injection H as _ <-. exists [].
  unfold Spec.added. cbn [log with_this]. now rewrite app_nil_r.
Qed.

Lemma logs_promise_async (body : M settled) :
  Spec.logs body -> Spec.logs (Downloader.promise_async body).
Proof.
  intros Hb w r w' H. unfold Downloader.promise_async in H.
  destruct (body w) as [[s|e] w1] eqn:E; injection H as _ <-;
    eapply Hb; eassumption.
Qed.

Lemma logs_await (p : M settled) :
  Spec.logs p -> Spec.logs (Downloader.await p).
Proof.
  intros H. unfold Downloader.await. apply logs_bind; [assumption|].
  intros [m|e|e]; apply logs_grows; grows_steps.
Qed.

Lemma logs_downloadClient : Spec.logs Downloader.downloadClient.
Proof.
  unfold Downloader.downloadClient. apply logs_promise_async.
  repeat first
    [ apply logs_bind; [|intro]
    | apply logs_set_file
    | apply logs_grows; unfold mkdirSync;
      solve [grows_steps; apply grows_down] ].
Qed.

Lemma await_world (p : M settled) (w : world) (r : result string)
  (w' : world) :
  Downloader.await p w = (r, w') -> exists r0, p w = (r0, w').
Proof.
  unfold Downloader.await. intros H. apply bind_inv in H.
  destruct H as [(s & w1 & Hp & Hm)|(e & Hp & _)]; [|eauto].
  assert (w' = w1) as -> by (destruct s; now injection Hm).
  eauto.
Qed.

(** A URL that can be sent is asked for, however the transfer ends. *)
Lemma down_sent (us : string) (dir : path) (name : string) (w : world)
  (r : result unit) (w' : world) :
  Downloader.sendable w us = true ->
  Downloader.down (VStr us) dir name w = (r, w') ->
  Spec.since w w' (EvGet us (Path.join dir [name])).
Proof.
  intros Hs. rewrite down_unfold. cbv zeta. rewrite Hs.
  destruct (remote w us) as [body|].
  - destruct (FS.write (fs w) (Path.join dir [name]) body) as [n|e];
      intros H; injection H as _ <-.
    + exists [EvGet us (Path.join dir [name]);
              EvWrite (Path.join dir [name]) body].
      split; [|now left]. unfold Spec.added. simpl.
      now rewrite <- app_assoc.
    + exists [EvGet us (Path.join dir [name])]. split; [|now left].
      reflexivity.
  - intros H. injection H as _ <-.
    exists [EvGet us (Path.join dir [name])]. split; [|now left].
    reflexivity.
Qed.

(** Whatever its outcome, [downloadVersion] asks for the manifest once
    the directory for it is there. *)
Lemma downloadVersion_requests (w : world) (r : result settled)
  (w' : world) :
  FS.exists_ (fs w)
    (Path.join (this_root (this w)) [Downloader.cache; "json"]) = true ->
  Downloader.downloadVersion w = (r, w') ->
  Spec.since w w'
    (EvGet Downloader.url_meta
       (Path.join (this_root (this w))
          [Downloader.cache; "json"; "version_manifest.json"])).
Proof.
  intros Hex H. unfold Downloader.downloadVersion in H.
  assert (Hb : exists r0,
    (Downloader.down (VStr Downloader.url_meta)
       (Path.join (this_root (this w)) [Downloader.cache; "json"])
       "version_manifest.json" ;;
     ex <- existsSync (Path.join (this_root (this w)) [Downloader.cache]) ;;
     if ex then
       c <- readFileSync
              (Path.join (this_root (this w))
                 [Downloader.cache; "json"; "version_manifest.json"]) ;;
       ver <- lift (JSON_parse c) ;;
       verJson <- lift (Downloader.resolveVersionUrl ver
                          (this_version (this w))) ;;
       ex <- existsSync
               (Path.join (this_root (this w))
                  [Downloader.versions; this_version (this w)]) ;;
       (if negb ex
        then mkdirSync_recursive
               (Path.join (this_root (this w))
                  [Downloader.versions; this_version (this w)])
        else ret tt) ;;
       try_await
         (Downloader.down verJson
            (Path.join (this_root (this w))
               [Downloader.versions; this_version (this w)])
            (this_version (this w) +++ ".json") ;;
          ret (Resolved ("VERSION: " +++ this_version (this w))))
         (fun _ => ret (Rejected (JsError Downloader.metadataError)))
     else ret (Resolved ("VERSION: " +++ this_version (this w)))) w
    = (r0, w')).
  { unfold Downloader.promise_async in H.
    rewrite (bind_ok Downloader.get_this _ w w _ eq_refl) in H.
    rewrite (bind_ok (existsSync _) _ w w _ eq_refl) in H.
    rewrite Hex in H. cbn [negb] in H.
    rewrite (bind_ok (ret tt) _ w w tt eq_refl) in H.
    match type of H with context [bind ?m ?k w] =>
      destruct (bind m k w) as [[s0|e0] w0] eqn:E end;
      injection H as _ <-; eauto. }
  destruct Hb as [r0 Hb]. apply bind_inv in Hb.
  destruct Hb as [([] & w1 & Hd & Hk)|(e & Hd & _)].
  - apply down_sent in Hd; [|apply sendable_meta].
    rewrite join_join in Hd. cbn [app] in Hd.
    eapply since_r; [exact Hd|].
    revert Hk. generalize w1 r0 w'.
    match goal with |- forall a b c, ?t a = (b, c) -> _ =>
      change (Spec.grows t) end.
    unfold mkdirSync_recursive. grows_steps; apply grows_down.
  - apply down_sent in Hd; [|apply sendable_meta].
    rewrite join_join in Hd. exact Hd.
Qed.

(** X17.  [download] without a version.  The promise is rejected, with the
    message that no version was given, but the executor does not stop
    there: the five steps run all the same, for the version [''], and the
    manifest is asked for once more. *)
Theorem download_without_version (root : path) (w : world) :
  exists w',
    Downloader.download "" root w
    = (Ok (Rejected (JsError "No se ha proporcionado una versión")), w')
    /\ (FS.exists_ (fs w) (Path.join root [Downloader.cache; "json"]) = true
        -> Spec.since w w'
             (EvGet Downloader.url_meta
                (Path.join root
                   [Downloader.cache; "json"; "version_manifest.json"]))).
Proof.
  unfold Downloader.download.
  rewrite (bind_ok (Downloader.set_version_root "" root) _ w _ tt eq_refl).
  set (w0 := with_this w _).
  match goal with |- context [bind (Downloader.promise_async ?b) ?k w0] =>
    destruct (b w0) as [r0 w1] eqn:Hb;
    pose proof (eq_refl (Downloader.promise_async b w0)) as Hp
  end.
  unfold Downloader.promise_async at 2 in Hp. rewrite Hb in Hp.
  assert (Hs : exists s, (let (r, w') := (r0, w1) in
                          match r with
                          | Ok s => (Ok s, w')
                          | Throw e => (Ok (Pending e), w')
                          end) = (Ok s, w1)) by (destruct r0; eauto).
  destruct Hs as [s Hs]. rewrite Hs in Hp. clear Hs.
  rewrite (bind_ok _ _ _ _ _ Hp).
  cbn [String.eqb]. exists w1. split; [reflexivity|].
  intros Hex. apply bind_inv in Hb.
  assert (Hlog : forall e, Spec.since w0 w1 e -> Spec.since w w1 e).
  { intros e (evs & L & Hin). now exists evs. }
  apply Hlog.
  destruct Hb as [(m & wa & Hv & Hk)|(e & Hv & _)].
  - apply await_world in Hv. destruct Hv as [rv Hv].
    apply downloadVersion_requests in Hv; [|exact Hex].
    destruct Hv as (e1 & L1 & Hin).
    assert (Hrest : exists e2, Spec.added wa w1 e2).
    { revert Hk. generalize wa r0 w1.
      match goal with |- forall a b c, ?t a = (b, c) -> _ =>
        change (Spec.logs t) end.
      repeat first
        [ apply logs_await
        | apply logs_bind; [|intro]
        | apply logs_downloadClient
        | apply logs_grows;
          first [ apply grows_downloadAssets
                | apply grows_downloadLibraries
                | apply grows_downloadNatives
                | apply grows_ret ] ]. }
    destruct Hrest as [e2 L2]. exists (e1 ++ e2). split.
    + unfold Spec.added in *. now rewrite L2, L1, app_assoc.
    + apply in_or_app. now left.
  - apply await_world in Hv. destruct Hv as [rv Hv].
    apply downloadVersion_requests in Hv; [|exact Hex]. exact Hv.
Qed.

(** ** The assets *)

(** X18.  [downloadAssets] never rejects.  The transfer of an object is
    started and left to itself, so that its failure is only printed; any
    other failure happens inside the [async] executor and leaves the
    promise pending.  When the promise resolves, it does so with the path
    of the assets directory. *)
Theorem downloadAssets_never_rejects (w : world) (s : settled) (w' : world) :
  Downloader.downloadAssets w = (Ok s, w') ->
  match s with
  | Resolved msg =>
      msg = "RECURSOS DESCARGADOS - " +++
            Path.render (Path.join (this_root (this w)) [Downloader.assets])
  | Rejected _ => False
  | Pending _ => True
  end.
Proof.
  unfold Downloader.downloadAssets, Downloader.promise_async.
  match goal with |- context [?b w] =>
    destruct (b w) as [[s0|e0] w0] eqn:H end;
    intros E; injection E as <- <-; [|exact I].
  apply bind_ok_inv in H. destruct H as (t & ? & H0 & H).
  injection H0 as <- <-.
  repeat (apply bind_ok_inv in H; destruct H as (? & ? & _ & H)).
  now injection H as <-.
Qed.

Lemma downloadAssets_never_rejects_witness :
  "RECURSOS DESCARGADOS - C:\mc\assets"
  = "RECURSOS DESCARGADOS - " +++
    Path.render
      (Path.join (this_root (this Sample.clientFetched)) [Downloader.assets]).
Proof.
  apply (downloadAssets_never_rejects Sample.clientFetched
           (Resolved "RECURSOS DESCARGADOS - C:\mc\assets")
           (snd (Downloader.downloadAssets Sample.clientFetched))).
  vm_compute. reflexivity.
Defined.

(** ** How [download] ends *)

(** X19.  [download] rejects only when no version is given.  For a version
    that is given, the failure of a step, a rejection included, is an
    exception inside the [async] executor: the promise resolves, with the
    fixed message, or is left pending. *)
Theorem download_settles (version : string) (root : path) (w : world)
  (s : settled) (w' : world) :
  Downloader.download version root w = (Ok s, w') ->
  match s with
  | Resolved msg => version <> "" /\ msg = Downloader.downloaded
  | Rejected e =>
      version = "" /\ e = JsError "No se ha proporcionado una versión"
  | Pending _ => version <> ""
  end.
Proof.
  unfold Downloader.download. intros H.
  rewrite (bind_ok (Downloader.set_version_root version root) _ w _ tt
             eq_refl) in H.
  apply bind_ok_inv in H. destruct H as (s0 & w1 & Hp & H).
  destruct (String.eqb_spec version "") as [E|E].
  - injection H as <- _. now split.
  - injection H as <- _. unfold Downloader.promise_async in Hp.
    match type of Hp with context [?b ?w0] =>
      match type of b with M settled =>
        destruct (b w0) as [[s1|e1] w2] eqn:Hb end end;
      injection Hp as <- _; [|exact E].
    repeat (apply bind_ok_inv in Hb; destruct Hb as (? & ? & _ & Hb)).
    injection Hb as <- _. now split.
Qed.

Lemma download_settles_witness :
  "1.19" <> "" /\ Downloader.downloaded = Downloader.downloaded.
Proof.
  apply (download_settles "1.19" Sample.root Sample.empty
           (Resolved Downloader.downloaded)
           (snd (Downloader.download "1.19" Sample.root Sample.empty))).
  vm_compute. reflexivity.
Defined.

(** ** From the downloader to the launcher *)

Lemma filesAt_dir (p : path) (a : string) (es : list (string * node)) :
  Spec.filesAt p a (Dir es) = Spec.filesUnder p es.
Proof.
  cbn [Spec.filesAt]. induction es as [|[k n] es IH]; [reflexivity|].
  cbn [Spec.filesUnder]. now rewrite IH.
Qed.

Lemma filesUnder_app (dir : path) (l1 l2 : list (string * node)) :
  Spec.filesUnder dir (l1 ++ l2)
  = Spec.filesUnder dir l1 ++ Spec.filesUnder dir l2.
Proof.
  induction l1 as [|[k n] l1 IH]; [reflexivity|].
  cbn [app Spec.filesUnder]. now rewrite IH, app_assoc.
Qed.

Lemma assoc_split {A} (k : string) (l : list (string * A)) (x : A) :
  Js.assoc k l = Some x -> exists l1 l2, l = l1 ++ (k, x) :: l2.
Proof.
  induction l as [|[k' v] l IH]; [discriminate|]. cbn [Js.assoc].
  destruct (String.eqb_spec k k') as [<-|_].
  - intros H. injection H as <-. now exists [], l.
  - intros H. destruct (IH H) as (l1 & l2 & ->).
    now exists ((k', v) :: l1), l2.
Qed.

(** A file of the tree is among the files the search meets. *)
Lemma filesUnder_lookup (segs : list string) : forall dir es c,
  Forall (fun s => Spec.plain s = true) segs ->
  FS.lookup (Dir es) segs = Some (File c) ->
  In (dir ++ segs, last segs "") (Spec.filesUnder dir es).
Proof.
  induction segs as [|s rest IH]; intros dir es c Hp Hl; [discriminate|].
  inversion Hp as [|? ? Hs Hrest]; subst.
  cbn [FS.lookup] in Hl.
  destruct (Js.assoc s es) as [n|] eqn:Ea; [|discriminate].
  destruct (assoc_split _ _ _ Ea) as (l1 & l2 & ->).
  rewrite filesUnder_app. apply in_or_app. right.
  cbn [Spec.filesUnder]. apply in_or_app. left.
  rewrite join_plain by assumption.
  destruct rest as [|r rest].
  - cbn [FS.lookup] in Hl. injection Hl as ->. now left.
  - destruct n as [c'|es']; [discriminate|].
    rewrite filesAt_dir.
    replace (dir ++ s :: r :: rest) with ((dir ++ [s]) ++ r :: rest)
      by now rewrite <- app_assoc.
    change (last (s :: r :: rest) "") with (last (r :: rest) "").
    eapply IH; eassumption.
Qed.

Lemma basename_join (segs : list string) :
  Forall (fun s => Spec.plain s = true) segs ->
  segs <> [] ->
  Path.basename (Str.join "/" segs) = last segs "".
Proof.
  intros Hp Hne. destruct (exists_last Hne) as (init & x & ->).
  rewrite last_last.
  apply Forall_app in Hp. destruct Hp as [_ Hx].
  inversion Hx as [|? ? Hl _]; subst.
  unfold Str.join. destruct init as [|y init].
  - cbn [app String.concat]. now apply basename_plain.
  - rewrite concat_snoc by discriminate. now apply basename_after.
Qed.

Lemma classpath_In (f : path * string) (l : list (path * string)) :
  In f l ->
  exists before after,
    Spec.classpath l
    = before +++ Path.render (fst f) +++ ";" +++ after.
Proof.
  intros H. apply in_split in H. destruct H as (l1 & l2 & ->).
  exists (Spec.classpath l1), (Spec.classpath l2).
  rewrite classpath_app. cbn [Spec.classpath].
  now rewrite !append_assoc.
Qed.

(** X20.  The launcher finds what the downloader stored.  A jar that is on the
    disk where [downloadLibraries] puts the artifact of path
    [a/b/.../name.jar], that is at [libraries\a\b\...\name.jar], is in the
    string the search gives for the libraries directory, when the names
    asked for contain the basename of that path, the way [launch] collects
    them, and the name does not contain [3.2.1] or the version is one of
    the legacy ones. *)
Theorem stored_library_found (w : world) (root : path)
  (es : list (string * node)) (segs : list string) (c : content)
  (files : list string) (ver : string) :
  FS.readdir (fs w) (root ++ ["libraries"]) = Ok es ->
  FS.read (fs w) (root ++ "libraries" :: segs) = Ok c ->
  Forall (fun s => Spec.plain s = true) segs ->
  segs <> [] ->
  Path.extname (Path.basename (Str.join "/" segs)) = ".jar" ->
  In (Path.basename (Str.join "/" segs)) files ->
  In ver Launcher.legacy
  \/ Str.includes (Path.basename (Str.join "/" segs)) "3.2.1" = false ->
  exists before after,
    Launcher.encontrarArchivosJAR
      (Path.resolve (Path.join root [Downloader.libraries])) files ver w
    = (Ok (before +++ Path.render (root ++ "libraries" :: segs) +++ ";"
           +++ after), w).
Proof.
  intros Hdir Hread Hp Hne Hext Hin Hver.
  rewrite basename_join in Hext, Hin, Hver by assumption.
  unfold Path.resolve. rewrite join_plain by reflexivity.
  change [Downloader.libraries] with ["libraries"].
  unfold Launcher.encontrarArchivosJAR.
  rewrite (bind_ok _ _ w w es)
    by (unfold readdirSync; now rewrite Hdir).
  unfold ret. rewrite scan_classpath.
  assert (Hf : In (root ++ "libraries" :: segs, last segs "")
                 (Spec.selected (root ++ ["libraries"]) es files ver)).
  { apply filter_In. split; [|now apply admitted_iff].
    replace (root ++ "libraries" :: segs)
      with ((root ++ ["libraries"]) ++ segs) by now rewrite <- app_assoc.
    apply (filesUnder_lookup segs _ es c); [assumption|].
    unfold FS.readdir in Hdir. unfold FS.read in Hread.
    replace (root ++ "libraries" :: segs)
      with ((root ++ ["libraries"]) ++ segs) in Hread
      by now rewrite <- app_assoc.
    rewrite lookup_app in Hread.
    destruct (FS.lookup (fs w) (root ++ ["libraries"])) as [[?|es0]|];
      try discriminate.
    injection Hdir as ->.
    destruct (FS.lookup (Dir es) segs) as [[c0|?]|]; try discriminate.
    now injection Hread as ->. }
  apply classpath_In in Hf. destruct Hf as (before & after & ->).
  now exists before, after.
Qed.

Lemma stored_library_found_witness :
  exists before after,
    Launcher.encontrarArchivosJAR
      (Path.resolve (Path.join Sample.root [Downloader.libraries]))
      ["patchy-1.1.jar"] "1.19" Sample.downloaded
    = (Ok (before +++
           Path.render
             (Sample.root ++
              "libraries" :: ["com"; "mojang"; "patchy"; "1.1";
                              "patchy-1.1.jar"]) +++ ";" +++ after),
       Sample.downloaded).
Proof.
  eapply (stored_library_found Sample.downloaded Sample.root _
            ["com"; "mojang"; "patchy"; "1.1"; "patchy-1.1.jar"] _
            ["patchy-1.1.jar"] "1.19").
  - vm_compute. reflexivity.
  - vm_compute. reflexivity.
  - repeat constructor.
  - discriminate.
  - reflexivity.
  - left. reflexivity.
  - right. reflexivity.
Defined.
